(** * Softsmith orchestration core: task graph, scheduling, retry and lifecycle

    A shallow embedding of
      - backend/app/models/task.py, backend/app/models/event.py
      - backend/app/services/orchestrator.py   (class Orchestrator)
      - backend/app/services/project_service.py (class ProjectService)
      - backend/app/api/routers/projects.py     (resume endpoint)
      - backend/app/agents/fixer.py             (_run_fixer_async)
      - backend/app/agents/codegen.py, tester.py, deployer.py,
        web_agent_client.py                     (their writes to the task row)

    Conventions.
      - The database is a record of tables.  A table with a primary key is a
        finite map from the key to the row ([gmap string _]); the event table
        is only ever appended to and is a list.  A SELECT without ORDER BY
        returns rows in an unspecified order; the model enumerates a table in
        key order.
      - An ORM object is the row it was loaded from: assigning attributes and
        committing is an update of those columns of the row with that key
        ([alter]).
      - [uuid.uuid4()] draws from a counter kept in the world; that names
        drawn at different times differ is all that is ever used.
      - [datetime.utcnow()] is the argument [now] of the entry point.
      - Celery's [.delay(...)] appends the call to the broker queue and
        returns a fresh handle.
      - [logger] calls are not state and are left out.
      - A Python exception that leaves the function is the [Raise] result. *)

From Stdlib Require Import ZArith String DecimalString DecimalZ DecimalNat.
From stdpp Require Import gmap strings list fin_maps.

Open Scope string_scope.
Open Scope Z_scope.

Set Warnings "-register-all".

(** ** Values *)

Definition datetime := nat.

(** JSON documents, as [json.loads] builds them and JSON columns store them;
    numbers are integers here. *)
Inductive json :=
| JNull
| JBool (b : bool)
| JInt (z : Z)
| JStr (s : string)
| JList (l : list json)
| JDict (l : list (string * json)).

(** Python truth value of a JSON document. *)
Definition truthy (v : json) : bool :=
  match v with
  | JNull => false
  | JBool b => b
  | JInt z => negb (z =? 0)
  | JStr s => negb (String.eqb s "")
  | JList l => match l with [] => false | _ => true end
  | JDict l => match l with [] => false | _ => true end
  end.

(** Truth value of [d.get(k)]: a missing key gives [None], which is false. *)
Definition truthy_opt (v : option json) : bool :=
  match v with Some j => truthy j | None => false end.

(** [str(n)] and [int(s)] on Python integers.  [int] is modelled on decimal
    numerals with an optional leading minus sign, which is what [str] writes
    and all the [retry_count] column ever holds; any other text raises
    [ValueError] ([None] here). *)
Definition str (z : Z) : string := NilZero.string_of_int (Z.to_int z).
Definition int (s : string) : option Z := Z.of_int <$> NilZero.int_of_string s.

(** [s[:n]] *)
Definition prefix_slice (n : nat) (s : string) : string := String.substring 0 n s.

(** ** models/task.py *)

Module TaskType.
Inductive t :=
| PLANNING | CODEGEN | TESTING | DEBUGGING | DEPLOYMENT | WEB_TEST | REVIEW | DOCUMENTATION.
End TaskType.
Abbreviation TaskType := TaskType.t.

#[global] Instance TaskType_eq_dec : EqDecision TaskType.
Proof. solve_decision. Defined.

Module TaskStatus.
Inductive t :=
| PENDING | QUEUED | RUNNING | COMPLETED | FAILED | CANCELLED | RETRYING.
End TaskStatus.
Abbreviation TaskStatus := TaskStatus.t.

#[global] Instance TaskStatus_eq_dec : EqDecision TaskStatus.
Proof. solve_decision. Defined.

Module Task.
Record t := mk {
  project_id : string;
  name : string;
  description : option string;
  type : TaskType;
  status : TaskStatus;
  input_data : option json;
  output_data : option json;
  error_message : option string;
  depends_on : option (list string);
  created_at : datetime;
  started_at : option datetime;
  completed_at : option datetime;
  retry_count : string;
  celery_task_id : option string
}.

Definition set_status (v : TaskStatus) (x : t) : t :=
  mk (project_id x) (name x) (description x) (type x) v (input_data x)
     (output_data x) (error_message x) (depends_on x) (created_at x)
     (started_at x) (completed_at x) (retry_count x) (celery_task_id x).
Definition set_output_data (v : option json) (x : t) : t :=
  mk (project_id x) (name x) (description x) (type x) (status x) (input_data x)
     v (error_message x) (depends_on x) (created_at x)
     (started_at x) (completed_at x) (retry_count x) (celery_task_id x).
Definition set_error_message (v : option string) (x : t) : t :=
  mk (project_id x) (name x) (description x) (type x) (status x) (input_data x)
     (output_data x) v (depends_on x) (created_at x)
     (started_at x) (completed_at x) (retry_count x) (celery_task_id x).
Definition set_depends_on (v : option (list string)) (x : t) : t :=
  mk (project_id x) (name x) (description x) (type x) (status x) (input_data x)
     (output_data x) (error_message x) v (created_at x)
     (started_at x) (completed_at x) (retry_count x) (celery_task_id x).
Definition set_started_at (v : option datetime) (x : t) : t :=
  mk (project_id x) (name x) (description x) (type x) (status x) (input_data x)
     (output_data x) (error_message x) (depends_on x) (created_at x)
     v (completed_at x) (retry_count x) (celery_task_id x).
Definition set_completed_at (v : option datetime) (x : t) : t :=
  mk (project_id x) (name x) (description x) (type x) (status x) (input_data x)
     (output_data x) (error_message x) (depends_on x) (created_at x)
     (started_at x) v (retry_count x) (celery_task_id x).
Definition set_retry_count (v : string) (x : t) : t :=
  mk (project_id x) (name x) (description x) (type x) (status x) (input_data x)
     (output_data x) (error_message x) (depends_on x) (created_at x)
     (started_at x) (completed_at x) v (celery_task_id x).
Definition set_celery_task_id (v : option string) (x : t) : t :=
  mk (project_id x) (name x) (description x) (type x) (status x) (input_data x)
     (output_data x) (error_message x) (depends_on x) (created_at x)
     (started_at x) (completed_at x) (retry_count x) v.

(** [Task(project_id=…, name=…, description=…, type=…, status=…,
    input_data=…, depends_on=…)] once flushed: the columns not given take
    their declared defaults ([retry_count] is ["0"], [created_at] is the
    clock, the rest are NULL). *)
Definition new (pid nm descr : string) (ty : TaskType) (st : TaskStatus)
    (inp : option json) (deps : option (list string)) (now : datetime) : t :=
  mk pid nm (Some descr) ty st inp None None deps now None None "0" None.
End Task.
Abbreviation Task := Task.t.

(** ** models/project.py *)

(** Modelled from the spec: the status enumeration of a project
    ([ProjectStatus] of models/project.py, which is not among the sources);
    section 3 lists its members. *)
Module ProjectStatus.
Inductive t :=
| NEW | PLANNING | CODING | TESTING | DEPLOYING | READY | DEPLOYED | FAILED | PAUSED.


(** Modelled from the spec: the string behind each project status
    ([ProjectStatus] of models/project.py is not among the sources); the
    enumerations of this code base are string-backed with the lower-case
    member name as value, as [TaskStatus] and [EventType] are. *)
Definition value (s : t) : string :=
  match s with
  | NEW => "new" | PLANNING => "planning" | CODING => "coding"
  | TESTING => "testing" | DEPLOYING => "deploying" | READY => "ready"
  | DEPLOYED => "deployed" | FAILED => "failed" | PAUSED => "paused"
  end.
End ProjectStatus.
Abbreviation ProjectStatus := ProjectStatus.t.

#[global] Instance ProjectStatus_eq_dec : EqDecision ProjectStatus.
Proof. solve_decision. Defined.

Module Project.
(** Modelled from the spec: the columns of a project row (class [Project] of
    models/project.py is not among the sources); these are the attributes
    the services read and write, with the spec's section 3 for the rest. *)
Record t := mk {
  name : string;
  description : string;
  prompt : string;
  user_id : string;
  status : ProjectStatus;
  spec : option (gmap string json);
  workspace_path : option string;
  total_tasks : Z;
  completed_tasks : Z;
  failed_tasks : Z;
  last_error : option string;
  error_count : Z;
  updated_at : datetime;
  started_at : option datetime;
  completed_at : option datetime
}.

Definition set_status (v : ProjectStatus) (x : t) : t :=
  mk (name x) (description x) (prompt x) (user_id x) v (spec x)
     (workspace_path x) (total_tasks x) (completed_tasks x) (failed_tasks x)
     (last_error x) (error_count x) (updated_at x) (started_at x) (completed_at x).
Definition set_spec (v : option (gmap string json)) (x : t) : t :=
  mk (name x) (description x) (prompt x) (user_id x) (status x) v
     (workspace_path x) (total_tasks x) (completed_tasks x) (failed_tasks x)
     (last_error x) (error_count x) (updated_at x) (started_at x) (completed_at x).
Definition set_total_tasks (v : Z) (x : t) : t :=
  mk (name x) (description x) (prompt x) (user_id x) (status x) (spec x)
     (workspace_path x) v (completed_tasks x) (failed_tasks x)
     (last_error x) (error_count x) (updated_at x) (started_at x) (completed_at x).
Definition set_completed_tasks (v : Z) (x : t) : t :=
  mk (name x) (description x) (prompt x) (user_id x) (status x) (spec x)
     (workspace_path x) (total_tasks x) v (failed_tasks x)
     (last_error x) (error_count x) (updated_at x) (started_at x) (completed_at x).
Definition set_failed_tasks (v : Z) (x : t) : t :=
  mk (name x) (description x) (prompt x) (user_id x) (status x) (spec x)
     (workspace_path x) (total_tasks x) (completed_tasks x) v
     (last_error x) (error_count x) (updated_at x) (started_at x) (completed_at x).
Definition set_last_error (v : option string) (x : t) : t :=
  mk (name x) (description x) (prompt x) (user_id x) (status x) (spec x)
     (workspace_path x) (total_tasks x) (completed_tasks x) (failed_tasks x)
     v (error_count x) (updated_at x) (started_at x) (completed_at x).
Definition set_error_count (v : Z) (x : t) : t :=
  mk (name x) (description x) (prompt x) (user_id x) (status x) (spec x)
     (workspace_path x) (total_tasks x) (completed_tasks x) (failed_tasks x)
     (last_error x) v (updated_at x) (started_at x) (completed_at x).
Definition set_updated_at (v : datetime) (x : t) : t :=
  mk (name x) (description x) (prompt x) (user_id x) (status x) (spec x)
     (workspace_path x) (total_tasks x) (completed_tasks x) (failed_tasks x)
     (last_error x) (error_count x) v (started_at x) (completed_at x).
Definition set_started_at (v : option datetime) (x : t) : t :=
  mk (name x) (description x) (prompt x) (user_id x) (status x) (spec x)
     (workspace_path x) (total_tasks x) (completed_tasks x) (failed_tasks x)
     (last_error x) (error_count x) (updated_at x) v (completed_at x).
Definition set_completed_at (v : option datetime) (x : t) : t :=
  mk (name x) (description x) (prompt x) (user_id x) (status x) (spec x)
     (workspace_path x) (total_tasks x) (completed_tasks x) (failed_tasks x)
     (last_error x) (error_count x) (updated_at x) (started_at x) v.
Definition set_workspace_path (v : option string) (x : t) : t :=
mk (name x) (description x) (prompt x) (user_id x) (status x) (spec x)
   v (total_tasks x) (completed_tasks x) (failed_tasks x)
   (last_error x) (error_count x) (updated_at x) (started_at x) (completed_at x).

(** Modelled from the spec: [Project(name=…, description=…, prompt=…,
    user_id=…, status=…)] once flushed; the counters start at zero and the
    columns not given are NULL. *)
Definition new (nm descr prompt_ user : string) (st : ProjectStatus)
    (now : datetime) : t :=
mk nm descr prompt_ user st None None 0 0 0 None 0 now None None.
End Project.
Abbreviation Project := Project.t.

(** ** models/event.py *)

Module EventLevel.
Inductive t := DEBUG | INFO | WARNING | ERROR | CRITICAL.
End EventLevel.
Abbreviation EventLevel := EventLevel.t.

Module EventType.
Inductive t :=
| PROJECT_CREATED | PROJECT_STARTED | PROJECT_COMPLETED | PROJECT_FAILED
| TASK_STARTED | TASK_COMPLETED | TASK_FAILED | CODE_GENERATED
| TEST_RUN | TEST_PASSED | TEST_FAILED | ERROR_FIXED
| DEPLOYMENT_STARTED | DEPLOYMENT_COMPLETED | LOG.
End EventType.
Abbreviation EventType := EventType.t.

Module Event.
Record t := mk {
  project_id : string;
  type : EventType;
  level : EventLevel;
  message : string;
  details : option json;
  source : option string;
  task_id : option string;
  timestamp : datetime
}.
End Event.
Abbreviation Event := Event.t.

(** ** The world: database tables, Celery broker, uuid source *)

(** The agent entry points a task can be handed to ([<agent>.delay(args)]). *)
Inductive CeleryCall :=
| run_planner (project_id task_id : string)
| run_codegen (task_id : string)
| run_tests (task_id : string)
| run_deployment (task_id : string)
| run_web_tests (task_id : string)
| run_fixer (task_id error : string).

Record World := mkWorld {
  tasks : gmap string Task;
  projects : gmap string Project;
  events : list Event;
  broker : list (string * CeleryCall);
  uuid_counter : nat
}.

Definition set_tasks (v : gmap string Task) (w : World) : World :=
  mkWorld v (projects w) (events w) (broker w) (uuid_counter w).
Definition set_projects (v : gmap string Project) (w : World) : World :=
  mkWorld (tasks w) v (events w) (broker w) (uuid_counter w).

(** [task.<attrs> = …; commit()] and [project.<attrs> = …; commit()] *)
Definition update_task (id : string) (f : Task → Task) (w : World) : World :=
  set_tasks (alter f id (tasks w)) w.
Definition update_project (id : string) (f : Project → Project) (w : World) : World :=
  set_projects (alter f id (projects w)) w.

(** [db.add(event); commit()] *)
Definition add_event (e : Event) (w : World) : World :=
  mkWorld (tasks w) (projects w) (events w ++ [e]) (broker w) (uuid_counter w).

(** [str(uuid.uuid4())] *)
Definition uuid_name (n : nat) : string :=
  "uuid-" ++ NilZero.string_of_uint (Nat.to_uint n).
Definition uuid4 (w : World) : World * string :=
  (mkWorld (tasks w) (projects w) (events w) (broker w) (S (uuid_counter w)),
   uuid_name (uuid_counter w)).

(** [celery_task = agent.delay(args)]; the result is [celery_task.id]. *)
Definition delay (c : CeleryCall) (w : World) : World * string :=
  let '(w1, h) := uuid4 w in
  (mkWorld (tasks w1) (projects w1) (events w1) (broker w1 ++ [(h, c)]) (uuid_counter w1), h).

(** Exceptions that leave a handler; the world is the one last committed. *)
Inductive Exn := NoResultFound | ValueError.

Inductive Result :=
| Ok (w : World)
| Raise (e : Exn) (w : World).

Definition bind (r : Result) (k : World → Result) : Result :=
  match r with
  | Ok w => k w
  | Raise e w => Raise e w
  end.

(** ** services/project_service.py *)

Module ProjectService.

(** [ProjectService.create_project], called with [prompt] and [user_id] and
    with [name] or without; [stamp] is the text
    [datetime.now().strftime('%Y%m%d-%H%M%S')] evaluates to.  The result
    carries the key of the new row and the row. *)
Definition create_project (prompt user_id : string) (name : option string)
    (stamp : string) (now : datetime) (w : World) : World * (string * Project) :=
  let '(w, id) := uuid4 w in
  let project :=
    Project.new
      (match name with
       | Some n => if String.eqb n "" then "Project-" ++ stamp else n
       | None => "Project-" ++ stamp
       end)
      (prefix_slice 200 prompt) prompt user_id ProjectStatus.NEW now in
  let w := set_projects (<[id := project]> (projects w)) w in
  let event :=
    Event.mk id EventType.PROJECT_CREATED EventLevel.INFO
      ("Project '" ++ Project.name project ++ "' created")
      None (Some "project_service") None now in
  (add_event event w, (id, project)).

(** [ProjectService.get_project] *)
Definition get_project (project_id : string) (w : World) : option Project :=
  projects w !! project_id.

(** [ProjectService.update_project_status]; the second component is the
    returned object ([None] when the project does not exist). *)
Definition update_project_status (project_id : string) (status : ProjectStatus)
    (error_message : option string) (now : datetime) (w : World)
    : World * option Project :=
  match get_project project_id w with
  | None => (w, None)
  | Some project =>
      let old_status := Project.status project in
      let project := Project.set_updated_at now (Project.set_status status project) in
      let project :=
        if bool_decide (status = ProjectStatus.FAILED)
           && match error_message with Some m => negb (String.eqb m "") | None => false end
        then Project.set_error_count (Project.error_count project + 1)
               (Project.set_last_error error_message project)
        else project in
      let project :=
        if bool_decide (status = ProjectStatus.READY ∨ status = ProjectStatus.DEPLOYED)
        then Project.set_completed_at (Some now) project
        else project in
      let event :=
        Event.mk project_id
          (if bool_decide (status = ProjectStatus.READY)
           then EventType.PROJECT_COMPLETED else EventType.LOG)
          (if bool_decide (status = ProjectStatus.FAILED)
           then EventLevel.ERROR else EventLevel.INFO)
          ("Project status changed from " ++ ProjectStatus.value old_status
             ++ " to " ++ ProjectStatus.value status)
          (Some (JDict [("old_status", JStr (ProjectStatus.value old_status));
                        ("new_status", JStr (ProjectStatus.value status))]))
          (Some "project_service") None now in
      (add_event event (set_projects (<[project_id := project]> (projects w)) w),
       Some project)
  end.

(** [ProjectService.pause_project] *)
Definition pause_project (project_id : string) (now : datetime) (w : World)
    : World * option Project :=
  update_project_status project_id ProjectStatus.PAUSED None now w.

(** [ProjectService.resume_project] *)
Definition resume_project (project_id : string) (now : datetime) (w : World)
    : World * option Project :=
  match get_project project_id w with
  | None => (w, None)
  | Some project =>
      if bool_decide (Project.status project ≠ ProjectStatus.PAUSED) then (w, None)
      else update_project_status project_id ProjectStatus.CODING None now w
  end.

End ProjectService.

(** ** services/orchestrator.py *)

Section Orchestrator.

(** [self.config.app.max_retries] *)
Variable max_retries : Z.

(** [self.config.app.projects_dir] *)
Variable projects_dir : string.

(** [Orchestrator.schedule_planning] *)
Definition schedule_planning (project_id : string) (now : datetime) (w : World) : World :=
  let task := Task.new project_id "Project Planning"
                "Analyze prompt and create project specification"
                TaskType.PLANNING TaskStatus.PENDING None None now in
  let '(w, id) := uuid4 w in
  let w := set_tasks (<[id := task]> (tasks w)) w in
  let '(w, celery_id) := delay (run_planner project_id id) w in
  update_task id (Task.set_status TaskStatus.QUEUED ∘
                  Task.set_celery_task_id (Some celery_id)) w.

(** [Orchestrator.create_project]; the directories it makes on disk are
    outside the world, and [str(projects_dir / project.id)] is the join of
    the two with a separator.  The result carries the key of the new
    project. *)
Definition create_project (prompt user_id stamp : string) (now : datetime)
    (w : World) : World * string :=
  let '(w, (id, _)) := ProjectService.create_project prompt user_id None stamp now w in
  let w := update_project id
             (Project.set_workspace_path (Some (projects_dir ++ "/" ++ id))) w in
  (schedule_planning id now w, id).

(** [Orchestrator._task_is_ready] *)
Definition _task_is_ready (w : World) (task : Task) : bool :=
  match Task.depends_on task with
  | None => true
  | Some [] => true
  | Some deps =>
      forallb (fun dep_id =>
                 match tasks w !! dep_id with
                 | None => false
                 | Some dep_task =>
                     bool_decide (Task.status dep_task = TaskStatus.COMPLETED)
                 end) deps
  end.

(** [Orchestrator._schedule_task]; [row] is the ORM object: key and columns. *)
Definition _schedule_task (row : string * Task) (w : World) : World :=
  let id := row.1 in
  let w := update_task id (Task.set_status TaskStatus.QUEUED) w in
  let dispatch c :=
    let '(w, celery_id) := delay c w in
    update_task id (Task.set_celery_task_id (Some celery_id)) w in
  match Task.type row.2 with
  | TaskType.CODEGEN => dispatch (run_codegen id)
  | TaskType.TESTING => dispatch (run_tests id)
  | TaskType.DEPLOYMENT => dispatch (run_deployment id)
  | TaskType.WEB_TEST => dispatch (run_web_tests id)
  | _ => w
  end.

(** The query of [schedule_next_tasks]:
    [select(Task).where(Task.project_id == project_id, Task.status == PENDING)] *)
Definition select_pending (project_id : string) (w : World) : list (string * Task) :=
  filter (fun row => Task.project_id row.2 = project_id
                     ∧ Task.status row.2 = TaskStatus.PENDING)
         (map_to_list (tasks w)).

(** The loop of [schedule_next_tasks] over the rows the query returned. *)
Definition dispatch_pending (pending_tasks : list (string * Task)) (w : World) : World :=
  foldl (fun w task => if _task_is_ready w task.2 then _schedule_task task w else w)
        w pending_tasks.

(** [Orchestrator.schedule_next_tasks] *)
Definition schedule_next_tasks (project_id : string) (w : World) : World :=
  dispatch_pending (select_pending project_id w) w.

(** [Orchestrator._check_project_completion] *)
Definition _check_project_completion (project_id : string) (now : datetime)
    (w : World) : World :=
  match projects w !! project_id with
  | None => w
  | Some _ =>
      let tasks := filter (fun row => Task.project_id row.2 = project_id)
                          (map_to_list (tasks w)) in
      let all_complete :=
        forallb (fun row => bool_decide (Task.status row.2 = TaskStatus.COMPLETED)) tasks in
      if all_complete then
        update_project project_id
          (Project.set_completed_at (Some now) ∘
           Project.set_status ProjectStatus.READY) w
      else w
  end.

(** [Orchestrator.on_task_complete] *)
Definition on_task_complete (task_id : string) (output : json) (now : datetime)
    (w : World) : Result :=
  match tasks w !! task_id with
  | None => Ok w
  | Some task =>
      let project_id := Task.project_id task in
      match projects w !! project_id with
      | None => Raise NoResultFound w
      | Some _ =>
          let w := update_task task_id
                     (Task.set_output_data (Some output) ∘
                      Task.set_completed_at (Some now) ∘
                      Task.set_status TaskStatus.COMPLETED) w in
          let w := update_project project_id
                     (fun p => Project.set_completed_tasks (Project.completed_tasks p + 1) p) w in
          let w := schedule_next_tasks project_id w in
          Ok (_check_project_completion project_id now w)
      end
  end.

(** [Orchestrator.on_task_failure] *)
Definition on_task_failure (task_id : string) (error : string) (w : World) : Result :=
  match tasks w !! task_id with
  | None => Ok w
  | Some task =>
      match int (Task.retry_count task) with
      | None => Raise ValueError w
      | Some retry_count =>
          if retry_count <? max_retries then
            let w := update_task task_id
                       (Task.set_error_message (Some error) ∘
                        Task.set_retry_count (str (retry_count + 1)) ∘
                        Task.set_status TaskStatus.RETRYING) w in
            let '(w, celery_id) := delay (run_fixer task_id error) w in
            Ok (update_task task_id (Task.set_celery_task_id (Some celery_id)) w)
          else
            let w := update_task task_id
                       (Task.set_error_message (Some error) ∘
                        Task.set_status TaskStatus.FAILED) w in
            match projects w !! Task.project_id task with
            | None => Raise NoResultFound w
            | Some _ =>
                Ok (update_project (Task.project_id task)
                      (fun p =>
                         Project.set_last_error
                           (Some ("Task " ++ Task.name task ++ " failed: " ++ error))
                           (Project.set_status ProjectStatus.FAILED
                              (Project.set_failed_tasks (Project.failed_tasks p + 1) p)))
                      w)
            end
      end
  end.

(** The [Task(...)] objects [create_tasks_from_spec] builds before the flush,
    in the order it appends them. *)
Definition spec_tasks (project_id : string) (spec : gmap string json)
    (now : datetime) : list Task :=
  let codegen nm descr component :=
    if truthy_opt (spec !! component) then
      [Task.new project_id nm descr TaskType.CODEGEN TaskStatus.PENDING
         (Some (JDict [("component", JStr component);
                       ("spec", default JNull (spec !! component))]))
         None now]
    else [] in
  codegen "Generate Backend Code" "Generate backend application code" "backend"
  ++ codegen "Generate Frontend Code" "Generate frontend application code" "frontend"
  ++ codegen "Generate Infrastructure" "Generate Docker, k8s, and deployment configs"
             "infrastructure"
  ++ [Task.new project_id "Generate and Run Tests"
        "Generate test suite and execute tests"
        TaskType.TESTING TaskStatus.PENDING None (Some []) now;
      Task.new project_id "Deploy Application"
        "Build and deploy the application locally"
        TaskType.DEPLOYMENT TaskStatus.PENDING None (Some []) now].

(** [for task in tasks: self.db.add(task)] followed by [flush()]: every object
    receives its primary key, in order. *)
Fixpoint flush_tasks (ts : list Task) (w : World) : World * list (string * Task) :=
  match ts with
  | [] => (w, [])
  | t :: ts =>
      let '(w, id) := uuid4 w in
      let '(w, rows) := flush_tasks ts w in
      (w, (id, t) :: rows)
  end.

(** The second phase of [create_tasks_from_spec]: the cross references among
    the flushed objects. *)
Definition link_dependencies (rows : list (string * Task)) : list (string * Task) :=
  let code_task_ids :=
    (filter (fun row => Task.type row.2 = TaskType.CODEGEN) rows).*1 in
  let test_tasks := filter (fun row => Task.type row.2 = TaskType.TESTING) rows in
  (fun row =>
     let t := row.2 in
     let t := if decide (Task.type t = TaskType.TESTING)
              then Task.set_depends_on (Some code_task_ids) t else t in
     let t := if decide (Task.type t = TaskType.DEPLOYMENT)
              then Task.set_depends_on (Some (test_tasks.*1)) t else t in
     (row.1, t)) <$> rows.

(** [Orchestrator.create_tasks_from_spec]; the flushed rows reach the table
    with the final [commit()], or not at all when the project lookup raises. *)
Definition create_tasks_from_spec (project_id : string) (spec : gmap string json)
    (now : datetime) (w : World) : Result :=
  let tasks0 := spec_tasks project_id spec now in
  let '(w1, rows) := flush_tasks tasks0 w in
  let rows := link_dependencies rows in
  match projects w1 !! project_id with
  | None => Raise NoResultFound w1
  | Some _ =>
      let w2 := set_tasks (list_to_map rows ∪ tasks w1) w1 in
      Ok (update_project project_id
            (Project.set_total_tasks (Z.of_nat (length tasks0))) w2)
  end.

(** [Orchestrator.on_planning_complete] *)
Definition on_planning_complete (project_id : string) (spec : gmap string json)
    (now : datetime) (w : World) : Result :=
  match projects w !! project_id with
  | None => Ok w
  | Some _ =>
      let w := update_project project_id
                 (Project.set_started_at (Some now) ∘
                  Project.set_status ProjectStatus.CODING ∘
                  Project.set_spec (Some spec)) w in
      bind (create_tasks_from_spec project_id spec now w)
           (fun w => Ok (schedule_next_tasks project_id w))
  end.

End Orchestrator.

(** ** api/routers/projects.py *)

Module Router.

Inductive HTTPException := mkHTTPException (status_code : Z) (detail : string).

(** [POST /projects/{project_id}/resume]: either the exception raised or the
    message and project of the response body. *)
Definition resume_project (project_id : string) (now : datetime) (w : World)
    : World * (HTTPException + string * Project) :=
  match ProjectService.resume_project project_id now w with
  | (w, None) => (w, inl (mkHTTPException 404 "Project not found or not paused"))
  | (w, Some project) => (w, inr ("Project resumed", project))
  end.

End Router.

(** ** agents/fixer.py *)

Module Fixer.

(** What the body of the [try] block did before the original task is touched:
    the LLM call, the parsing of its answer and the edits to workspace files
    are outside the world; they either ran through, with the list of files
    fixed and the analysis, or raised [e], of which only [str(e)] is used. *)
Inductive Attempt :=
| Fixed (files_fixed : list string) (analysis : option json)
| Raised (str_e : string).

(** [_run_fixer_async] *)
Definition _run_fixer_async (task_id error : string) (attempt : Attempt)
    (now : datetime) (w : World) : World :=
  match tasks w !! task_id with
  | None => w
  | Some task =>
      let project_id := Task.project_id task in
      match projects w !! project_id with
      | None => w
      | Some project =>
          let w := add_event
                     (Event.mk project_id EventType.LOG EventLevel.INFO
                        ("Auto-fix started for error: " ++ prefix_slice 100 error)
                        None (Some "fixer") (Some task_id) now) w in
          match attempt with
          | Fixed files_fixed analysis =>
              let w := add_event
                         (Event.mk project_id EventType.ERROR_FIXED EventLevel.INFO
                            ("Auto-fix completed: "
                               ++ str (Z.of_nat (length files_fixed)) ++ " files fixed")
                            (Some (JDict [("analysis", default JNull analysis);
                                          ("files_fixed", JList (JStr <$> files_fixed))]))
                            (Some "fixer") (Some task_id) now) w in
              let w := update_task task_id
                         (Task.set_error_message None ∘
                          Task.set_status TaskStatus.PENDING) w in
              schedule_next_tasks project_id w
          | Raised str_e =>
              let w := add_event
                         (Event.mk project_id EventType.LOG EventLevel.ERROR
                            ("Auto-fix failed: " ++ str_e)
                            None (Some "fixer") (Some task_id) now) w in
              update_task task_id
                (Task.set_error_message (Some ("Fix attempt failed: " ++ str_e)) ∘
                 Task.set_status TaskStatus.FAILED) w
          end
      end
  end.

End Fixer.

(** ** Vocabulary of the properties *)

(** The task a Celery call is made for. *)
Definition call_task_id (c : CeleryCall) : string :=
  match c with
  | run_planner _ task_id => task_id
  | run_codegen task_id => task_id
  | run_tests task_id => task_id
  | run_deployment task_id => task_id
  | run_web_tests task_id => task_id
  | run_fixer task_id _ => task_id
  end.

(** The execution agent [_schedule_task] routes a task type to, if any. *)
Definition agent_for (ty : TaskType) : option (string → CeleryCall) :=
  match ty with
  | TaskType.CODEGEN => Some run_codegen
  | TaskType.TESTING => Some run_tests
  | TaskType.DEPLOYMENT => Some run_deployment
  | TaskType.WEB_TEST => Some run_web_tests
  | _ => None
  end.

(** The calls put on the broker between two worlds. *)
Definition enqueued (w w' : World) : list (string * CeleryCall) :=
  drop (length (broker w)) (broker w').

(** The dependency ids of a task; a NULL column is no dependency. *)
Definition deps_of (t : Task) : list string := default [] (Task.depends_on t).

(** Every dependency of [t] refers to a task whose status is COMPLETED. *)
Definition deps_completed (w : World) (t : Task) : Prop :=
  ∀ d, d ∈ deps_of t →
       ∃ dep, tasks w !! d = Some dep ∧ Task.status dep = TaskStatus.COMPLETED.

(** Readiness in the words of the specification. *)
Definition ready (w : World) (t : Task) : Prop :=
  Task.status t = TaskStatus.PENDING ∧ deps_completed w t.

(** What [_schedule_task] writes into the row it claims. *)
Definition claim (handle : option string) (t : Task) : Task :=
  match handle with
  | Some h => Task.set_celery_task_id (Some h) (Task.set_status TaskStatus.QUEUED t)
  | None => Task.set_status TaskStatus.QUEUED t
  end.

(** The dependency with id [d] exists and is COMPLETED (the test inside the
    loop of [_task_is_ready]). *)
Definition completed (w : World) (d : string) : bool :=
  match tasks w !! d with
  | None => false
  | Some dep => bool_decide (Task.status dep = TaskStatus.COMPLETED)
  end.

(** The status of the task with id [id], if the row exists. *)
Definition status_of (w : World) (id : string) : option TaskStatus :=
  Task.status <$> tasks w !! id.

(** Between [w] and [w'] the task was claimed: it moved into QUEUED. *)
Definition claimed (w w' : World) (id : string) : Prop :=
  status_of w id ≠ Some TaskStatus.QUEUED ∧ status_of w' id = Some TaskStatus.QUEUED.

(** Between [w] and [w'] an agent was invoked for the task. *)
Definition invoked (w w' : World) (id : string) : Prop :=
  ∃ call, call ∈ enqueued w w' ∧ call_task_id call.2 = id.

(** The world a handler leaves behind, returned or raised. *)
Definition world_of (r : Result) : World :=
  match r with Ok w => w | Raise _ w => w end.

(** ** Sample worlds *)

Module Demo.

Definition project (st : ProjectStatus) : Project :=
  Project.mk "demo" "a demo project" "build a todo app" "system" st None
             (Some "/app/projects/p1") 0 0 0 None 0 0%nat None None.

Definition task (ty : TaskType) (st : TaskStatus) (deps : option (list string))
    (retry : string) : Task :=
  Task.mk "p1" "Generate Backend Code" None ty st None None None deps 0%nat None None
          retry None.

(** Project ["p1"] in status [st] with the given task rows. *)
Definition world (st : ProjectStatus) (ts : list (string * Task)) : World :=
  mkWorld (list_to_map ts) {["p1" := project st]} [] [] 0.

(** One CODEGEN task in the given status. *)
Definition single (pst : ProjectStatus) (st : TaskStatus) : World :=
  world pst [("a", task TaskType.CODEGEN st None "0")].

(** Two CODEGEN tasks, a TESTING task that waits for ["b"] and a DEPLOYMENT
    task that waits for the tests; ["a"] has used up two retries. *)
Definition graph : World :=
  world ProjectStatus.CODING
    [("a", task TaskType.CODEGEN TaskStatus.QUEUED None "2");
     ("b", task TaskType.CODEGEN TaskStatus.QUEUED None "0");
     ("t", task TaskType.TESTING TaskStatus.PENDING (Some ["b"]) "0");
     ("d", task TaskType.DEPLOYMENT TaskStatus.PENDING (Some ["t"]) "0")].

End Demo.

(** ** agents/codegen.py, tester.py, deployer.py, web_agent_client.py *)

Module Agent.

(** The writes an execution agent makes to its own task row around the work
    it does: [status = RUNNING] on start, [status = COMPLETED] with the output
    before it calls [on_task_complete], [status = FAILED] with [str(e)] before
    it calls [on_task_failure]. *)
Definition mark_running (task_id : string) (now : datetime) (w : World) : World :=
  update_task task_id
    (Task.set_started_at (Some now) ∘ Task.set_status TaskStatus.RUNNING) w.

Definition mark_completed (task_id : string) (output : json) (now : datetime)
    (w : World) : World :=
  update_task task_id
    (Task.set_output_data (Some output) ∘ Task.set_completed_at (Some now) ∘
     Task.set_status TaskStatus.COMPLETED) w.

Definition mark_failed (task_id : string) (str_e : string) (w : World) : World :=
  update_task task_id
    (Task.set_error_message (Some str_e) ∘ Task.set_status TaskStatus.FAILED) w.

End Agent.

(** ** Execution paths *)

(** One atomic move of the system with retry budget [max_retries]: the
    submission of a project, a handler of the orchestrator, a run of the
    fixer, a write of an agent, an audit event, or a pause or resume
    request. *)
Inductive core_step (max_retries : Z) (w : World) : World → Prop :=
| cs_create_project projects_dir prompt user_id stamp now :
    core_step max_retries w (create_project projects_dir prompt user_id stamp now w).1
| cs_schedule_planning project_id now :
    core_step max_retries w (schedule_planning project_id now w)
| cs_on_planning_complete project_id spec now :
    core_step max_retries w (world_of (on_planning_complete project_id spec now w))
| cs_schedule_next_tasks project_id :
    core_step max_retries w (schedule_next_tasks project_id w)
| cs_on_task_complete task_id output now :
    core_step max_retries w (world_of (on_task_complete task_id output now w))
| cs_on_task_failure task_id error :
    core_step max_retries w (world_of (on_task_failure max_retries task_id error w))
| cs_run_fixer task_id error attempt now :
    core_step max_retries w (Fixer._run_fixer_async task_id error attempt now w)
| cs_mark_running task_id now :
    core_step max_retries w (Agent.mark_running task_id now w)
| cs_mark_completed task_id output now :
    core_step max_retries w (Agent.mark_completed task_id output now w)
| cs_mark_failed task_id str_e :
    core_step max_retries w (Agent.mark_failed task_id str_e w)
| cs_add_event e :
    core_step max_retries w (add_event e w)
| cs_pause project_id now :
    core_step max_retries w (ProjectService.pause_project project_id now w).1
| cs_resume project_id now :
    core_step max_retries w (ProjectService.resume_project project_id now w).1.

(** A move of the whole back end: a core move, or the PATCH endpoint setting
    a project's status to whatever the request says. *)
Inductive step (max_retries : Z) (w : World) : World → Prop :=
| step_core w' : core_step max_retries w w' → step max_retries w w'
| step_patch project_id status now :
    step max_retries w
         (ProjectService.update_project_status project_id status None now w).1.

(** The worlds an execution can reach from [w0]. *)
Inductive reachable (max_retries : Z) (w0 : World) : World → Prop :=
| reachable_refl : reachable max_retries w0 w0
| reachable_step w w' :
    reachable max_retries w0 w → step max_retries w w' → reachable max_retries w0 w'.

(** The world before anything was submitted. *)
Definition empty_world : World := mkWorld ∅ ∅ [] [] 0.

(** Every task's [retry_count] reads as an integer that is at most
    [max_retries]. *)
Definition retry_bounded (max_retries : Z) (w : World) : Prop :=
  ∀ id t, tasks w !! id = Some t →
          ∃ n, int (Task.retry_count t) = Some n ∧ n ≤ max_retries.

(** Every task of the project is COMPLETED. *)
Definition all_tasks_completed (project_id : string) (w : World) : Prop :=
  ∀ id t, tasks w !! id = Some t → Task.project_id t = project_id →
          Task.status t = TaskStatus.COMPLETED.

(** The status of the project, if the row exists. *)
Definition project_status (w : World) (project_id : string) : option ProjectStatus :=
  Project.status <$> projects w !! project_id.

(** ** Vocabulary of the graph expansion *)

(** The component keys [create_tasks_from_spec] looks up, in its order. *)
Definition components : list string := ["backend"; "frontend"; "infrastructure"].

(** Those of them the specification declares: the entry is present and
    true in Python's sense (not null, not empty). *)
Definition declared (spec : gmap string json) : list string :=
  filter (fun k => Is_true (truthy_opt (spec !! k))) components.

(** The component a CODEGEN task was created for ([input_data["component"]]). *)
Definition component_of (t : Task) : option string :=
  match Task.input_data t with
  | Some (JDict (("component", JStr k) :: _)) => Some k
  | _ => None
  end.

(** The ids of the rows of a given type. *)
Definition ids_of_type (ty : TaskType) (rows : list (string * Task)) : list string :=
  (filter (fun row => Task.type row.2 = ty) rows).*1.

(** The rows [create_tasks_from_spec] commits, with their keys and cross
    references. *)
Definition created_rows (project_id : string) (spec : gmap string json)
    (now : datetime) (w : World) : list (string * Task) :=
  link_dependencies (flush_tasks (spec_tasks project_id spec now) w).2.

(** A specification as the planner's prompt lays it out, with a database
    section next to the backend and frontend sections. *)
Definition Demo_spec : gmap string json :=
  {[ "project_name" := JStr "todo";
     "backend" := JDict [("framework", JStr "fastapi")];
     "frontend" := JDict [("framework", JStr "react")];
     "database" := JDict [("type", JStr "postgres")] ]}.

(** A specification that declares only a database, and an empty backend. *)
Definition Demo_spec_database : gmap string json :=
  {[ "database" := JDict [("type", JStr "postgres")];
     "backend" := JDict [] ]}.

(** * Further code: the execution agents, the LLM router, progress reports

    Embedded below:
      - backend/app/agents/codegen.py            (_run_codegen_async)
      - backend/app/agents/tester.py             (_run_tests_async)
      - backend/app/core/llm_router.py           (class LLMRouter)
      - backend/app/services/progress_service.py (class ProgressService)
      - backend/app/services/project_service.py  (get_project_stats)

    An agent reads the clock before its work and after it: the two readings
    are the arguments [now] and [later].  The text [str(e)] of an exception
    that a handler of the orchestrator raised inside the agent's [try] block
    is [str_exn e w], with [w] the world the handler was called in. *)

(** ** agents/codegen.py *)

Module Codegen.

(** What the body of the [try] block did before the task row is written again:
    building the prompt, the LLM call, the parsing of the answer and the files
    written to the workspace are outside the world; they either ran through,
    with the paths of the files created, or raised [e], of which only [str(e)]
    is used. *)
Inductive Attempt :=
| Generated (files_created : list string)
| Raised (str_e : string).

(** The [except Exception as e] block.  The result is the world and either the
    exception that leaves the agent or the dictionary it returns. *)
Definition on_exception (max_retries : Z) (task_id project_id str_e : string)
    (later : datetime) (w : World) : World * (Exn + json) :=
  let w := Agent.mark_failed task_id str_e w in
  let w := add_event
             (Event.mk project_id EventType.TASK_FAILED EventLevel.ERROR
                ("Code generation failed: " ++ str_e)
                None (Some "codegen") (Some task_id) later) w in
  match on_task_failure max_retries task_id str_e w with
  | Ok w => (w, inr (JDict [("error", JStr str_e)]))
  | Raise e w => (w, inl e)
  end.

(** [_run_codegen_async] *)
Definition _run_codegen_async (max_retries : Z) (str_exn : Exn → World → string)
    (task_id : string) (attempt : Attempt) (now later : datetime) (w : World)
    : World * (Exn + json) :=
  match tasks w !! task_id with
  | None => (w, inr (JDict [("error", JStr "Task not found")]))
  | Some task =>
      let project_id := Task.project_id task in
      match projects w !! project_id with
      | None => (w, inr (JDict [("error", JStr "Project not found")]))
      | Some _ =>
          let w := Agent.mark_running task_id now w in
          let w := add_event
                     (Event.mk project_id EventType.TASK_STARTED EventLevel.INFO
                        ("Code generation started for " ++ Task.name task)
                        None (Some "codegen") (Some task_id) now) w in
          match attempt with
          | Generated files_created =>
              let output := JDict [("files_created", JList (JStr <$> files_created))] in
              let w := Agent.mark_completed task_id output later w in
              let w := add_event
                         (Event.mk project_id EventType.CODE_GENERATED EventLevel.INFO
                            ("Code generated: "
                               ++ str (Z.of_nat (length files_created)) ++ " files created")
                            (Some (JDict [("files", JList (JStr <$> take 10 files_created))]))
                            (Some "codegen") (Some task_id) later) w in
              match on_task_complete task_id output later w with
              | Ok w =>
                  (w, inr (JDict [("success", JBool true);
                                  ("files_created", JList (JStr <$> files_created))]))
              | Raise e w' =>
                  on_exception max_retries task_id project_id (str_exn e w) later w'
              end
          | Raised str_e =>
              on_exception max_retries task_id project_id str_e later w
          end
      end
  end.

End Codegen.

(** ** agents/tester.py *)

Module Tester.

(** The dictionary [_run_test_commands] returns: it always has these four
    keys, the counts being what the test run reported. *)
Record TestResults := mkTestResults {
  passed : Z;
  failed : Z;
  output : string;
  errors : list string
}.

Definition to_json (r : TestResults) : json :=
  JDict [("passed", JInt (passed r)); ("failed", JInt (failed r));
         ("output", JStr (output r)); ("errors", JList (JStr <$> errors r))].

(** What the body of the [try] block did up to the evaluation of the results:
    the LLM call, the test files written and the test commands run are
    outside the world; they either ran through, with the results, or raised
    [e], of which only [str(e)] is used. *)
Inductive Attempt :=
| Tested (test_results : TestResults)
| Raised (str_e : string).

(** [success = failed == 0 and passed > 0] *)
Definition success (r : TestResults) : bool := (failed r =? 0) && (0 <? passed r).

(** The [except Exception as e] block. *)
Definition on_exception (max_retries : Z) (task_id project_id str_e : string)
    (later : datetime) (w : World) : World * (Exn + json) :=
  let w := Agent.mark_failed task_id str_e w in
  let w := add_event
             (Event.mk project_id EventType.TASK_FAILED EventLevel.ERROR
                ("Testing failed: " ++ str_e)
                None (Some "tester") (Some task_id) later) w in
  match on_task_failure max_retries task_id str_e w with
  | Ok w => (w, inr (JDict [("error", JStr str_e)]))
  | Raise e w => (w, inl e)
  end.

(** [_run_tests_async] *)
Definition _run_tests_async (max_retries : Z) (str_exn : Exn → World → string)
    (task_id : string) (attempt : Attempt) (now later : datetime) (w : World)
    : World * (Exn + json) :=
  match tasks w !! task_id with
  | None => (w, inr (JDict [("error", JStr "Task not found")]))
  | Some task =>
      let project_id := Task.project_id task in
      match projects w !! project_id with
      | None => (w, inr (JDict [("error", JStr "Project not found")]))
      | Some _ =>
          let w := Agent.mark_running task_id now w in
          let w := add_event
                     (Event.mk project_id EventType.TASK_STARTED EventLevel.INFO
                        "Test generation and execution started"
                        None (Some "tester") (Some task_id) now) w in
          match attempt with
          | Tested test_results =>
              if success test_results then
                let w := Agent.mark_completed task_id (to_json test_results) later w in
                let w := add_event
                           (Event.mk project_id EventType.TEST_PASSED EventLevel.INFO
                              ("All tests passed: " ++ str (passed test_results)
                                 ++ " passed, " ++ str (failed test_results) ++ " failed")
                              (Some (to_json test_results))
                              (Some "tester") (Some task_id) later) w in
                match on_task_complete task_id (to_json test_results) later w with
                | Ok w =>
                    (w, inr (JDict [("success", JBool true);
                                    ("test_results", to_json test_results)]))
                | Raise e w' =>
                    on_exception max_retries task_id project_id (str_exn e w) later w'
                end
              else
                let error_msg :=
                  "Tests failed: " ++ str (passed test_results) ++ " passed, "
                    ++ str (failed test_results) ++ " failed" in
                let w := add_event
                           (Event.mk project_id EventType.TEST_FAILED EventLevel.WARNING
                              error_msg (Some (to_json test_results))
                              (Some "tester") (Some task_id) later) w in
                match on_task_failure max_retries task_id error_msg w with
                | Ok w =>
                    (w, inr (JDict [("success", JBool false);
                                    ("test_results", to_json test_results)]))
                | Raise e w' =>
                    on_exception max_retries task_id project_id (str_exn e w) later w'
                end
          | Raised str_e =>
              on_exception max_retries task_id project_id str_e later w
          end
      end
  end.

End Tester.

(** ** Vocabulary of the execution invariants *)

(** The name was drawn from the uuid source before. *)
Definition issued (w : World) (s : string) : Prop :=
  ∃ n, (n < uuid_counter w)%nat ∧ s = uuid_name n.

(** The task a call asks the fixer to repair, if it is a call of the fixer. *)
Definition fix_target (c : CeleryCall) : option string :=
  match c with
  | run_fixer task_id _ => Some task_id
  | _ => None
  end.

(** How many fix runs were requested for the task so far. *)
Definition fixer_requests (w : World) (id : string) : nat :=
  length (filter (fun call : string * CeleryCall => fix_target call.2 = Some id)
                 (broker w)).

(** The columns of a task row that are given when the row is created. *)
Definition same_identity (t t' : Task) : Prop :=
  Task.project_id t' = Task.project_id t
  ∧ Task.name t' = Task.name t
  ∧ Task.description t' = Task.description t
  ∧ Task.type t' = Task.type t
  ∧ Task.input_data t' = Task.input_data t
  ∧ Task.depends_on t' = Task.depends_on t
  ∧ Task.created_at t' = Task.created_at t.

(** A write to the progress columns of a task row (status, output, error
    message, start and completion time) that does not cancel the task. *)
Definition progress_write (f : Task → Task) : Prop :=
  ∀ t, same_identity t (f t)
       ∧ Task.retry_count (f t) = Task.retry_count t
       ∧ Task.celery_task_id (f t) = Task.celery_task_id t
       ∧ (Task.status (f t) = TaskStatus.CANCELLED →
          Task.status t = TaskStatus.CANCELLED).

(** The task types the orchestrator creates rows of. *)
Definition created_type (ty : TaskType) : Prop :=
  ty = TaskType.PLANNING ∨ ty = TaskType.CODEGEN ∨ ty = TaskType.TESTING
  ∨ ty = TaskType.DEPLOYMENT.

(** The call is to the agent that executes tasks of this type. *)
Definition fits (ty : TaskType) (c : CeleryCall) : Prop :=
  match c with
  | run_planner _ _ => ty = TaskType.PLANNING
  | run_codegen _ => ty = TaskType.CODEGEN
  | run_tests _ => ty = TaskType.TESTING
  | run_deployment _ => ty = TaskType.DEPLOYMENT
  | run_web_tests _ => ty = TaskType.WEB_TEST
  | run_fixer _ _ => False
  end.

(** The writes the handlers and agents are made of, one commit each:
    project rows and audit events; a name drawn; a write to the progress
    columns of a task; a new PENDING task row under a fresh name; a call
    handed to the agent of the task's type, with the handle stored on the
    task; a fix requested, with the retry counter raised and the handle
    stored on the task. *)
Inductive atomic (w : World) : World → Prop :=
| at_silent ps es :
    atomic w (mkWorld (tasks w) ps (events w ++ es) (broker w) (uuid_counter w))
| at_uuid4 :
    atomic w (uuid4 w).1
| at_write id f :
    progress_write f → atomic w (update_task id f w)
| at_new t :
    Task.retry_count t = "0" → Task.celery_task_id t = None →
    Task.status t = TaskStatus.PENDING → created_type (Task.type t) →
    atomic w (set_tasks (<[uuid_name (uuid_counter w) := t]> (tasks w)) (uuid4 w).1)
| at_dispatch c t :
    tasks w !! call_task_id c = Some t → fits (Task.type t) c →
    atomic w (update_task (call_task_id c)
                (Task.set_celery_task_id (Some (uuid_name (uuid_counter w))))
                (delay c w).1)
| at_retry id error t n :
    tasks w !! id = Some t → int (Task.retry_count t) = Some n →
    atomic w (update_task id
                (Task.set_celery_task_id (Some (uuid_name (uuid_counter w)))
                 ∘ Task.set_retry_count (str (n + 1)))
                (delay (run_fixer id error) w).1).

(** What holds of the task table and the broker in every world the back end
    reaches: the keys of tasks and the handles of calls are names drawn
    before; every call is for a task that exists; no handle was given out
    twice; the handle stored on a task is that of a call made for this very
    task; and the retry counter of a task reads the number of fix runs
    requested for it. *)
Definition consistent (w : World) : Prop :=
  (∀ id, is_Some (tasks w !! id) → issued w id)
  ∧ (∀ call, call ∈ broker w →
             issued w call.1 ∧ is_Some (tasks w !! call_task_id call.2))
  ∧ NoDup (broker w).*1
  ∧ (∀ id t h, tasks w !! id = Some t → Task.celery_task_id t = Some h →
               ∃ c, (h, c) ∈ broker w ∧ call_task_id c = id)
  ∧ (∀ id t, tasks w !! id = Some t →
             int (Task.retry_count t) = Some (Z.of_nat (fixer_requests w id))).

(** What holds of task types and states in every world the back end reaches:
    no task is CANCELLED; every task is of a type the orchestrator creates;
    and every call on the broker is a fix request or a call to the agent of
    its task's type. *)
Definition well_typed (w : World) : Prop :=
  (∀ id t, tasks w !! id = Some t →
           Task.status t ≠ TaskStatus.CANCELLED ∧ created_type (Task.type t))
  ∧ ∀ call, call ∈ broker w →
            ∃ t, tasks w !! call_task_id call.2 = Some t
                 ∧ (fits (Task.type t) call.2 ∨ is_Some (fix_target call.2)).

(** From [w] to [w'] nothing was taken back: no name is drawn again, the
    audit log and the broker queue only grew, and every task row is still
    there with the columns it was created with. *)
Definition extends (w w' : World) : Prop :=
  (uuid_counter w ≤ uuid_counter w')%nat
  ∧ events w `prefix_of` events w'
  ∧ broker w `prefix_of` broker w'
  ∧ ∀ id t, tasks w !! id = Some t →
            ∃ t', tasks w' !! id = Some t' ∧ same_identity t t'.

(** A short execution from the empty world: a project is submitted, its
    planning completes with [Demo_spec], and the backend task fails once. *)
Definition Demo_submitted : World :=
  (create_project "/app/projects" "build a todo app" "system" "20240101-120000"
     1%nat empty_world).1.

Definition Demo_planned : World :=
  world_of (on_planning_complete "uuid-0" Demo_spec 2%nat Demo_submitted).

Definition Demo_failed_once : World :=
  world_of (on_task_failure 5 "uuid-3" "SyntaxError: invalid syntax" Demo_planned).

(** ** core/llm_router.py *)

Module LLMRouter.

Section Router.

(** The types of a [float], of the keyword arguments handed through to the
    provider ([**kwargs]) and of the exceptions a provider's API raises. *)
Context {float kwargs api_exn : Type}.

(** core/config.py, [LLMProviderConfig] *)
Record LLMProviderConfig := mkLLMProviderConfig {
  enabled : bool;
  api_key_env : option string;
  model : string;
  base_url : option string;
  max_tokens : Z;
  temperature : float
}.

(** core/config.py, [LLMConfig]; [providers] is a dictionary that is iterated
    over, so the order of its entries is kept. *)
Record LLMConfig := mkLLMConfig {
  mode : string;
  providers : list (string * LLMProviderConfig);
  routing : gmap string (list string);
  fallback_enabled : bool;
  max_retries : Z
}.

(** [d.get(k)] on a dictionary kept as the list of its items. *)
Fixpoint dict_get {V : Type} (k : string) (d : list (string * V)) : option V :=
  match d with
  | [] => None
  | (k', v) :: d => if String.eqb k' k then Some v else dict_get k d
  end.

(** The client objects [_initialize_clients] builds. *)
Inductive Client :=
| AsyncOpenAI (api_key : json)
| AsyncAnthropic (api_key : json)
| AsyncClient (base_url : option string).

(** The exceptions that occur: [AttributeError] (an attribute looked up on
    the [{}] default or on [None]), [ValueError] and [Exception] with their
    message, [KeyError] with its key, and what a provider's API raised. *)
Inductive Exc :=
| AttributeError
| ValueError (msg : string)
| KeyError (key : string)
| ApiError (e : api_exn)
| Exception (msg : string).

(** [str.lower]; [getattr(self.settings, name, None)], with [None] for an
    attribute that does not exist; [str(e)] of an exception of a provider's
    API; and the API itself, called through [client] as the [pos]-th provider
    of the routing list. *)
Variable lower : string → string.
Variable settings : string → option json.
Variable str_api_exn : api_exn → string.
Variable api : string → Client → LLMProviderConfig → list (string * string) →
               kwargs → nat → api_exn + string.

Variable config : LLMConfig.

(** [LLMRouter._initialize_clients]; the result is [self._clients]. *)
Definition _initialize_clients : Exc + gmap string Client :=
  let keyed (name : string) (make : json → Client) (clients : gmap string Client)
      : Exc + gmap string Client :=
    match dict_get name (providers config) with
    | None => inl AttributeError
    | Some provider =>
        if enabled provider then
          match api_key_env provider with
          | None => inl AttributeError
          | Some env =>
              match settings (lower env) with
              | Some api_key =>
                  if truthy api_key then inr (<[name := make api_key]> clients)
                  else inr clients
              | None => inr clients
              end
          end
        else inr clients
    end in
  match keyed "openai" AsyncOpenAI ∅ with
  | inl e => inl e
  | inr clients =>
      match keyed "claude" AsyncAnthropic clients with
      | inl e => inl e
      | inr clients =>
          match dict_get "local" (providers config) with
          | None => inl AttributeError
          | Some provider =>
              if enabled provider
              then inr (<["local" := AsyncClient (base_url provider)]> clients)
              else inr clients
          end
      end
  end.

(** The loop "filter to only enabled providers". *)
Fixpoint enabled_providers (ps : list string) : Exc + list string :=
  match ps with
  | [] => inr []
  | p :: ps =>
      match dict_get p (providers config) with
      | None => inl AttributeError
      | Some provider =>
          match enabled_providers ps with
          | inl e => inl e
          | inr rest => inr (if enabled provider then p :: rest else rest)
          end
      end
  end.

(** The loop "fallback to first enabled provider". *)
Fixpoint first_enabled (items : list (string * LLMProviderConfig)) : list string :=
  match items with
  | [] => []
  | (provider_name, provider_config) :: items =>
      if enabled provider_config then [provider_name] else first_enabled items
  end.

(** [LLMRouter._get_providers_for_role] *)
Definition _get_providers_for_role (role : string) : Exc + list string :=
  let ps := default [] (routing config !! role) in
  let ps := match ps with
            | [] => first_enabled (providers config)
            | _ => ps
            end in
  enabled_providers ps.

(** Vocabulary of the properties: the provider is configured and enabled;
    the providers [_get_providers_for_role] starts from (the routing entry,
    or the first enabled provider when the role has none); a provider
    [call_llm] knows how to call. *)
Definition is_enabled (p : string) : bool :=
  match dict_get p (providers config) with
  | Some provider => enabled provider
  | None => false
  end.

Definition candidates (role : string) : list string :=
  let ps := default [] (routing config !! role) in
  match ps with
  | [] => first_enabled (providers config)
  | _ => ps
  end.

Definition known (p : string) : Prop := p = "openai" ∨ p = "claude" ∨ p = "local".

Section Calls.

(** [self._clients] *)
Variable clients : gmap string Client.

(** [_call_openai], [_call_claude], [_call_local]: the client is looked up
    first; the request and the reading of the answer are the API.  The first
    component tells whether the API was contacted. *)
Definition _call (name label : string) (provider_config : LLMProviderConfig)
    (messages : list (string * string)) (kw : kwargs) (pos : nat)
    : bool * (Exc + string) :=
  match clients !! name with
  | None => (false, inl (ValueError (label ++ " client not initialized")))
  | Some client =>
      (true,
       match api name client provider_config messages kw pos with
       | inl e => inl (ApiError e)
       | inr content => inr content
       end)
  end.

Definition _call_openai := _call "openai" "OpenAI".
Definition _call_claude := _call "claude" "Claude".
Definition _call_local := _call "local" "Local LLM".

(** [str(e)] *)
Definition str_exc (e : Exc) : string :=
  match e with
  | AttributeError => "'dict' object has no attribute 'enabled'"
  | ValueError msg => msg
  | KeyError key => "'" ++ key ++ "'"
  | ApiError e => str_api_exn e
  | Exception msg => msg
  end.

(** The messages [call_llm] builds; a message is its role and its content,
    and a value of [context] is the text it is formatted to. *)
Definition build_messages (prompt : string) (context : option (list (string * string)))
    (system_message : option string) : list (string * string) :=
  (match system_message with
   | Some s => if String.eqb s "" then [] else [("system", s)]
   | None => []
   end)
  ++ (match context with
      | Some ((_ :: _) as items) =>
          [("system",
            "Context:" ++ String (Ascii.ascii_of_nat 10) ""
              ++ String.concat (String (Ascii.ascii_of_nat 10) "")
                   ((fun kv : string * string => kv.1 ++ ": " ++ kv.2) <$> items))]
      | _ => []
      end)
  ++ [("user", prompt)].

(** What one turn of the loop of [call_llm] does with the provider at hand
    (the body of its [try] block). *)
Definition attempt (messages : list (string * string)) (kw : kwargs)
    (provider_name : string) (pos : nat) : option (bool * (Exc + string)) :=
  match dict_get provider_name (providers config) with
  | None => Some (false, inl (KeyError provider_name))
  | Some provider_config =>
      if String.eqb provider_name "openai"
      then Some (_call_openai provider_config messages kw pos)
      else if String.eqb provider_name "claude"
      then Some (_call_claude provider_config messages kw pos)
      else if String.eqb provider_name "local"
      then Some (_call_local provider_config messages kw pos)
      else None
  end.

(** The loop "try providers in order with fallback" of [call_llm], from the
    [pos]-th provider on.  The result carries the names of the providers
    whose API was contacted, in order. *)
Fixpoint try_providers (role : string) (messages : list (string * string))
    (kw : kwargs) (ps : list string) (pos : nat) (last_error : option Exc)
    : list string * (Exc + string) :=
  match ps with
  | [] =>
      ([], inl (Exception
                  ("All LLM providers failed for role " ++ role ++ ". Last error: "
                     ++ match last_error with
                        | Some e => str_exc e
                        | None => "None"
                        end)))
  | provider_name :: rest =>
      let continue_with (last_error : option Exc) :=
        try_providers role messages kw rest (S pos) last_error in
      let attempt : option (bool * (Exc + string)) :=
        match dict_get provider_name (providers config) with
        | None => Some (false, inl (KeyError provider_name))
        | Some provider_config =>
            if String.eqb provider_name "openai"
            then Some (_call_openai provider_config messages kw pos)
            else if String.eqb provider_name "claude"
            then Some (_call_claude provider_config messages kw pos)
            else if String.eqb provider_name "local"
            then Some (_call_local provider_config messages kw pos)
            else None
        end in
      match attempt with
      | None => continue_with last_error
      | Some (contacted, outcome) =>
          let called := if contacted then [provider_name] else [] in
          match outcome with
          | inr result => (called, inr result)
          | inl e =>
              if fallback_enabled config
              then let '(trace, r) := continue_with (Some e) in
                   ((called ++ trace)%list, r)
              else (called, inl e)
          end
      end
  end.

(** [LLMRouter.call_llm] *)
Definition call_llm (role prompt : string) (context : option (list (string * string)))
    (system_message : option string) (kw : kwargs)
    : list string * (Exc + string) :=
  match _get_providers_for_role role with
  | inl e => ([], inl e)
  | inr [] => ([], inl (ValueError ("No enabled providers found for role: " ++ role)))
  | inr ps =>
      try_providers role (build_messages prompt context system_message) kw ps 0 None
  end.

End Calls.

End Router.

End LLMRouter.

(** A configuration with the three providers, openai disabled, and a routing
    entry for planning only. *)
Definition Demo_llm_config : LLMRouter.LLMConfig (float := Z) :=
  LLMRouter.mkLLMConfig "hybrid"
    [("openai", LLMRouter.mkLLMProviderConfig false (Some "OPENAI_API_KEY")
                  "gpt-4" None 4096 0);
     ("claude", LLMRouter.mkLLMProviderConfig true (Some "ANTHROPIC_API_KEY")
                  "claude-3-opus" None 4096 0);
     ("local", LLMRouter.mkLLMProviderConfig true None
                 "llama3" (Some "http://localhost:11434/v1") 4096 0)]
    {[ "planning" := ["openai"; "claude"] ]} true 3.

(** ** services/progress_service.py *)

#[global] Instance EventType_eq_dec : EqDecision EventType.
Proof. solve_decision. Defined.

#[global] Instance EventLevel_eq_dec : EqDecision EventLevel.
Proof. solve_decision. Defined.

Module ProgressService.

(** [max(l, key=key)] and [min(l, key=key)] on a list that is not empty,
    given as its first element and the rest: the first of the largest, and
    the first of the smallest. *)
Fixpoint max_by {A : Type} (key : A → nat) (best : A) (l : list A) : A :=
  match l with
  | [] => best
  | x :: l => max_by key (if (key best <? key x)%nat then x else best) l
  end.

Fixpoint min_by {A : Type} (key : A → nat) (best : A) (l : list A) : A :=
  match l with
  | [] => best
  | x :: l => min_by key (if (key x <? key best)%nat then x else best) l
  end.

(** [datetime.min] *)
Definition datetime_min : datetime := 0%nat.

(** An entry of the list [_extract_milestones] returns. *)
Record Milestone := mkMilestone {
  name : string;
  timestamp : option string;
  type : string
}.

Section Reports.

(** [datetime.isoformat] *)
Variable isoformat : datetime → string.

(** [ProgressService._extract_milestones] *)
Definition _extract_milestones (tasks : list Task) (events : list Event)
    : list Milestone :=
  let first_of (ty : EventType) (nm type_ : string) : list Milestone :=
    match filter (fun e => Event.type e = ty) events with
    | [] => []
    | e :: es =>
        let first := min_by Event.timestamp e es in
        [mkMilestone nm (Some (isoformat (Event.timestamp first))) type_]
    end in
  let planning_tasks := filter (fun t => Task.type t = TaskType.PLANNING) tasks in
  (match planning_tasks with
   | [] => []
   | t :: ts =>
       if existsb (fun t => bool_decide (Task.status t = TaskStatus.COMPLETED))
                  planning_tasks
       then
         let milestone :=
           max_by (fun t => default datetime_min (Task.completed_at t)) t ts in
         [mkMilestone "Planning Completed"
            (isoformat <$> Task.completed_at milestone) "planning"]
       else []
   end)
  ++ first_of EventType.CODE_GENERATED "First Code Generated" "codegen"
  ++ first_of EventType.TEST_PASSED "Tests Passing" "testing"
  ++ first_of EventType.DEPLOYMENT_COMPLETED "Deployment Completed" "deployment".

End Reports.

(** [ORDER BY Event.timestamp DESC]: the rows sorted by falling timestamp;
    the order among rows of equal timestamp is the database's choice, here
    the row inserted later first. *)
Fixpoint insert_desc (e : Event) (rows : list Event) : list Event :=
  match rows with
  | [] => [e]
  | x :: rows' =>
      if (Event.timestamp x <? Event.timestamp e)%nat
      then e :: rows
      else x :: insert_desc e rows'
  end.

Definition order_by_timestamp_desc (rows : list Event) : list Event :=
  foldr insert_desc [] rows.

(** [ProgressService.get_project_events]; an enumeration member is never
    false, so a filter is applied whenever its argument is given. *)
Definition get_project_events (project_id : string) (limit offset : nat)
    (level : option EventLevel) (event_type : option EventType) (w : World)
    : list Event :=
  let query := filter (fun e => Event.project_id e = project_id) (events w) in
  let query := match level with
               | Some l => filter (fun e => Event.level e = l) query
               | None => query
               end in
  let query := match event_type with
               | Some ty => filter (fun e => Event.type e = ty) query
               | None => query
               end in
  take limit (drop offset (order_by_timestamp_desc query)).

(** [ProgressService.get_task_events] *)
Definition get_task_events (task_id : string) (limit : nat) (w : World) : list Event :=
  let query := filter (fun e => Event.task_id e = Some task_id) (events w) in
  take limit (order_by_timestamp_desc query).

(** Vocabulary of the properties: the timestamps of the list never rise;
    the events [get_project_events] selects from; and the event types that
    stand for a milestone, with the milestone's type. *)
Fixpoint falling (rows : list Event) : Prop :=
  match rows with
  | [] => True
  | e :: rows' =>
      Forall (fun e' => (Event.timestamp e' ≤ Event.timestamp e)%nat) rows'
      ∧ falling rows'
  end.

Definition selected (project_id : string) (level : option EventLevel)
    (event_type : option EventType) (e : Event) : Prop :=
  Event.project_id e = project_id
  ∧ (∀ l, level = Some l → Event.level e = l)
  ∧ (∀ ty, event_type = Some ty → Event.type e = ty).

Definition milestone_events : list (EventType * string) :=
  [(EventType.CODE_GENERATED, "codegen"); (EventType.TEST_PASSED, "testing");
   (EventType.DEPLOYMENT_COMPLETED, "deployment")].

End ProgressService.

(** ** services/project_service.py, statistics *)

Module ProjectStats.

Section Stats.

(** The type of a [float], and [c / n * 100] on the lengths of two lists. *)
Context {float : Type}.
Variable percentage : nat → nat → float.

(** The dictionary [get_project_stats] returns; the percentage is the integer
    [0] for a project without tasks and a float otherwise. *)
Record Stats := mkStats {
  total_tasks : nat;
  pending_tasks : nat;
  running_tasks : nat;
  completed_tasks : nat;
  failed_tasks : nat;
  progress_percentage : Z + float
}.

(** [ProjectService.get_project_stats] *)
Definition get_project_stats (project_id : string) (w : World) : option Stats :=
  match ProjectService.get_project project_id w with
  | None => None
  | Some _ =>
      let tasks := (filter (fun row : string * Task => Task.project_id row.2 = project_id)
                           (map_to_list (tasks w))).*2 in
      let count (st : TaskStatus) := length (filter (fun t => Task.status t = st) tasks) in
      Some (mkStats (length tasks)
              (count TaskStatus.PENDING) (count TaskStatus.RUNNING)
              (count TaskStatus.COMPLETED) (count TaskStatus.FAILED)
              (match tasks with
               | [] => inl 0
               | _ => inr (percentage (count TaskStatus.COMPLETED) (length tasks))
               end))
  end.

End Stats.

End ProjectStats.

(** ** agents/deployer.py *)

Module Deployer.

(** [subprocess.CompletedProcess], as far as it is read. *)
Record CompletedProcess := mkCompletedProcess {
  returncode : Z;
  stdout : string;
  stderr : string
}.

Section Deploy.

(** The world outside: [subprocess.run(cmd, cwd=workspace, …)], which gives
    the finished process or raises (a timeout, a missing executable) an
    exception of which only [str(e)] is used; [(workspace / name).exists()],
    asked a first time by the agent and a second time by [_deploy_nodejs];
    [workspace.name]; and [str.strip]. *)
Variable run : list string → string + CompletedProcess.
Variable exists_ : nat → string → bool.
Variable workspace_name : string.
Variable strip : string → string.

Definition failure (error : string) : json :=
  JDict [("success", JBool false); ("error", JStr error)].

(** [_deploy_docker_compose] *)
Definition _deploy_docker_compose : json :=
  match run ["docker-compose"; "build"] with
  | inl e => failure e
  | inr result =>
      if negb (returncode result =? 0) then failure (stderr result)
      else
        match run ["docker-compose"; "up"; "-d"] with
        | inl e => failure e
        | inr result =>
            JDict [("success", JBool (returncode result =? 0));
                   ("output", JStr (stdout result));
                   ("error", if negb (returncode result =? 0)
                             then JStr (stderr result) else JNull)]
        end
  end.

(** [_deploy_docker] *)
Definition _deploy_docker : json :=
  match run ["docker"; "build"; "-t"; "app-" ++ workspace_name; "."] with
  | inl e => failure e
  | inr result =>
      if negb (returncode result =? 0) then failure (stderr result)
      else
        match run ["docker"; "run"; "-d"; "-p"; "8080:8080";
                   "app-" ++ workspace_name] with
        | inl e => failure e
        | inr result =>
            JDict [("success", JBool (returncode result =? 0));
                   ("container_id", JStr (strip (stdout result)));
                   ("error", if negb (returncode result =? 0)
                             then JStr (stderr result) else JNull)]
        end
  end.

(** [_deploy_python] *)
Definition _deploy_python : json :=
  match run ["pip"; "install"; "-r"; "requirements.txt"] with
  | inl e => failure e
  | inr _ =>
      JDict [("success", JBool true);
             ("message", JStr "Python app dependencies installed")]
  end.

(** [_deploy_nodejs] *)
Definition _deploy_nodejs : json :=
  match run ["npm"; "install"] with
  | inl e => failure e
  | inr _ =>
      let built :=
        if exists_ 1 "package.json" then
          match run ["npm"; "run"; "build"] with
          | inl e => Some e
          | inr _ => None
          end
        else None in
      match built with
      | Some e => failure e
      | None =>
          JDict [("success", JBool true);
                 ("message", JStr "Node.js app built and ready")]
      end
  end.

(** The dictionary [deployment_info] the agent fills in. *)
Definition deployment_info : json :=
  if exists_ 0 "docker-compose.yml" then
    JDict [("type", JStr "docker-compose"); ("result", _deploy_docker_compose)]
  else if exists_ 0 "Dockerfile" then
    JDict [("type", JStr "docker"); ("result", _deploy_docker)]
  else if exists_ 0 "requirements.txt" then
    JDict [("type", JStr "python"); ("result", _deploy_python)]
  else if exists_ 0 "package.json" then
    JDict [("type", JStr "nodejs"); ("result", _deploy_nodejs)]
  else
    JDict [("type", JStr "none");
           ("message", JStr "No deployment configuration found")].

(** The [except Exception as e] block. *)
Definition on_exception (max_retries : Z) (task_id project_id str_e : string)
    (later : datetime) (w : World) : World * (Exn + json) :=
  let w := Agent.mark_failed task_id str_e w in
  let w := add_event
             (Event.mk project_id EventType.TASK_FAILED EventLevel.ERROR
                ("Deployment failed: " ++ str_e)
                None (Some "deployer") (Some task_id) later) w in
  match on_task_failure max_retries task_id str_e w with
  | Ok w => (w, inr (JDict [("error", JStr str_e)]))
  | Raise e w => (w, inl e)
  end.

(** [_run_deployment_async]; [str_path_error] is the text of the [TypeError]
    that [Path(None)] raises for a project without workspace path. *)
Definition _run_deployment_async (max_retries : Z) (str_exn : Exn → World → string)
    (str_path_error : string) (task_id : string) (now later : datetime) (w : World)
    : World * (Exn + json) :=
  match tasks w !! task_id with
  | None => (w, inr (JDict [("error", JStr "Task not found")]))
  | Some task =>
      let project_id := Task.project_id task in
      match projects w !! project_id with
      | None => (w, inr (JDict [("error", JStr "Project not found")]))
      | Some project =>
          let w := Agent.mark_running task_id now w in
          let w := add_event
                     (Event.mk project_id EventType.DEPLOYMENT_STARTED EventLevel.INFO
                        "Deployment started"
                        None (Some "deployer") (Some task_id) now) w in
          match Project.workspace_path project with
          | None => on_exception max_retries task_id project_id str_path_error later w
          | Some _ =>
              let w := Agent.mark_completed task_id deployment_info later w in
              let w := add_event
                         (Event.mk project_id EventType.DEPLOYMENT_COMPLETED
                            EventLevel.INFO "Deployment completed successfully"
                            (Some deployment_info)
                            (Some "deployer") (Some task_id) later) w in
              match on_task_complete task_id deployment_info later w with
              | Ok w =>
                  (w, inr (JDict [("success", JBool true);
                                  ("deployment_info", deployment_info)]))
              | Raise e w' =>
                  on_exception max_retries task_id project_id (str_exn e w) later w'
              end
          end
      end
  end.

(** The entry ["success"] of the dictionary a deployment helper returns. *)
Definition success_of (result : json) : option json :=
  match result with
  | JDict (("success", v) :: _) => Some v
  | _ => None
  end.

End Deploy.

End Deployer.

(** ** agents/web_agent_client.py *)

Module WebAgent.

(** What the request to the web-agent service came to, before the task row
    is written again: an answer with its status code and, for status 200,
    the document [response.json()] gave; [httpx.ConnectError]; or any other
    exception [e] (from reading the task's input, the request or the
    decoding of the answer), of which only [str(e)] is used. *)
Inductive Attempt :=
| Answered (status_code : Z) (test_results : json)
| Unreachable
| Raised (str_e : string).

(** [d.get(k, 0)] on a JSON object. *)
Fixpoint get_or_zero (k : string) (d : list (string * json)) : json :=
  match d with
  | [] => JInt 0
  | (k', v) :: d => if String.eqb k' k then v else get_or_zero k d
  end.

Section Client.

(** The text a value is formatted to inside an f-string, and the text of the
    [AttributeError] raised by [.get] on a document that is not an object. *)
Variable format : json → string.
Variable str_no_get : json → string.

(** The [except Exception as e] block. *)
Definition on_exception (max_retries : Z) (task_id project_id str_e : string)
    (later : datetime) (w : World) : World * (Exn + json) :=
  let w := Agent.mark_failed task_id str_e w in
  let w := add_event
             (Event.mk project_id EventType.TASK_FAILED EventLevel.ERROR
                ("Web testing failed: " ++ str_e)
                None (Some "web_agent") (Some task_id) later) w in
  match on_task_failure max_retries task_id str_e w with
  | Ok w => (w, inr (JDict [("error", JStr str_e)]))
  | Raise e w => (w, inl e)
  end.

(** [_run_web_tests_async] *)
Definition _run_web_tests_async (max_retries : Z) (str_exn : Exn → World → string)
    (task_id : string) (attempt : Attempt) (now later : datetime) (w : World)
    : World * (Exn + json) :=
  match tasks w !! task_id with
  | None => (w, inr (JDict [("error", JStr "Task not found")]))
  | Some task =>
      let project_id := Task.project_id task in
      match projects w !! project_id with
      | None => (w, inr (JDict [("error", JStr "Project not found")]))
      | Some _ =>
          let w := Agent.mark_running task_id now w in
          let w := add_event
                     (Event.mk project_id EventType.TASK_STARTED EventLevel.INFO
                        "Web UI testing started"
                        None (Some "web_agent") (Some task_id) now) w in
          match attempt with
          | Answered status_code test_results =>
              if status_code =? 200 then
                let w := Agent.mark_completed task_id test_results later w in
                match test_results with
                | JDict items =>
                    let w := add_event
                               (Event.mk project_id EventType.TASK_COMPLETED
                                  EventLevel.INFO
                                  ("Web tests completed: "
                                     ++ format (get_or_zero "passed" items)
                                     ++ " passed, "
                                     ++ format (get_or_zero "failed" items)
                                     ++ " failed")
                                  (Some test_results)
                                  (Some "web_agent") (Some task_id) later) w in
                    match on_task_complete task_id test_results later w with
                    | Ok w =>
                        (w, inr (JDict [("success", JBool true);
                                        ("test_results", test_results)]))
                    | Raise e w' =>
                        on_exception max_retries task_id project_id (str_exn e w)
                          later w'
                    end
                | _ =>
                    on_exception max_retries task_id project_id
                      (str_no_get test_results) later w
                end
              else
                on_exception max_retries task_id project_id
                  ("Web agent returned status " ++ str status_code) later w
          | Unreachable =>
              let w := Agent.mark_completed task_id
                         (JDict [("skipped", JBool true);
                                 ("reason", JStr "Web agent service not available")])
                         later w in
              let w := add_event
                         (Event.mk project_id EventType.LOG EventLevel.WARNING
                            "Web tests skipped: web agent service not available"
                            None (Some "web_agent") (Some task_id) later) w in
              match on_task_complete task_id (JDict [("skipped", JBool true)]) later w with
              | Ok w =>
                  (w, inr (JDict [("success", JBool true); ("skipped", JBool true)]))
              | Raise e w' =>
                  on_exception max_retries task_id project_id (str_exn e w) later w'
              end
          | Raised str_e =>
              on_exception max_retries task_id project_id str_e later w
          end
      end
  end.

(** Vocabulary of the properties: the attempts after which the agent reports
    the task as completed; those with an answer of status 200; the output the
    task is left with after an answer or a skip; and the error text the agent
    reports otherwise. *)
Definition completes (attempt : Attempt) : bool :=
  match attempt with
  | Answered status_code (JDict _) => status_code =? 200
  | Unreachable => true
  | _ => false
  end.

Definition answered_200 (attempt : Attempt) : bool :=
  match attempt with
  | Answered status_code _ => status_code =? 200
  | _ => false
  end.

Definition final_output (attempt : Attempt) : json :=
  match attempt with
  | Answered _ test_results => test_results
  | _ => JDict [("skipped", JBool true)]
  end.

Definition failure_text (attempt : Attempt) : string :=
  match attempt with
  | Answered status_code test_results =>
      if status_code =? 200 then str_no_get test_results
      else "Web agent returned status " ++ str status_code
  | Raised str_e => str_e
  | Unreachable => ""
  end.

End Client.

End WebAgent.

(** * Properties *)

(** ** Updating a row that exists *)

Lemma alter_Some {A} (f : A → A) (m : gmap string A) (i : string) (x : A) :
  m !! i = Some x → alter f i m = <[i := f x]> m.
Proof.
  intros Hx. apply map_eq. intros j. destruct (decide (i = j)) as [<-|Hne].
  - by rewrite lookup_alter_eq, lookup_insert_eq, Hx.
  - by rewrite lookup_alter_ne, lookup_insert_ne.
Qed.

(** ** Integers stored as text *)

Lemma int_str (z : Z) : int (str z) = Some z.
Proof.
  unfold int, str.
  destruct (Z.eq_dec z 0) as [->|Hz]; [reflexivity|].
  rewrite NilZero.isi.
  - simpl. f_equal. apply DecimalZ.of_to.
  - intros H. apply Hz. rewrite <- (DecimalZ.of_to z), H. reflexivity.
  - intros H. apply Hz. rewrite <- (DecimalZ.of_to z), H. reflexivity.
Qed.

(** ** The claim step *)

Lemma _schedule_task_unfold (row : string * Task) (w : World) :
  _schedule_task row w =
  match agent_for (Task.type row.2) with
  | Some agent =>
      let h := uuid_name (uuid_counter w) in
      mkWorld (alter (claim (Some h)) row.1 (tasks w)) (projects w) (events w)
              (broker w ++ [(h, agent row.1)]) (S (uuid_counter w))
  | None =>
      mkWorld (alter (claim None) row.1 (tasks w)) (projects w) (events w)
              (broker w) (uuid_counter w)
  end.
Proof.
  destruct row as [id t]. unfold _schedule_task, update_task, set_tasks, delay, uuid4.
  cbn [fst snd]. destruct (Task.type t); simpl; try reflexivity;
    rewrite alter_alter_eq; reflexivity.
Qed.

Lemma _schedule_task_projects row w : projects (_schedule_task row w) = projects w.
Proof. rewrite _schedule_task_unfold. by destruct (agent_for _). Qed.

Lemma _schedule_task_events row w : events (_schedule_task row w) = events w.
Proof. rewrite _schedule_task_unfold. by destruct (agent_for _). Qed.

Lemma _schedule_task_other row w j :
  j ≠ row.1 → tasks (_schedule_task row w) !! j = tasks w !! j.
Proof.
  intros Hj. rewrite _schedule_task_unfold.
  destruct (agent_for _); simpl; by rewrite lookup_alter_ne.
Qed.

Lemma _schedule_task_self row w :
  ∃ h, tasks (_schedule_task row w) !! row.1 = claim h <$> tasks w !! row.1
       ∧ match agent_for (Task.type row.2) with
         | Some agent => ∃ h', h = Some h' ∧ broker (_schedule_task row w)
                                              = (broker w ++ [(h', agent row.1)])%list
         | None => h = None ∧ broker (_schedule_task row w) = broker w
         end.
Proof.
  rewrite _schedule_task_unfold.
  destruct (agent_for _) as [agent|]; simpl.
  - eexists. split; [apply lookup_alter_eq|]. eauto.
  - exists None. split; [apply lookup_alter_eq|]. eauto.
Qed.

Lemma claim_status h t : Task.status (claim h t) = TaskStatus.QUEUED.
Proof. by destruct h. Qed.

(** ** Readiness and the dispatch loop *)

Lemma _task_is_ready_ext w w' t :
  (∀ d, completed w d = completed w' d) → _task_is_ready w t = _task_is_ready w' t.
Proof.
  intros Hc. unfold _task_is_ready.
  destruct (Task.depends_on t) as [[|d deps]|]; try reflexivity.
  generalize (d :: deps). intros l.
  induction l as [|x l IH]; [reflexivity|]. cbn [forallb].
  rewrite IH. f_equal. apply (Hc x).
Qed.

Lemma _task_is_ready_spec w t : _task_is_ready w t = true ↔ deps_completed w t.
Proof.
  unfold _task_is_ready, deps_completed, deps_of.
  destruct (Task.depends_on t) as [[|d0 deps]|]; cbn [default].
  - split; [|done]. intros _ d Hd. by apply elem_of_nil in Hd.
  - generalize (d0 :: deps). intros l. rewrite forallb_forall. split.
    + intros H d Hd. apply list_elem_of_In, H in Hd.
      destruct (tasks w !! d) as [dep|]; [|done].
      apply bool_decide_eq_true in Hd. eauto.
    + intros H d Hd. apply list_elem_of_In, H in Hd as (dep & -> & Hs).
      by apply bool_decide_eq_true.
  - split; [|done]. intros _ d Hd. by apply elem_of_nil in Hd.
Qed.

Lemma _schedule_task_completed row w t0 d :
  tasks w !! row.1 = Some t0 → Task.status t0 ≠ TaskStatus.COMPLETED →
  completed (_schedule_task row w) d = completed w d.
Proof.
  intros Hrow Hst. unfold completed.
  destruct (decide (d = row.1)) as [->|Hd].
  - destruct (_schedule_task_self row w) as (h & -> & _). rewrite Hrow. simpl.
    rewrite claim_status. rewrite !bool_decide_eq_false_2; done.
  - by rewrite _schedule_task_other.
Qed.

Lemma dispatch_pending_cons row rows w :
  dispatch_pending (row :: rows) w
  = dispatch_pending rows (if _task_is_ready w row.2 then _schedule_task row w else w).
Proof. reflexivity. Qed.

Lemma dispatch_pending_spec rows : ∀ w,
  NoDup rows.*1 →
  (∀ row, row ∈ rows →
          tasks w !! row.1 = Some row.2 ∧ Task.status row.2 = TaskStatus.PENDING) →
  let w' := dispatch_pending rows w in
  projects w' = projects w ∧ events w' = events w
  ∧ (∀ j, j ∉ rows.*1 → tasks w' !! j = tasks w !! j)
  ∧ ∃ new, broker w' = (broker w ++ new)%list
     ∧ call_task_id <$> new.*2
       = (filter (λ row, _task_is_ready w row.2 = true
                         ∧ is_Some (agent_for (Task.type row.2))) rows).*1
     ∧ ∀ row, row ∈ rows →
         if _task_is_ready w row.2
         then ∃ h, tasks w' !! row.1 = Some (claim h row.2)
                   ∧ match agent_for (Task.type row.2) with
                     | Some agent => ∃ h', h = Some h' ∧ (h', agent row.1) ∈ new
                     | None => h = None
                     end
         else tasks w' !! row.1 = Some row.2.
Proof.
  induction rows as [|row rows IH]; intros w Hnd Hrows; cbn zeta.
  - cbn. repeat split; try done. exists []. rewrite app_nil_r.
    repeat split; try done. intros row Hrow. by apply elem_of_nil in Hrow.
  - rewrite fmap_cons in Hnd. apply NoDup_cons in Hnd as [Hfresh Hnd].
    destruct (Hrows row) as [Hlook Hpend]; [left|].
    rewrite dispatch_pending_cons.
    set (w1 := if _task_is_ready w row.2 then _schedule_task row w else w).
    assert (Hc : ∀ d, completed w1 d = completed w d).
    { intros d. subst w1. destruct (_task_is_ready w row.2); [|done].
      eapply _schedule_task_completed; [done|]. by rewrite Hpend. }
    assert (Hready : ∀ t, _task_is_ready w1 t = _task_is_ready w t).
    { intros t. by apply _task_is_ready_ext. }
    assert (Hother : ∀ j, j ≠ row.1 → tasks w1 !! j = tasks w !! j).
    { intros j Hj. subst w1. destruct (_task_is_ready w row.2); [|done].
      by apply _schedule_task_other. }
    assert (Hrows1 : ∀ r, r ∈ rows →
              tasks w1 !! r.1 = Some r.2 ∧ Task.status r.2 = TaskStatus.PENDING).
    { intros r Hr. destruct (Hrows r) as [Hl Hp]; [by right|]. split; [|done].
      rewrite Hother; [done|]. intros Heq. apply Hfresh. rewrite <- Heq.
      apply list_elem_of_fmap. eauto. }
    destruct (IH w1 Hnd Hrows1) as (Hproj & Hev & Hframe & new & Hbroker & Hids & Hclaimed).
    assert (Hself : tasks (dispatch_pending rows w1) !! row.1 = tasks w1 !! row.1)
      by (by apply Hframe).
    split; [|split; [|split]].
    + rewrite Hproj. subst w1. destruct (_task_is_ready w row.2); [|done].
      apply _schedule_task_projects.
    + rewrite Hev. subst w1. destruct (_task_is_ready w row.2); [|done].
      apply _schedule_task_events.
    + intros j Hj. rewrite fmap_cons in Hj. apply not_elem_of_cons in Hj as [Hj1 Hj2].
      rewrite Hframe; [|done]. by apply Hother.
    + rewrite filter_cons.
      assert (Hfilter :
        filter (λ r, _task_is_ready w1 r.2 = true ∧ is_Some (agent_for (Task.type r.2))) rows
        = filter (λ r, _task_is_ready w r.2 = true ∧ is_Some (agent_for (Task.type r.2))) rows).
      { apply list_filter_iff. intros r. by rewrite Hready. }
      rewrite Hfilter in Hids.
      destruct (_task_is_ready w row.2) eqn:Hr.
      * destruct (_schedule_task_self row w) as (h & Hh & Hag).
        destruct (agent_for (Task.type row.2)) as [agent|] eqn:Hagent.
        -- destruct Hag as (h' & -> & Hb).
           exists ((h', agent row.1) :: new). split; [|split].
           ++ rewrite Hbroker. subst w1. rewrite ?Hr. rewrite Hb.
              by rewrite <- app_assoc.
           ++ rewrite decide_True by (split; [done|eauto]).
              rewrite !fmap_cons, Hids. f_equal.
              unfold agent_for in Hagent. destruct (Task.type row.2); by simplify_eq.
           ++ intros r [->|Hrin]%elem_of_cons.
              ** rewrite Hr. exists (Some h'). rewrite Hself. subst w1. rewrite ?Hr, Hh, Hlook.
                 split; [done|]. rewrite Hagent. exists h'. split; [done|]. left.
              ** specialize (Hclaimed r Hrin). rewrite Hready in Hclaimed.
                 destruct (_task_is_ready w r.2); [|done].
                 destruct Hclaimed as (h & Hl & Ha). exists h. split; [done|].
                 destruct (agent_for (Task.type r.2)); [|done].
                 destruct Ha as (h'' & -> & Hin). exists h''. split; [done|]. by right.
        -- destruct Hag as [-> Hb].
           exists new. split; [|split].
           ++ rewrite Hbroker. subst w1. rewrite ?Hr. by rewrite Hb.
           ++ rewrite decide_False; [done|]. intros [_ [? ?]]. done.
           ++ intros r [->|Hrin]%elem_of_cons.
              ** rewrite Hr. exists None. rewrite Hself. subst w1. rewrite ?Hr, Hh, Hlook.
                 split; [done|]. by rewrite Hagent.
              ** specialize (Hclaimed r Hrin). by rewrite Hready in Hclaimed.
      * exists new. split; [|split].
        -- rewrite Hbroker. subst w1. by rewrite ?Hr.
        -- rewrite decide_False; [done|]. intros [? _]. done.
        -- intros r [->|Hrin]%elem_of_cons.
           ++ rewrite Hr, Hself. subst w1. by rewrite ?Hr.
           ++ specialize (Hclaimed r Hrin). by rewrite Hready in Hclaimed.
Qed.

Lemma select_pending_elem project_id w row :
  row ∈ select_pending project_id w ↔
  tasks w !! row.1 = Some row.2 ∧ Task.project_id row.2 = project_id
  ∧ Task.status row.2 = TaskStatus.PENDING.
Proof.
  unfold select_pending. rewrite list_elem_of_filter.
  destruct row as [id t]. rewrite elem_of_map_to_list. cbn [fst snd]. tauto.
Qed.

Lemma select_pending_NoDup project_id w : NoDup (select_pending project_id w).*1.
Proof.
  apply (sublist_NoDup _ (map_to_list (tasks w)).*1).
  - apply NoDup_fst_map_to_list.
  - apply fmap_sublist, sublist_filter.
Qed.

Lemma select_pending_fst project_id w id :
  id ∈ (select_pending project_id w).*1 ↔
  ∃ t, tasks w !! id = Some t ∧ Task.project_id t = project_id
       ∧ Task.status t = TaskStatus.PENDING.
Proof.
  rewrite list_elem_of_fmap. split.
  - intros ([id' t] & -> & H). apply select_pending_elem in H. by exists t.
  - intros (t & H). exists (id, t). split; [done|]. by apply select_pending_elem.
Qed.

(** What one run of the resolver/dispatch loop does to the world. *)
Lemma schedule_next_tasks_spec project_id w :
  let w' := schedule_next_tasks project_id w in
  projects w' = projects w ∧ events w' = events w
  ∧ broker w' = (broker w ++ enqueued w w')%list
  ∧ call_task_id <$> (enqueued w w').*2
    = (filter (λ row, _task_is_ready w row.2 = true
                      ∧ is_Some (agent_for (Task.type row.2)))
              (select_pending project_id w)).*1
  ∧ ∀ id, match tasks w !! id with
          | None => tasks w' !! id = None
          | Some t =>
              if bool_decide (Task.project_id t = project_id
                              ∧ Task.status t = TaskStatus.PENDING)
                 && _task_is_ready w t
              then ∃ h, tasks w' !! id = Some (claim h t)
                        ∧ match agent_for (Task.type t) with
                          | Some agent =>
                              ∃ h', h = Some h' ∧ (h', agent id) ∈ enqueued w w'
                          | None => h = None
                          end
              else tasks w' !! id = Some t
          end.
Proof.
  cbn zeta. unfold schedule_next_tasks.
  destruct (dispatch_pending_spec (select_pending project_id w) w)
    as (Hproj & Hev & Hframe & new & Hbroker & Hids & Hrows).
  { apply select_pending_NoDup. }
  { intros row (? & ? & ?)%select_pending_elem. done. }
  assert (Hnew : enqueued w (dispatch_pending (select_pending project_id w) w) = new).
  { unfold enqueued. rewrite Hbroker. by rewrite drop_app_length. }
  rewrite Hnew. repeat split; try done.
  intros id. destruct (tasks w !! id) as [t|] eqn:Hlook.
  - destruct (bool_decide _) eqn:Hsel; cbn [andb].
    + apply bool_decide_eq_true in Hsel.
      assert (Hin : (id, t) ∈ select_pending project_id w)
        by (apply select_pending_elem; destruct Hsel; done).
      specialize (Hrows _ Hin). cbn [fst snd] in Hrows.
      by destruct (_task_is_ready w t).
    + apply bool_decide_eq_false in Hsel.
      rewrite Hframe; [done|]. intros (t' & Ht' & ?)%select_pending_fst.
      simplify_eq. by apply Hsel.
  - rewrite Hframe; [done|]. intros (t' & Ht' & ?)%select_pending_fst. simplify_eq.
Qed.

Lemma ready_iff_code w t :
  ready w t ↔ Task.status t = TaskStatus.PENDING ∧ _task_is_ready w t = true.
Proof. unfold ready. by rewrite _task_is_ready_spec. Qed.

Lemma ready_decidable w t : ready w t ∨ ¬ ready w t.
Proof.
  destruct (decide (Task.status t = TaskStatus.PENDING ∧ _task_is_ready w t = true)) as [H|H];
    [left|right]; by rewrite ready_iff_code.
Qed.

(** The outcome of one run for a single row, by cases on the selection. *)
Lemma schedule_next_tasks_row project_id w id t :
  tasks w !! id = Some t →
  let w' := schedule_next_tasks project_id w in
  (Task.project_id t = project_id ∧ ready w t →
     ∃ h, tasks w' !! id = Some (claim h t)
          ∧ match agent_for (Task.type t) with
            | Some agent => ∃ h', h = Some h' ∧ (h', agent id) ∈ enqueued w w'
            | None => h = None
            end)
  ∧ (¬ (Task.project_id t = project_id ∧ ready w t) → tasks w' !! id = Some t).
Proof.
  intros Hlook. cbn zeta.
  destruct (schedule_next_tasks_spec project_id w) as (_ & _ & _ & _ & Hrows).
  specialize (Hrows id). rewrite Hlook in Hrows. split.
  - intros [Hp [Hs Hr]]. apply _task_is_ready_spec in Hr.
    rewrite bool_decide_eq_true_2, Hr in Hrows; done.
  - intros Hn. destruct (bool_decide _) eqn:Hsel; cbn [andb] in Hrows; [|done].
    destruct (_task_is_ready w t) eqn:Hr; [|done].
    exfalso. apply Hn. apply bool_decide_eq_true in Hsel as [? ?].
    split; [done|]. apply ready_iff_code. done.
Qed.

Lemma claimed_iff project_id w id t :
  tasks w !! id = Some t →
  claimed w (schedule_next_tasks project_id w) id
  ↔ Task.project_id t = project_id ∧ ready w t.
Proof.
  intros Hlook.
  destruct (schedule_next_tasks_row project_id w id t Hlook) as [Hyes Hno].
  unfold claimed, status_of. rewrite Hlook. cbn. split.
  - intros [Hbefore Hafter].
    destruct (decide (Task.project_id t = project_id)) as [Hp|Hp];
      [destruct (ready_decidable w t) as [Hr|Hr]; [done|]|].
    + rewrite Hno in Hafter; [done|]. by intros [_ ?].
    + rewrite Hno in Hafter; [done|]. by intros [? _].
  - intros Hsel. destruct (Hyes Hsel) as (h & -> & _). cbn. rewrite claim_status.
    split; [|done]. destruct Hsel as [_ [Hs _]]. rewrite Hs. done.
Qed.

Lemma invoked_iff project_id w id t :
  tasks w !! id = Some t →
  invoked w (schedule_next_tasks project_id w) id
  ↔ Task.project_id t = project_id ∧ ready w t ∧ is_Some (agent_for (Task.type t)).
Proof.
  intros Hlook.
  destruct (schedule_next_tasks_spec project_id w) as (_ & _ & _ & Hids & _).
  assert (invoked w (schedule_next_tasks project_id w) id
          ↔ id ∈ call_task_id <$> (enqueued w (schedule_next_tasks project_id w)).*2) as ->.
  { unfold invoked. rewrite <- list_fmap_compose, list_elem_of_fmap.
    split; intros (call & H1 & H2); exists call; by split. }
  rewrite Hids, list_elem_of_fmap. split.
  - intros ([id' t'] & -> & [[Hr Ha] Hin]%list_elem_of_filter).
    apply select_pending_elem in Hin.
    cbn [fst snd] in *. destruct Hin as (Hl & Hp & Hs). simplify_eq.
    split; [done|]. split; [|done]. by apply ready_iff_code.
  - intros (Hp & Hrd & Ha). apply ready_iff_code in Hrd as [Hs Hr].
    exists (id, t). split; [done|].
    apply list_elem_of_filter. split; [done|]. by apply select_pending_elem.
Qed.

Lemma enqueued_NoDup project_id w :
  NoDup (call_task_id <$> (enqueued w (schedule_next_tasks project_id w)).*2).
Proof.
  destruct (schedule_next_tasks_spec project_id w) as (_ & _ & _ & -> & _).
  apply (sublist_NoDup _ (select_pending project_id w).*1).
  - apply select_pending_NoDup.
  - apply fmap_sublist, sublist_filter.
Qed.

(** ** The resolver/dispatch loop: claims about dispatch *)

(** C6. Run for the project of a stored task [t], [schedule_next_tasks]
    dispatches [t] (claims it: moves it into QUEUED) if and only if [t] is
    ready, that is [t] is PENDING and every id in [depends_on] names a stored
    task that is COMPLETED; this is what [_task_is_ready] computes.  A ready
    task of a type that has an execution agent gets that agent invoked with
    its id and the handle recorded; a task that is not ready is left exactly
    as it was; a PENDING task with no dependency is ready in every world. *)
Theorem C6_dispatched_iff_ready (w : World) (id : string) (t : Task) :
  tasks w !! id = Some t →
  let w' := schedule_next_tasks (Task.project_id t) w in
  (_task_is_ready w t = true ↔ deps_completed w t)
  ∧ (claimed w w' id ↔ ready w t)
  ∧ (invoked w w' id ↔ ready w t ∧ is_Some (agent_for (Task.type t)))
  ∧ (ready w t → ∀ agent, agent_for (Task.type t) = Some agent →
       ∃ h t', (h, agent id) ∈ enqueued w w' ∧ tasks w' !! id = Some t'
               ∧ Task.celery_task_id t' = Some h)
  ∧ (¬ ready w t → tasks w' !! id = Some t)
  ∧ (Task.status t = TaskStatus.PENDING → deps_of t = [] → ready w t).
Proof.
  intros Hlook. cbn zeta.
  destruct (schedule_next_tasks_row (Task.project_id t) w id t Hlook) as [Hyes Hno].
  split; [apply _task_is_ready_spec|]. split; [|split; [|split; [|split]]].
  - rewrite claimed_iff by done. tauto.
  - rewrite invoked_iff by done. tauto.
  - intros Hr agent Hagent. destruct Hyes as (h & Hl & Ha); [done|].
    rewrite Hagent in Ha. destruct Ha as (h' & -> & Hin).
    exists h', (claim (Some h') t). done.
  - intros Hn. apply Hno. tauto.
  - intros Hs Hd. split; [done|]. intros d. rewrite Hd. by intros ?%elem_of_nil.
Qed.

Lemma C6_dispatched_iff_ready_witness :
  let w := Demo.graph in
  let w' := schedule_next_tasks "p1" w in
  (claimed w w' "t" ↔ ready w (Demo.task TaskType.TESTING TaskStatus.PENDING (Some ["b"]) "0")).
Proof.
  refine (proj1 (proj2 (C6_dispatched_iff_ready Demo.graph "t"
            (Demo.task TaskType.TESTING TaskStatus.PENDING (Some ["b"]) "0") _))).
  reflexivity.
Defined.

(** C1 (as the code has it).  [schedule_next_tasks] selects the rows that are
    PENDING when it queries: a task that is not PENDING at that moment is left
    as it is and no agent is invoked for it; one run invokes at most one agent
    per task; and a run that starts after another has finished claims and
    invokes nothing for the tasks the earlier run claimed.  The claim step
    [_schedule_task] itself carries no test of the status it overwrites. *)
Theorem C1_select_then_claim (w : World) (project_id id : string) (t : Task) :
  tasks w !! id = Some t →
  Task.status t ≠ TaskStatus.PENDING →
  let w' := schedule_next_tasks project_id w in
  let w'' := schedule_next_tasks project_id w' in
  tasks w' !! id = Some t ∧ ¬ invoked w w' id
  ∧ NoDup (call_task_id <$> (enqueued w w').*2)
  ∧ (∀ id', claimed w w' id' → ¬ claimed w' w'' id' ∧ ¬ invoked w' w'' id').
Proof.
  intros Hlook Hst. cbn zeta. split; [|split; [|split]].
  - apply schedule_next_tasks_row; [done|]. intros [_ [? _]]. done.
  - rewrite invoked_iff by done. intros (_ & [? _] & _). done.
  - apply enqueued_NoDup.
  - intros id' [_ Hq]. unfold status_of in Hq.
    destruct (tasks (schedule_next_tasks project_id w) !! id') as [t'|] eqn:Hl'; [|done].
    cbn in Hq. rewrite claimed_iff, invoked_iff by done.
    split; [intros (_ & [Hp _])|intros (_ & [Hp _] & _)]; congruence.
Qed.

Lemma C1_select_then_claim_witness :
  let w := Demo.single ProjectStatus.CODING TaskStatus.RUNNING in
  tasks (schedule_next_tasks "p1" w) !! "a" = tasks w !! "a".
Proof.
  refine (proj1 (C1_select_then_claim
            (Demo.single ProjectStatus.CODING TaskStatus.RUNNING) "p1" "a"
            (Demo.task TaskType.CODEGEN TaskStatus.RUNNING None "0") _ _)).
  - reflexivity.
  - discriminate.
Defined.

(** C1 fails as stated.  The claim step applied to a task that is COMPLETED
    overwrites its status with QUEUED and invokes the agent.  And on the world
    [create_tasks_from_spec] commits (two CODEGEN tasks PENDING), when two runs
    of the loop have both queried before either writes, the second run finds
    both tasks already QUEUED by the first and still invokes the codegen agent
    for each of them a second time. *)
Lemma C1_counterexample :
  let row := ("a", Demo.task TaskType.CODEGEN TaskStatus.COMPLETED None "0") in
  let w := Demo.single ProjectStatus.CODING TaskStatus.COMPLETED in
  let w0 :=
    world_of (create_tasks_from_spec "p1" Demo_spec 1%nat
                (Demo.world ProjectStatus.CODING [])) in
  let first_run := dispatch_pending (select_pending "p1" w0) w0 in
  let second_run := dispatch_pending (select_pending "p1" w0) first_run in
  (tasks w !! "a" = Some row.2
   ∧ status_of w "a" = Some TaskStatus.COMPLETED
   ∧ status_of (_schedule_task row w) "a" = Some TaskStatus.QUEUED
   ∧ (enqueued w (_schedule_task row w)).*2 = [run_codegen "a"])
  ∧ (first_run = schedule_next_tasks "p1" w0
     ∧ status_of first_run "uuid-0" = Some TaskStatus.QUEUED
     ∧ status_of first_run "uuid-1" = Some TaskStatus.QUEUED
     ∧ (enqueued w0 first_run).*2 = [run_codegen "uuid-1"; run_codegen "uuid-0"]
     ∧ (enqueued first_run second_run).*2
       = [run_codegen "uuid-1"; run_codegen "uuid-0"]).
Proof. vm_compute. repeat split. Qed.

Lemma dispatch_pending_set_projects rows ps : ∀ w,
  dispatch_pending rows (set_projects ps w) = set_projects ps (dispatch_pending rows w).
Proof.
  induction rows as [|row rows IH]; intros w; [done|].
  rewrite !dispatch_pending_cons.
  change (_task_is_ready (set_projects ps w) row.2) with (_task_is_ready w row.2).
  destruct (_task_is_ready w row.2); [|apply IH].
  rewrite <- IH. f_equal. rewrite !_schedule_task_unfold.
  by destruct (agent_for _).
Qed.

(** C3 (as the code has it).  [schedule_next_tasks] never reads the project
    row: with any project table in place of the current one it makes the same
    writes; so for a project that is FAILED or PAUSED it still claims exactly
    the PENDING tasks of the project whose dependencies are COMPLETED and
    invokes their agents, and it leaves the project's status as it is. *)
Theorem C3_dispatch_ignores_project_status (w : World) (project_id id : string)
    (p : Project) (t : Task) :
  projects w !! project_id = Some p →
  Project.status p = ProjectStatus.FAILED ∨ Project.status p = ProjectStatus.PAUSED →
  tasks w !! id = Some t →
  Task.project_id t = project_id →
  let w' := schedule_next_tasks project_id w in
  (∀ ps, schedule_next_tasks project_id (set_projects ps w) = set_projects ps w')
  ∧ projects w' !! project_id = Some p
  ∧ (claimed w w' id ↔ ready w t)
  ∧ (invoked w w' id ↔ ready w t ∧ is_Some (agent_for (Task.type t))).
Proof.
  intros Hp Hst Hlook Hpid. cbn zeta. split; [|split; [|split]].
  - intros ps. apply dispatch_pending_set_projects.
  - destruct (schedule_next_tasks_spec project_id w) as (-> & _). done.
  - rewrite claimed_iff by done. tauto.
  - rewrite invoked_iff by done. tauto.
Qed.

Lemma C3_dispatch_ignores_project_status_witness :
  let w := Demo.single ProjectStatus.PAUSED TaskStatus.PENDING in
  projects (schedule_next_tasks "p1" w) !! "p1" = Some (Demo.project ProjectStatus.PAUSED).
Proof.
  refine (proj1 (proj2 (C3_dispatch_ignores_project_status
            (Demo.single ProjectStatus.PAUSED TaskStatus.PENDING) "p1" "a"
            (Demo.project ProjectStatus.PAUSED)
            (Demo.task TaskType.CODEGEN TaskStatus.PENDING None "0") _ _ _ _)));
    [reflexivity|right; reflexivity|reflexivity|reflexivity].
Defined.

(** C3 fails as stated, on worlds the handlers themselves produce from a
    planned project (two CODEGEN tasks dispatched, TESTING and DEPLOYMENT
    waiting).  Paused: after [pause_project], the completions of the two
    CODEGEN tasks arrive and the second one dispatches the TESTING task to the
    test agent, the project being PAUSED before and after.  Failed, with a
    budget of one retry: the backend task fails, is fixed, re-dispatched and
    fails again, which exhausts its budget and sets the project FAILED, while
    a fix of the frontend task is still under way; when that fix succeeds the
    frontend task is dispatched to the codegen agent, the project being FAILED
    before and after. *)
Lemma C3_counterexample :
  let planned :=
    world_of (on_planning_complete "p1" Demo_spec 1%nat
                (Demo.world ProjectStatus.PLANNING [])) in
  let paused := (ProjectService.pause_project "p1" 2%nat planned).1 in
  let c1 := world_of (on_task_complete "uuid-0" JNull 3%nat paused) in
  let c2 := world_of (on_task_complete "uuid-1" JNull 4%nat c1) in
  let f1 := world_of (on_task_failure 1 "uuid-0" "e1" planned) in
  let f2 := Fixer._run_fixer_async "uuid-0" "e1" (Fixer.Fixed [] None) 2%nat f1 in
  let f3 := world_of (on_task_failure 1 "uuid-1" "e2" f2) in
  let f4 := world_of (on_task_failure 1 "uuid-0" "e3" f3) in
  let f5 := Fixer._run_fixer_async "uuid-1" "e2" (Fixer.Fixed [] None) 3%nat f4 in
  (project_status c1 "p1" = Some ProjectStatus.PAUSED
   ∧ project_status c2 "p1" = Some ProjectStatus.PAUSED
   ∧ status_of c1 "uuid-2" = Some TaskStatus.PENDING
   ∧ status_of c2 "uuid-2" = Some TaskStatus.QUEUED
   ∧ (enqueued c1 c2).*2 = [run_tests "uuid-2"])
  ∧ (project_status f4 "p1" = Some ProjectStatus.FAILED
     ∧ project_status f5 "p1" = Some ProjectStatus.FAILED
     ∧ status_of f4 "uuid-1" = Some TaskStatus.RETRYING
     ∧ status_of f5 "uuid-1" = Some TaskStatus.QUEUED
     ∧ (enqueued f4 f5).*2 = [run_codegen "uuid-1"]).
Proof. vm_compute. repeat split. Qed.

(** ** The terminal check *)

Lemma all_complete_spec project_id w :
  forallb (fun row : string * Task =>
             bool_decide (Task.status row.2 = TaskStatus.COMPLETED))
          (filter (fun row => Task.project_id row.2 = project_id) (map_to_list (tasks w)))
  = true
  ↔ all_tasks_completed project_id w.
Proof.
  rewrite forallb_forall. unfold all_tasks_completed. split.
  - intros H id t Hl Hp. specialize (H (id, t)).
    rewrite bool_decide_eq_true in H. apply H.
    apply list_elem_of_In, list_elem_of_filter.
    split; [done|]. by apply elem_of_map_to_list.
  - intros H [id t] Hin. apply list_elem_of_In, list_elem_of_filter in Hin as [Hp Hin].
    apply elem_of_map_to_list in Hin. apply bool_decide_eq_true. by eapply H.
Qed.

Lemma _check_project_completion_spec project_id now w :
  let w' := _check_project_completion project_id now w in
  tasks w' = tasks w ∧ events w' = events w ∧ broker w' = broker w
  ∧ match projects w !! project_id with
    | None => w' = w
    | Some p =>
        (all_tasks_completed project_id w →
           projects w' = <[project_id :=
                             Project.set_completed_at (Some now)
                               (Project.set_status ProjectStatus.READY p)]> (projects w))
        ∧ (¬ all_tasks_completed project_id w → w' = w)
    end.
Proof.
  cbn zeta. unfold _check_project_completion.
  destruct (projects w !! project_id) as [p|] eqn:Hp; [|done].
  destruct (forallb _ _) eqn:Hall.
  - apply all_complete_spec in Hall. repeat split; try done.
    intros _. unfold update_project, set_projects. cbn.
    by rewrite (alter_Some _ _ _ p Hp).
  - repeat split; try done. intros Hc. apply all_complete_spec in Hc. congruence.
Qed.

Lemma _check_project_completion_counters project_id now w q p' :
  projects (_check_project_completion project_id now w) !! q = Some p' →
  ∃ p, projects w !! q = Some p
       ∧ Project.completed_tasks p' = Project.completed_tasks p
       ∧ Project.failed_tasks p' = Project.failed_tasks p
       ∧ Project.last_error p' = Project.last_error p
       ∧ (Project.status p' = Project.status p ∨
          Project.status p' = ProjectStatus.READY ∧ q = project_id
          ∧ all_tasks_completed project_id w).
Proof.
  unfold _check_project_completion.
  destruct (projects w !! project_id) as [p0|] eqn:Hp0; [|by eauto 10].
  destruct (forallb _ _) eqn:Hall; [|by eauto 10].
  apply all_complete_spec in Hall.
  unfold update_project, set_projects. cbn. rewrite lookup_alter.
  destruct (decide (project_id = q)) as [<-|]; [|by eauto 10].
  rewrite Hp0. cbn. intros [= <-]. exists p0. cbn. eauto 10.
Qed.

(** ** The completion handler *)

(** C2 (as the code has it).  [on_task_complete] does not look at the status
    it overwrites: for an existing task of an existing project it returns
    normally with the task COMPLETED, the output stored and the completion
    time stamped, whatever the status was before (COMPLETED included), and
    with the project's completed-task counter one higher than before, on
    every delivery. *)
Theorem C2_on_task_complete_unconditional (w : World) (task_id : string)
    (output : json) (now : datetime) (t : Task) (p : Project) :
  tasks w !! task_id = Some t →
  projects w !! Task.project_id t = Some p →
  ∃ w' p',
    on_task_complete task_id output now w = Ok w'
    ∧ tasks w' !! task_id
      = Some (Task.set_output_data (Some output)
                (Task.set_completed_at (Some now)
                   (Task.set_status TaskStatus.COMPLETED t)))
    ∧ projects w' !! Task.project_id t = Some p'
    ∧ Project.completed_tasks p' = Project.completed_tasks p + 1.
Proof.
  intros Ht Hp. unfold on_task_complete. rewrite Ht, Hp.
  set (t1 := Task.set_output_data _ (Task.set_completed_at _ (Task.set_status _ t))).
  set (w1 := update_project _ _ (update_task _ _ w)).
  set (pid := Task.project_id t) in *.
  assert (Ht1 : tasks w1 !! task_id = Some t1).
  { subst w1. cbn. rewrite lookup_alter_eq, Ht. done. }
  assert (Hp1 : projects w1 !! pid
                = Some (Project.set_completed_tasks (Project.completed_tasks p + 1) p)).
  { subst w1. cbn. rewrite lookup_alter_eq, Hp. done. }
  set (w2 := schedule_next_tasks pid w1).
  assert (Ht2 : tasks w2 !! task_id = Some t1).
  { apply schedule_next_tasks_row; [done|]. intros [_ [Hs _]]. done. }
  assert (Hp2 : projects w2 !! pid
                = Some (Project.set_completed_tasks (Project.completed_tasks p + 1) p)).
  { subst w2. destruct (schedule_next_tasks_spec pid w1) as (-> & _). done. }
  destruct (_check_project_completion_spec pid now w2) as (Htasks & _ & _ & Hcheck).
  rewrite Hp2 in Hcheck. destruct Hcheck as [Hall Hnot].
  destruct (decide (forallb (fun row : string * Task =>
                      bool_decide (Task.status row.2 = TaskStatus.COMPLETED))
                    (filter (fun row => Task.project_id row.2 = pid)
                            (map_to_list (tasks w2))) = true)) as [Hc|Hc].
  - apply all_complete_spec in Hc. eexists _, _. split; [done|].
    rewrite Htasks, (Hall Hc), lookup_insert_eq. done.
  - rewrite all_complete_spec in Hc. eexists _, _. split; [done|].
    rewrite (Hnot Hc). done.
Qed.

Lemma C2_on_task_complete_unconditional_witness :
  ∃ w' p',
    on_task_complete "a" (JDict [("files_created", JList [])]) 9%nat
      (Demo.single ProjectStatus.CODING TaskStatus.COMPLETED) = Ok w'
    ∧ tasks w' !! "a"
      = Some (Task.set_output_data (Some (JDict [("files_created", JList [])]))
                (Task.set_completed_at (Some 9%nat)
                   (Task.set_status TaskStatus.COMPLETED
                      (Demo.task TaskType.CODEGEN TaskStatus.COMPLETED None "0"))))
    ∧ projects w' !! "p1" = Some p'
    ∧ Project.completed_tasks p' = 0 + 1.
Proof.
  apply (C2_on_task_complete_unconditional
           (Demo.single ProjectStatus.CODING TaskStatus.COMPLETED) "a"
           (JDict [("files_created", JList [])]) 9%nat
           (Demo.task TaskType.CODEGEN TaskStatus.COMPLETED None "0")
           (Demo.project ProjectStatus.CODING)); reflexivity.
Defined.

(** C2 fails as stated, on a planned project (two CODEGEN tasks dispatched,
    TESTING and DEPLOYMENT waiting).  The completion of the backend task is
    delivered twice: the second delivery finds the task COMPLETED and still
    raises the project's counter from 1 to 2, with one task completed, and
    stamps the row again.  And a completion reported for the TESTING task,
    which is PENDING (neither QUEUED nor RUNNING), moves it to COMPLETED. *)
Lemma C2_counterexample :
  let out := JDict [("files_created", JList [])] in
  let planned :=
    world_of (on_planning_complete "p1" Demo_spec 1%nat
                (Demo.world ProjectStatus.PLANNING [])) in
  let w1 := world_of (on_task_complete "uuid-0" out 8%nat planned) in
  let w2 := world_of (on_task_complete "uuid-0" out 9%nat w1) in
  let w3 := world_of (on_task_complete "uuid-2" out 9%nat planned) in
  (status_of w1 "uuid-0" = Some TaskStatus.COMPLETED
   ∧ Project.completed_tasks <$> projects w1 !! "p1" = Some 1
   ∧ Project.completed_tasks <$> projects w2 !! "p1" = Some 2
   ∧ Task.completed_at <$> tasks w1 !! "uuid-0" = Some (Some 8%nat)
   ∧ Task.completed_at <$> tasks w2 !! "uuid-0" = Some (Some 9%nat)
   ∧ w2 ≠ w1)
  ∧ (status_of planned "uuid-2" = Some TaskStatus.PENDING
     ∧ status_of w3 "uuid-2" = Some TaskStatus.COMPLETED).
Proof.
  vm_compute. repeat split. intros H. discriminate H.
Qed.

(** ** The failure handler and the fixer *)

Lemma deps_completed_ext w w' t t' :
  deps_of t' = deps_of t →
  (∀ d, d ∈ deps_of t → completed w' d = completed w d) →
  deps_completed w' t' ↔ deps_completed w t.
Proof.
  intros Hd Hc. unfold deps_completed. rewrite Hd.
  assert (Hcompleted : ∀ v d, completed v d = true
            ↔ ∃ dep, tasks v !! d = Some dep ∧ Task.status dep = TaskStatus.COMPLETED).
  { intros v d. unfold completed. destruct (tasks v !! d) as [dep|].
    - rewrite bool_decide_eq_true. split; [by exists dep|]. by intros (? & [= <-] & ?).
    - split; [done|]. by intros (? & ? & ?). }
  split; intros H d Hin; apply Hcompleted; [rewrite <- Hc by done|rewrite Hc by done];
    apply Hcompleted; by apply H.
Qed.

(** C4. A failure reported for an existing task whose retry counter reads [n]
    with [n < max_retries] is handled normally: the task becomes RETRYING, its
    counter reads [n + 1], the error is recorded, and exactly one call is put
    on the broker, [run_fixer(task_id, error)], whose handle is stored on the
    task; nothing else in the task or project tables changes.  When the fixer
    then succeeds, the task is reset to PENDING with the error cleared and the
    run ends with [schedule_next_tasks] for the task's project (whose row
    the fixer looks up first): the task is claimed again, and its agent
    invoked, if its dependencies are COMPLETED, and stays PENDING otherwise. *)
Theorem C4_retry_then_fix (max_retries : Z) (w : World) (task_id error : string)
    (t : Task) (n : Z) :
  tasks w !! task_id = Some t →
  int (Task.retry_count t) = Some n →
  n < max_retries →
  ∃ w1 h,
    let t1 := Task.set_celery_task_id (Some h)
                (Task.set_error_message (Some error)
                   (Task.set_retry_count (str (n + 1))
                      (Task.set_status TaskStatus.RETRYING t))) in
    on_task_failure max_retries task_id error w = Ok w1
    ∧ tasks w1 = <[task_id := t1]> (tasks w)
    ∧ int (Task.retry_count t1) = Some (n + 1)
    ∧ enqueued w w1 = [(h, run_fixer task_id error)]
    ∧ projects w1 = projects w
    ∧ ∀ p files_fixed analysis now,
        projects w !! Task.project_id t = Some p →
        let t2 := Task.set_error_message None (Task.set_status TaskStatus.PENDING t1) in
        let w2 := Fixer._run_fixer_async task_id error
                    (Fixer.Fixed files_fixed analysis) now w1 in
        ∃ w_reset,
          tasks w_reset = <[task_id := t2]> (tasks w1)
          ∧ projects w_reset = projects w1 ∧ broker w_reset = broker w1
          ∧ w2 = schedule_next_tasks (Task.project_id t) w_reset
          ∧ (deps_completed w1 t →
               status_of w2 task_id = Some TaskStatus.QUEUED
               ∧ ∀ agent, agent_for (Task.type t) = Some agent →
                          ∃ h2, (h2, agent task_id) ∈ enqueued w_reset w2)
          ∧ (¬ deps_completed w1 t → tasks w2 !! task_id = Some t2).
Proof.
  intros Ht Hn Hlt. unfold on_task_failure. rewrite Ht, Hn.
  rewrite (proj2 (Z.ltb_lt _ _) Hlt). cbn zeta.
  unfold delay, uuid4, update_task, set_tasks. cbn.
  eexists _, (uuid_name (uuid_counter w)). split; [reflexivity|]. cbn.
  set (t1 := Task.set_celery_task_id _ _).
  assert (Htasks : alter (Task.set_celery_task_id (Some (uuid_name (uuid_counter w)))) task_id
            (alter (Task.set_error_message (Some error)
                    ∘ Task.set_retry_count (str (n + 1))
                    ∘ Task.set_status TaskStatus.RETRYING) task_id (tasks w))
          = <[task_id := t1]> (tasks w)).
  { by rewrite alter_alter_eq, (alter_Some _ _ _ t Ht). }
  rewrite Htasks.
  split; [done|]. split; [apply int_str|]. split.
  { unfold enqueued. cbn. by rewrite drop_app_length. }
  split; [done|]. intros p files_fixed analysis now Hp.
  unfold Fixer._run_fixer_async. cbn. rewrite lookup_insert_eq. cbn. rewrite Hp.
  unfold update_task, set_tasks, add_event. cbn.
  set (t2 := Task.set_error_message None (Task.set_status TaskStatus.PENDING t1)).
  assert (Halter : alter (Task.set_error_message None ∘ Task.set_status TaskStatus.PENDING)
                     task_id (<[task_id := t1]> (tasks w))
                   = <[task_id := t2]> (<[task_id := t1]> (tasks w))).
  { by rewrite (alter_Some _ _ _ t1) by apply lookup_insert_eq. }
  rewrite Halter.
  eexists (mkWorld _ _ _ _ _). split; [reflexivity|]. split; [reflexivity|].
  split; [reflexivity|]. split; [reflexivity|].
  match goal with |- context [schedule_next_tasks _ ?v] => set (w_reset := v) end.
  assert (Hlook : tasks w_reset !! task_id = Some t2).
  { subst w_reset. cbn. by rewrite lookup_insert_eq. }
  assert (Hdeps : deps_completed w_reset t2
                  ↔ deps_completed
                      (mkWorld (<[task_id := t1]> (tasks w)) (projects w) (events w)
                         (broker w ++ [(uuid_name (uuid_counter w), run_fixer task_id error)])
                         (S (uuid_counter w))) t).
  { apply deps_completed_ext; [done|]. intros d _. unfold completed. subst w_reset. cbn.
    rewrite !lookup_insert. destruct (decide (task_id = d)); done. }
  destruct (schedule_next_tasks_row (Task.project_id t) w_reset task_id t2 Hlook)
    as [Hyes Hno].
  split.
  - intros Hd. destruct Hyes as (h2 & Hl2 & Hagent).
    { split; [done|]. split; [done|]. by apply Hdeps. }
    split.
    + unfold status_of. rewrite Hl2. cbn. f_equal. apply claim_status.
    + intros agent Ha. change (Task.type t2) with (Task.type t) in Hagent.
      rewrite Ha in Hagent. destruct Hagent as (h' & _ & Hin). by exists h'.
  - intros Hd. apply Hno. intros [_ [_ Hr]]. by apply Hd, Hdeps.
Qed.

Lemma C4_retry_then_fix_witness :
  ∃ w1 h,
    on_task_failure 2 "a" "ImportError: no module named foo"
      (Demo.single ProjectStatus.CODING TaskStatus.FAILED) = Ok w1
    ∧ status_of w1 "a" = Some TaskStatus.RETRYING
    ∧ (Task.retry_count <$> tasks w1 !! "a") = Some "1"
    ∧ enqueued (Demo.single ProjectStatus.CODING TaskStatus.FAILED) w1
      = [(h, run_fixer "a" "ImportError: no module named foo")].
Proof.
  destruct (C4_retry_then_fix 2 (Demo.single ProjectStatus.CODING TaskStatus.FAILED)
              "a" "ImportError: no module named foo"
              (Demo.task TaskType.CODEGEN TaskStatus.FAILED None "0") 0)
    as (w1 & h & Hok & Htasks & _ & Henq & _); [reflexivity|reflexivity|lia|].
  exists w1, h. unfold status_of. rewrite Htasks, lookup_insert_eq.
  repeat split; assumption || reflexivity.
Defined.

(** C10. When the fixer's own attempt raises, the run writes the original
    task, which becomes FAILED with the message ["Fix attempt failed: …"], and
    appends its two audit events (started, failed); every other task row, every
    project row (so the owning project's status, failed-task counter and last
    error) and the broker queue are exactly as they were: no further fix is
    requested and the project is not marked FAILED. *)
Theorem C10_fix_failure_frame (w : World) (task_id error str_e : string)
    (now : datetime) (t : Task) (p : Project) :
  tasks w !! task_id = Some t →
  projects w !! Task.project_id t = Some p →
  let w' := Fixer._run_fixer_async task_id error (Fixer.Raised str_e) now w in
  tasks w' = <[task_id := Task.set_error_message (Some ("Fix attempt failed: " ++ str_e))
                            (Task.set_status TaskStatus.FAILED t)]> (tasks w)
  ∧ status_of w' task_id = Some TaskStatus.FAILED
  ∧ (∀ j, j ≠ task_id → tasks w' !! j = tasks w !! j)
  ∧ projects w' = projects w
  ∧ projects w' !! Task.project_id t = Some p
  ∧ broker w' = broker w
  ∧ enqueued w w' = []
  ∧ uuid_counter w' = uuid_counter w
  ∧ events w'
    = (events w
       ++ [Event.mk (Task.project_id t) EventType.LOG EventLevel.INFO
             ("Auto-fix started for error: " ++ prefix_slice 100 error)
             None (Some "fixer") (Some task_id) now;
           Event.mk (Task.project_id t) EventType.LOG EventLevel.ERROR
             ("Auto-fix failed: " ++ str_e)
             None (Some "fixer") (Some task_id) now])%list.
Proof.
  intros Ht Hp. cbn zeta. unfold Fixer._run_fixer_async. rewrite Ht, Hp.
  unfold update_task, set_tasks, add_event, status_of, enqueued. cbn.
  assert (Halter :
    alter (Task.set_error_message (Some ("Fix attempt failed: " ++ str_e))
           ∘ Task.set_status TaskStatus.FAILED) task_id (tasks w)
    = <[task_id := Task.set_error_message (Some ("Fix attempt failed: " ++ str_e))
                     (Task.set_status TaskStatus.FAILED t)]> (tasks w)).
  { by rewrite (alter_Some _ _ _ t Ht). }
  rewrite Halter, lookup_insert_eq, drop_all, <- app_assoc. cbn.
  repeat split; try done. intros j Hj. by rewrite lookup_insert_ne.
Qed.

Lemma C10_fix_failure_frame_witness :
  let w := Demo.single ProjectStatus.CODING TaskStatus.RETRYING in
  let w' := Fixer._run_fixer_async "a" "boom" (Fixer.Raised "JSONDecodeError") 3%nat w in
  status_of w' "a" = Some TaskStatus.FAILED ∧ projects w' = projects w ∧ broker w' = broker w.
Proof.
  destruct (C10_fix_failure_frame (Demo.single ProjectStatus.CODING TaskStatus.RETRYING)
              "a" "boom" "JSONDecodeError" 3%nat
              (Demo.task TaskType.CODEGEN TaskStatus.RETRYING None "0")
              (Demo.project ProjectStatus.CODING))
    as (_ & Hs & _ & Hp & _ & Hb & _); [reflexivity|reflexivity|].
  repeat split; assumption.
Defined.

(** ** Fresh names *)

Lemma uuid_name_parse (n : nat) :
  Nat.of_uint <$> NilZero.uint_of_string (NilZero.string_of_uint (Nat.to_uint n)) = Some n.
Proof.
  destruct (Nat.to_uint n) eqn:E;
    try (rewrite NilZero.usu by discriminate; cbn [fmap option_fmap option_map];
         by rewrite <- E, Unsigned.of_to).
  rewrite NilZero.usu_nil. cbn. f_equal.
  by rewrite <- (Unsigned.of_to n), E.
Qed.

#[global] Instance uuid_name_inj : Inj (=) (=) uuid_name.
Proof.
  intros n m H. unfold uuid_name in H. apply (inj (String.app "uuid-")) in H.
  pose proof (uuid_name_parse n) as Hn. rewrite H, uuid_name_parse in Hn. congruence.
Qed.

(** ** Expanding the specification *)

Lemma flush_tasks_world ts : ∀ w,
  (flush_tasks ts w).1
  = mkWorld (tasks w) (projects w) (events w) (broker w) (length ts + uuid_counter w).
Proof.
  induction ts as [|t ts IH]; intros w; [by destruct w|].
  cbn. specialize (IH (uuid4 w).1). unfold uuid4 in *. cbn in IH.
  destruct (flush_tasks ts _) as [w' rows]. cbn in *. rewrite IH. f_equal. lia.
Qed.

Lemma flush_tasks_rows ts : ∀ w,
  (flush_tasks ts w).2 = zip (uuid_name <$> seq (uuid_counter w) (length ts)) ts.
Proof.
  induction ts as [|t ts IH]; intros w; [done|].
  cbn. specialize (IH (uuid4 w).1). unfold uuid4 in *. cbn in IH.
  destruct (flush_tasks ts _) as [w' rows]. cbn in *. by rewrite IH.
Qed.

Lemma link_dependencies_fst rows : (link_dependencies rows).*1 = rows.*1.
Proof.
  unfold link_dependencies. rewrite <- list_fmap_compose. by apply list_fmap_ext.
Qed.

Lemma created_rows_ids project_id spec now w :
  (created_rows project_id spec now w).*1
  = uuid_name <$> seq (uuid_counter w) (length (spec_tasks project_id spec now)).
Proof.
  unfold created_rows. rewrite link_dependencies_fst, flush_tasks_rows.
  apply fst_zip. by rewrite length_fmap, length_seq.
Qed.

Lemma created_rows_NoDup project_id spec now w :
  NoDup (created_rows project_id spec now w).*1.
Proof. rewrite created_rows_ids. apply NoDup_fmap_2; [apply _|apply NoDup_seq]. Qed.

Lemma created_rows_length project_id spec now w :
  length (created_rows project_id spec now w) = length (spec_tasks project_id spec now).
Proof.
  rewrite <- (length_fmap fst), created_rows_ids, length_fmap. apply length_seq.
Qed.

Lemma create_tasks_from_spec_unfold project_id spec now w p :
  projects w !! project_id = Some p →
  create_tasks_from_spec project_id spec now w
  = Ok (mkWorld (list_to_map (created_rows project_id spec now w) ∪ tasks w)
          (<[project_id :=
               Project.set_total_tasks
                 (Z.of_nat (length (created_rows project_id spec now w))) p]> (projects w))
          (events w) (broker w)
          (length (created_rows project_id spec now w) + uuid_counter w)).
Proof.
  intros Hp. unfold create_tasks_from_spec, created_rows.
  pose proof (flush_tasks_world (spec_tasks project_id spec now) w) as Hw.
  fold (created_rows project_id spec now w). rewrite created_rows_length. unfold created_rows.
  destruct (flush_tasks _ w) as [w1 rows]. cbn in Hw. subst w1. cbn.
  rewrite Hp. unfold update_project, set_projects, set_tasks. cbn. do 2 f_equal.
  by apply alter_Some.
Qed.

Lemma created_lookup (rows : list (string * Task)) (m : gmap string Task) id t :
  NoDup rows.*1 → (id, t) ∈ rows → (list_to_map rows ∪ m) !! id = Some t.
Proof. intros Hnd Hin. apply lookup_union_Some_l. by apply elem_of_list_to_map_1. Qed.

Lemma spec_tasks_facts project_id spec now :
  let ts := spec_tasks project_id spec now in
  Forall (fun t => Task.project_id t = project_id
                   ∧ Task.status t = TaskStatus.PENDING
                   ∧ Task.retry_count t = "0"
                   ∧ (Task.type t = TaskType.CODEGEN → Task.depends_on t = None)
                   ∧ (Task.type t = TaskType.CODEGEN ∨ Task.type t = TaskType.TESTING
                      ∨ Task.type t = TaskType.DEPLOYMENT)) ts
  ∧ component_of <$> filter (fun t => Task.type t = TaskType.CODEGEN) ts
    = Some <$> declared spec
  ∧ length (filter (fun t => Task.type t = TaskType.TESTING) ts) = 1%nat
  ∧ length (filter (fun t => Task.type t = TaskType.DEPLOYMENT) ts) = 1%nat
  ∧ length ts = (length (declared spec) + 2)%nat.
Proof.
  unfold spec_tasks, declared, components. cbn [filter list_filter].
  generalize (spec !! "backend") (spec !! "frontend") (spec !! "infrastructure").
  intros o1 o2 o3.
  destruct (truthy_opt o1), (truthy_opt o2), (truthy_opt o3);
    (split; [repeat constructor; discriminate|]); vm_compute; done.
Qed.

(** What the second phase writes into one flushed object. *)
Lemma link_dependencies_elem rows id t' :
  (id, t') ∈ link_dependencies rows ↔
  ∃ t, (id, t) ∈ rows
       ∧ t' = (if decide (Task.type t = TaskType.TESTING)
               then Task.set_depends_on (Some (ids_of_type TaskType.CODEGEN rows)) t
               else if decide (Task.type t = TaskType.DEPLOYMENT)
                    then Task.set_depends_on (Some (ids_of_type TaskType.TESTING rows)) t
                    else t).
Proof.
  unfold link_dependencies. rewrite list_elem_of_fmap. split.
  - intros ([id0 t] & [= -> ->] & Hin). exists t. split; [done|]. cbn [snd].
    destruct (decide (Task.type t = TaskType.TESTING)) as [Ht|Ht]; cbn.
    + rewrite Ht. done.
    + done.
  - intros (t & Hin & ->). exists (id, t). split; [|done]. cbn [fst snd]. f_equal.
    destruct (decide (Task.type t = TaskType.TESTING)) as [Ht|Ht]; cbn.
    + rewrite Ht. done.
    + done.
Qed.

Lemma link_dependencies_filter_ids ty rows :
  ids_of_type ty (link_dependencies rows) = ids_of_type ty rows.
Proof.
  unfold ids_of_type, link_dependencies.
  generalize (filter (fun row : string * Task => Task.type row.2 = TaskType.CODEGEN) rows).*1.
  generalize (filter (fun row : string * Task => Task.type row.2 = TaskType.TESTING) rows).*1.
  intros te c. induction rows as [|[id t] rows IH]; [done|].
  rewrite fmap_cons, !filter_cons. cbn [fst snd].
  assert (Hty : Task.type
            (if decide (Task.type (if decide (Task.type t = TaskType.TESTING)
                                   then Task.set_depends_on (Some c) t else t)
                        = TaskType.DEPLOYMENT)
             then Task.set_depends_on (Some te)
                    (if decide (Task.type t = TaskType.TESTING)
                     then Task.set_depends_on (Some c) t else t)
             else if decide (Task.type t = TaskType.TESTING)
                  then Task.set_depends_on (Some c) t else t)
          = Task.type t).
  { by repeat case_decide. }
  rewrite Hty. destruct (decide (Task.type t = ty)); [rewrite !fmap_cons|]; by rewrite IH.
Qed.

Lemma filter_zip_type (ty : TaskType) (ts : list Task) :
  ∀ ids : list string, (length ts ≤ length ids)%nat →
  (filter (fun row : string * Task => Task.type row.2 = ty) (zip ids ts)).*2
  = filter (fun t => Task.type t = ty) ts.
Proof.
  induction ts as [|t ts IH]; intros [|i ids] Hlen; cbn [length] in Hlen;
    try done; try lia.
  cbn [zip zip_with]. rewrite !filter_cons. cbn [snd].
  destruct (decide (Task.type t = ty)); [rewrite fmap_cons; cbn [snd]; f_equal|];
    apply IH; lia.
Qed.

Lemma created_rows_tasks project_id spec now w (ty : TaskType) :
  (filter (fun row : string * Task => Task.type row.2 = ty)
          (flush_tasks (spec_tasks project_id spec now) w).2).*2
  = filter (fun t => Task.type t = ty) (spec_tasks project_id spec now).
Proof.
  rewrite flush_tasks_rows. apply filter_zip_type.
  by rewrite length_fmap, length_seq.
Qed.

Lemma link_dependencies_codegen rows :
  filter (fun row : string * Task => Task.type row.2 = TaskType.CODEGEN)
         (link_dependencies rows)
  = filter (fun row : string * Task => Task.type row.2 = TaskType.CODEGEN) rows.
Proof.
  unfold link_dependencies.
  generalize (filter (fun row : string * Task => Task.type row.2 = TaskType.CODEGEN) rows).*1.
  generalize (filter (fun row : string * Task => Task.type row.2 = TaskType.TESTING) rows).*1.
  intros te c. induction rows as [|[id t] rows IH]; [done|].
  rewrite fmap_cons, !filter_cons. cbn [fst snd].
  repeat case_decide; cbn in *; try congruence; by rewrite IH.
Qed.

Lemma created_rows_counter project_id spec now w w' :
  uuid_counter w' = uuid_counter w →
  created_rows project_id spec now w' = created_rows project_id spec now w.
Proof. intros H. unfold created_rows. by rewrite !flush_tasks_rows, H. Qed.

Lemma on_planning_complete_unfold project_id spec now w p :
  projects w !! project_id = Some p →
  on_planning_complete project_id spec now w
  = Ok (schedule_next_tasks project_id
          (mkWorld (list_to_map (created_rows project_id spec now w) ∪ tasks w)
             (<[project_id :=
                  Project.set_total_tasks
                    (Z.of_nat (length (created_rows project_id spec now w)))
                    (Project.set_started_at (Some now)
                       (Project.set_status ProjectStatus.CODING
                          (Project.set_spec (Some spec) p)))]> (projects w))
             (events w) (broker w)
             (length (created_rows project_id spec now w) + uuid_counter w))).
Proof.
  intros Hp. unfold on_planning_complete. rewrite Hp.
  erewrite create_tasks_from_spec_unfold; cycle 1.
  { unfold update_project, set_projects. cbn. rewrite lookup_alter_eq, Hp. done. }
  cbn [bind]. rewrite (created_rows_counter _ _ _ w) by done.
  do 2 f_equal. unfold update_project, set_projects. cbn. f_equal.
  apply map_eq. intros q. rewrite !lookup_insert, lookup_alter.
  destruct (decide (project_id = q)); done.
Qed.

(** Each committed row, by its type. *)
Lemma created_rows_elem project_id spec now w id t :
  (id, t) ∈ created_rows project_id spec now w →
  Task.project_id t = project_id
  ∧ Task.status t = TaskStatus.PENDING
  ∧ Task.retry_count t = "0"
  ∧ (Task.type t = TaskType.CODEGEN → Task.depends_on t = None)
  ∧ (Task.type t = TaskType.TESTING →
       Task.depends_on t
       = Some (ids_of_type TaskType.CODEGEN (created_rows project_id spec now w)))
  ∧ (Task.type t = TaskType.DEPLOYMENT →
       Task.depends_on t
       = Some (ids_of_type TaskType.TESTING (created_rows project_id spec now w)))
  ∧ (Task.type t = TaskType.CODEGEN ∨ Task.type t = TaskType.TESTING
     ∨ Task.type t = TaskType.DEPLOYMENT).
Proof.
  unfold created_rows at 1. intros (t0 & Hin & ->)%link_dependencies_elem.
  rewrite <- !(link_dependencies_filter_ids _ (flush_tasks _ w).2).
  fold (created_rows project_id spec now w).
  destruct (spec_tasks_facts project_id spec now) as (Hall & _).
  rewrite Forall_forall in Hall. destruct (Hall t0) as (Hp & Hs & Hr & Hd & Hty).
  { rewrite flush_tasks_rows in Hin. by apply elem_of_zip_r in Hin. }
  repeat case_decide; cbn; repeat split; try done; try congruence; intros; congruence.
Qed.

Lemma rows_unique (rows : list (string * Task)) id t1 t2 :
  NoDup rows.*1 → (id, t1) ∈ rows → (id, t2) ∈ rows → t1 = t2.
Proof.
  intros Hnd H1 H2.
  apply (elem_of_list_to_map_1 (M := gmap string)) in H1, H2; [|done..]. congruence.
Qed.

Lemma ids_of_type_elem ty rows id :
  id ∈ ids_of_type ty rows ↔ ∃ t, (id, t) ∈ rows ∧ Task.type t = ty.
Proof.
  unfold ids_of_type. rewrite list_elem_of_fmap. split.
  - intros ([id0 t] & -> & [Hty Hin]%list_elem_of_filter). by exists t.
  - intros (t & Hin & Hty). exists (id, t). split; [done|].
    by apply list_elem_of_filter.
Qed.

Lemma ids_of_type_length project_id spec now w ty :
  length (ids_of_type ty (created_rows project_id spec now w))
  = length (filter (fun t => Task.type t = ty) (spec_tasks project_id spec now)).
Proof.
  unfold created_rows. rewrite link_dependencies_filter_ids. unfold ids_of_type.
  rewrite <- (created_rows_tasks _ _ _ w ty).
  by rewrite !length_fmap.
Qed.

(** C8 (as the code has it).  On planning completion the project is set to
    CODING and the handler commits, under fresh distinct ids, one CODEGEN task
    for each of the components backend, frontend and infrastructure that the
    specification declares (entry present and not empty), in that order, then
    exactly one TESTING task whose [depends_on] is the list of the ids of
    these CODEGEN tasks, and exactly one DEPLOYMENT task whose [depends_on] is
    the id of the TESTING task; no other key of the specification yields a
    task.  All of them are PENDING tasks of the project, still stored after
    the dispatch run that ends the handler (as they were, or claimed), and in
    no world is the TESTING task ready unless every one of these CODEGEN tasks
    is COMPLETED. *)
Theorem C8_graph_expansion (w : World) (project_id : string)
    (spec : gmap string json) (now : datetime) (p : Project) :
  projects w !! project_id = Some p →
  let rows := created_rows project_id spec now w in
  let code_ids := ids_of_type TaskType.CODEGEN rows in
  ∃ wf test_id deploy_id,
    on_planning_complete project_id spec now w = Ok wf
    ∧ project_status wf project_id = Some ProjectStatus.CODING
    ∧ NoDup rows.*1
    ∧ length rows = (length (declared spec) + 2)%nat
    ∧ component_of <$> (filter (fun row => Task.type row.2 = TaskType.CODEGEN) rows).*2
      = Some <$> declared spec
    ∧ ids_of_type TaskType.TESTING rows = [test_id]
    ∧ ids_of_type TaskType.DEPLOYMENT rows = [deploy_id]
    ∧ (∀ id t, (id, t) ∈ rows →
         Task.project_id t = project_id
         ∧ Task.status t = TaskStatus.PENDING
         ∧ (Task.type t = TaskType.CODEGEN ∨ Task.type t = TaskType.TESTING
            ∨ Task.type t = TaskType.DEPLOYMENT)
         ∧ (Task.type t = TaskType.CODEGEN → Task.depends_on t = None)
         ∧ (Task.type t = TaskType.TESTING → Task.depends_on t = Some code_ids)
         ∧ (Task.type t = TaskType.DEPLOYMENT → Task.depends_on t = Some [test_id])
         ∧ ∃ t', tasks wf !! id = Some t' ∧ (t' = t ∨ ∃ h, t' = claim h t))
    ∧ (∀ v t, (test_id, t) ∈ rows → ready v t →
              ∀ c, c ∈ code_ids → status_of v c = Some TaskStatus.COMPLETED).
Proof.
  intros Hp. cbn zeta.
  set (rows := created_rows project_id spec now w).
  destruct (spec_tasks_facts project_id spec now) as (_ & Hcomp & Htest & Hdeploy & Hlen).
  assert (Hnd : NoDup rows.*1) by apply created_rows_NoDup.
  assert (∃ test_id, ids_of_type TaskType.TESTING rows = [test_id]) as [test_id Htid].
  { pose proof (ids_of_type_length project_id spec now w TaskType.TESTING) as H.
    rewrite Htest in H. fold rows in H.
    destruct (ids_of_type TaskType.TESTING rows) as [|x [|]]; try done. by exists x. }
  assert (∃ deploy_id, ids_of_type TaskType.DEPLOYMENT rows = [deploy_id]) as [deploy_id Hdid].
  { pose proof (ids_of_type_length project_id spec now w TaskType.DEPLOYMENT) as H.
    rewrite Hdeploy in H. fold rows in H.
    destruct (ids_of_type TaskType.DEPLOYMENT rows) as [|x [|]]; try done. by exists x. }
  rewrite (on_planning_complete_unfold _ _ _ _ p Hp). fold rows.
  match goal with |- context [schedule_next_tasks _ ?v] => set (w2 := v) end.
  exists (schedule_next_tasks project_id w2), test_id, deploy_id.
  split; [done|]. split.
  { unfold project_status.
    destruct (schedule_next_tasks_spec project_id w2) as (-> & _).
    subst w2. cbn. by rewrite lookup_insert_eq. }
  split; [done|]. split.
  { subst rows. by rewrite created_rows_length. }
  split.
  { subst rows. unfold created_rows. rewrite link_dependencies_codegen.
    by rewrite created_rows_tasks. }
  split; [done|]. split; [done|]. split.
  - intros id t Hin.
    destruct (created_rows_elem _ _ _ _ _ _ Hin) as (H1 & H2 & _ & H4 & H5 & H6 & H7).
    fold rows in H5, H6. rewrite Htid in H6. repeat split; try done.
    assert (Hl : tasks w2 !! id = Some t) by (by apply created_lookup).
    destruct (schedule_next_tasks_row project_id w2 id t Hl) as [Hyes Hno].
    destruct (ready_decidable w2 t) as [Hr|Hr].
    + destruct Hyes as (h & -> & _); [done|]. eexists. split; [done|]. right. by exists h.
    + rewrite Hno by (by intros [_ ?]). eexists. split; [done|]. by left.
  - intros v t Hin [_ Hd] c Hc.
    assert (Hty : Task.type t = TaskType.TESTING).
    { assert (test_id ∈ ids_of_type TaskType.TESTING rows) as (t0 & Hin0 & Ht0)%ids_of_type_elem
        by (rewrite Htid; left).
      by rewrite (rows_unique rows test_id t t0 Hnd Hin Hin0). }
    destruct (created_rows_elem _ _ _ _ _ _ Hin) as (_ & _ & _ & _ & H5 & _).
    specialize (H5 Hty). fold rows in H5.
    destruct (Hd c) as (dep & Hdep & Hs).
    { unfold deps_of. rewrite H5. done. }
    unfold status_of. rewrite Hdep. cbn. by rewrite Hs.
Qed.

Lemma C8_graph_expansion_witness :
  ∃ wf, on_planning_complete "p1" Demo_spec 5%nat (Demo.world ProjectStatus.PLANNING [])
        = Ok wf
        ∧ project_status wf "p1" = Some ProjectStatus.CODING.
Proof.
  destruct (C8_graph_expansion (Demo.world ProjectStatus.PLANNING []) "p1" Demo_spec 5%nat
              (Demo.project ProjectStatus.PLANNING))
    as (wf & _ & _ & Hok & Hst & _); [reflexivity|].
  exists wf. split; assumption.
Defined.

(** C8 fails as stated: a specification that declares a database component
    (as the planner's own layout does) gets no CODEGEN task for it; with only
    a database section and an empty backend section declared the graph has no
    CODEGEN task at all, the TESTING task depends on nothing and is handed to
    the test agent by the very handler that created it. *)
Lemma C8_counterexample :
  let w := Demo.world ProjectStatus.PLANNING [] in
  let rows := created_rows "p1" Demo_spec 5%nat w in
  let rows' := created_rows "p1" Demo_spec_database 5%nat w in
  let wf := world_of (on_planning_complete "p1" Demo_spec_database 5%nat w) in
  (truthy_opt (Demo_spec !! "database") = true
   ∧ component_of <$> (filter (fun row => Task.type row.2 = TaskType.CODEGEN) rows).*2
     = [Some "backend"; Some "frontend"])
  ∧ (truthy_opt (Demo_spec_database !! "database") = true
     ∧ is_Some (Demo_spec_database !! "backend")
     ∧ Task.type <$> rows'.*2 = [TaskType.TESTING; TaskType.DEPLOYMENT]
     ∧ Task.depends_on <$> rows'.*2 = [Some []; Some ["uuid-0"]]
     ∧ status_of wf "uuid-0" = Some TaskStatus.QUEUED
     ∧ (broker wf).*2 = [run_tests "uuid-0"]).
Proof. vm_compute. repeat split. by eexists. Qed.

(** ** Pause and resume *)

Lemma update_project_status_frame project_id status error_message now w :
  let w' := (ProjectService.update_project_status project_id status error_message now w).1 in
  tasks w' = tasks w ∧ broker w' = broker w ∧ uuid_counter w' = uuid_counter w
  ∧ (∀ q, q ≠ project_id → projects w' !! q = projects w !! q)
  ∧ match projects w !! project_id with
    | None => w' = w
    | Some _ => project_status w' project_id = Some status
    end.
Proof.
  cbn zeta. unfold ProjectService.update_project_status, ProjectService.get_project.
  destruct (projects w !! project_id) as [p|] eqn:Hp; [|done]. cbn.
  repeat split; try done.
  - intros q Hq. by rewrite lookup_insert_ne.
  - unfold project_status. cbn. rewrite lookup_insert_eq. cbn.
    by repeat case_match.
Qed.

(** C9 (as the code has it).  [resume_project] on a PAUSED project ends the
    pause: the project row is returned with a status that is not PAUSED, a
    status-change event is appended, and that is all; no task row changes and
    nothing is put on the broker, so the resolver/dispatch cycle is not run,
    neither by the service nor by the endpoint that calls it.  On a project
    that is not PAUSED, or missing, nothing at all changes and the endpoint
    answers 404. *)
Theorem C9_resume_leaves_tasks (w : World) (project_id : string) (now : datetime)
    (p : Project) :
  projects w !! project_id = Some p →
  let r := ProjectService.resume_project project_id now w in
  let e := Router.resume_project project_id now w in
  e.1 = r.1
  ∧ tasks r.1 = tasks w ∧ broker r.1 = broker w ∧ enqueued w r.1 = []
  ∧ (∀ q, q ≠ project_id → projects r.1 !! q = projects w !! q)
  ∧ (Project.status p = ProjectStatus.PAUSED →
       ∃ p', r.2 = Some p' ∧ projects r.1 !! project_id = Some p'
             ∧ Project.status p' ≠ ProjectStatus.PAUSED
             ∧ e.2 = inr ("Project resumed", p')
             ∧ ∃ ev, events r.1 = (events w ++ [ev])%list)
  ∧ (Project.status p ≠ ProjectStatus.PAUSED →
       r = (w, None)
       ∧ e.2 = inl (Router.mkHTTPException 404 "Project not found or not paused")).
Proof.
  intros Hp. cbn zeta.
  unfold Router.resume_project, ProjectService.resume_project, ProjectService.get_project.
  rewrite Hp.
  destruct (decide (Project.status p = ProjectStatus.PAUSED)) as [Hs|Hs].
  - rewrite bool_decide_eq_false_2 by (by intros ?).
    unfold ProjectService.update_project_status, ProjectService.get_project.
    rewrite Hp. cbn. unfold enqueued. rewrite drop_all.
    repeat split; try done.
    + intros q Hq. by rewrite lookup_insert_ne.
    + intros _. eexists. split; [done|]. rewrite lookup_insert_eq.
      repeat split; try done. by eexists.
  - rewrite bool_decide_eq_true_2 by done. cbn. unfold enqueued. rewrite drop_all.
    repeat split; try done.
Qed.

Lemma C9_resume_leaves_tasks_witness :
  let w := Demo.single ProjectStatus.PAUSED TaskStatus.PENDING in
  tasks (ProjectService.resume_project "p1" 4%nat w).1 = tasks w
  ∧ broker (ProjectService.resume_project "p1" 4%nat w).1 = broker w.
Proof.
  destruct (C9_resume_leaves_tasks (Demo.single ProjectStatus.PAUSED TaskStatus.PENDING)
              "p1" 4%nat (Demo.project ProjectStatus.PAUSED))
    as (_ & Ht & Hb & _); [reflexivity|].
  split; assumption.
Defined.

(** C9 fails as stated.  A planned project whose status a PATCH request has
    set to TESTING is paused and resumed: it comes back as CODING, not as
    TESTING.  And a planned project is paused, its two codegen agents finish
    and mark their tasks COMPLETED, and the project is resumed through the
    endpoint: the TESTING task, whose dependencies are now all COMPLETED, is
    still PENDING and nothing new is on the broker, where one run of
    [schedule_next_tasks] would have claimed it and invoked the test agent. *)
Lemma C9_counterexample :
  let planned :=
    world_of (on_planning_complete "p1" Demo_spec 1%nat
                (Demo.world ProjectStatus.PLANNING [])) in
  let testing :=
    (ProjectService.update_project_status "p1" ProjectStatus.TESTING None 2%nat planned).1 in
  let back :=
    (Router.resume_project "p1" 4%nat
       (ProjectService.pause_project "p1" 3%nat testing).1).1 in
  let paused := (ProjectService.pause_project "p1" 2%nat planned).1 in
  let done_ :=
    Agent.mark_completed "uuid-1" JNull 4%nat
      (Agent.mark_completed "uuid-0" JNull 3%nat paused) in
  let resumed := (Router.resume_project "p1" 5%nat done_).1 in
  (project_status testing "p1" = Some ProjectStatus.TESTING
   ∧ project_status back "p1" = Some ProjectStatus.CODING)
  ∧ (project_status done_ "p1" = Some ProjectStatus.PAUSED
     ∧ status_of done_ "uuid-2" = Some TaskStatus.PENDING
     ∧ _task_is_ready done_ <$> tasks done_ !! "uuid-2" = Some true
     ∧ status_of resumed "uuid-2" = Some TaskStatus.PENDING
     ∧ enqueued done_ resumed = []
     ∧ status_of (schedule_next_tasks "p1" resumed) "uuid-2" = Some TaskStatus.QUEUED
     ∧ (enqueued resumed (schedule_next_tasks "p1" resumed)).*2 = [run_tests "uuid-2"]).
Proof. vm_compute. repeat split. Qed.

(** ** The retry budget along every execution path *)

Section RetryBudget.

Variable max_retries : Z.

Lemma retry_bounded_same w w' :
  tasks w' = tasks w → retry_bounded max_retries w → retry_bounded max_retries w'.
Proof. unfold retry_bounded. by intros ->. Qed.

Lemma retry_bounded_update_project id f w :
  retry_bounded max_retries w → retry_bounded max_retries (update_project id f w).
Proof. by apply retry_bounded_same. Qed.

Lemma retry_bounded_add_event e w :
  retry_bounded max_retries w → retry_bounded max_retries (add_event e w).
Proof. by apply retry_bounded_same. Qed.

Lemma retry_bounded_update_task id f w :
  (∀ t, Task.retry_count (f t) = Task.retry_count t) →
  retry_bounded max_retries w → retry_bounded max_retries (update_task id f w).
Proof.
  intros Hf Hw j t'. cbn. rewrite lookup_alter.
  destruct (decide (id = j)) as [<-|]; [|apply Hw].
  destruct (tasks w !! id) as [t|] eqn:Ht; [|done]. cbn. intros [= <-].
  rewrite Hf. by eapply Hw.
Qed.

Lemma retry_bounded_schedule_task row w :
  retry_bounded max_retries w → retry_bounded max_retries (_schedule_task row w).
Proof.
  intros Hw. rewrite _schedule_task_unfold.
  destruct (agent_for _); apply (retry_bounded_update_task row.1 (claim _) w); done.
Qed.

Lemma retry_bounded_dispatch_pending rows : ∀ w,
  retry_bounded max_retries w → retry_bounded max_retries (dispatch_pending rows w).
Proof.
  induction rows as [|row rows IH]; intros w Hw; [done|].
  rewrite dispatch_pending_cons. apply IH.
  destruct (_task_is_ready w row.2); [|done]. by apply retry_bounded_schedule_task.
Qed.

Lemma retry_bounded_schedule_next_tasks project_id w :
  retry_bounded max_retries w →
  retry_bounded max_retries (schedule_next_tasks project_id w).
Proof. apply retry_bounded_dispatch_pending. Qed.

Lemma retry_bounded_check project_id now w :
  retry_bounded max_retries w →
  retry_bounded max_retries (_check_project_completion project_id now w).
Proof.
  apply retry_bounded_same.
  by destruct (_check_project_completion_spec project_id now w) as (-> & _).
Qed.

Lemma retry_bounded_on_task_complete task_id output now w :
  retry_bounded max_retries w →
  retry_bounded max_retries (world_of (on_task_complete task_id output now w)).
Proof.
  intros Hw. unfold on_task_complete.
  destruct (tasks w !! task_id) as [t|]; [|done].
  destruct (projects w !! Task.project_id t); [|done]. cbn [world_of].
  apply retry_bounded_check, retry_bounded_schedule_next_tasks.
  by apply retry_bounded_update_project, retry_bounded_update_task.
Qed.

Lemma retry_bounded_on_task_failure task_id error w :
  retry_bounded max_retries w →
  retry_bounded max_retries (world_of (on_task_failure max_retries task_id error w)).
Proof.
  intros Hw. unfold on_task_failure.
  destruct (tasks w !! task_id) as [t|] eqn:Ht; [|done].
  destruct (int (Task.retry_count t)) as [n|] eqn:Hn; [|done].
  destruct (n <? max_retries) eqn:Hlt.
  - apply Z.ltb_lt in Hlt. cbn [world_of].
    apply retry_bounded_update_task; [done|].
    eapply retry_bounded_same; [reflexivity|].
    intros j t'. cbn. rewrite lookup_alter.
    destruct (decide (task_id = j)) as [<-|]; [|apply Hw].
    rewrite Ht. cbn. intros [= <-]. cbn. rewrite int_str. exists (n + 1). split; [done|lia].
  - assert (Hw1 : retry_bounded max_retries
                    (update_task task_id
                       (Task.set_error_message (Some error)
                        ∘ Task.set_status TaskStatus.FAILED) w))
      by (by apply retry_bounded_update_task).
    destruct (projects _ !! _); [|done]. cbn [world_of].
    by apply retry_bounded_update_project.
Qed.

Lemma retry_bounded_run_fixer task_id error attempt now w :
  retry_bounded max_retries w →
  retry_bounded max_retries (Fixer._run_fixer_async task_id error attempt now w).
Proof.
  intros Hw. unfold Fixer._run_fixer_async.
  destruct (tasks w !! task_id) as [t|]; [|done].
  destruct (projects w !! Task.project_id t); [|done].
  destruct attempt.
  - apply retry_bounded_schedule_next_tasks, retry_bounded_update_task; [done|].
    by do 2 apply retry_bounded_add_event.
  - apply retry_bounded_update_task; [done|].
    by do 2 apply retry_bounded_add_event.
Qed.

Lemma retry_bounded_schedule_planning project_id now w :
  0 ≤ max_retries →
  retry_bounded max_retries w →
  retry_bounded max_retries (schedule_planning project_id now w).
Proof.
  intros Hmax Hw. unfold schedule_planning, delay, uuid4. cbn.
  apply retry_bounded_update_task; [done|].
  intros j t'. cbn. rewrite lookup_insert.
  destruct (decide (uuid_name (uuid_counter w) = j)); [|apply Hw].
  intros [= <-]. by exists 0.
Qed.

Lemma retry_bounded_create_project projects_dir prompt user_id stamp now w :
  0 ≤ max_retries →
  retry_bounded max_retries w →
  retry_bounded max_retries (create_project projects_dir prompt user_id stamp now w).1.
Proof.
  intros Hmax Hw. unfold create_project, ProjectService.create_project, uuid4.
  cbn [fst snd]. apply retry_bounded_schedule_planning; [done|].
  by apply retry_bounded_update_project, retry_bounded_add_event.
Qed.

Lemma retry_bounded_on_planning_complete project_id spec now w :
  0 ≤ max_retries →
  retry_bounded max_retries w →
  retry_bounded max_retries (world_of (on_planning_complete project_id spec now w)).
Proof.
  intros Hmax Hw. destruct (projects w !! project_id) as [p|] eqn:Hp.
  - rewrite (on_planning_complete_unfold _ _ _ _ p Hp). cbn [world_of].
    apply retry_bounded_schedule_next_tasks. intros id t. cbn.
    intros [Hin|[_ Hold]]%lookup_union_Some_raw; [|by eapply Hw].
    apply elem_of_list_to_map_2, created_rows_elem in Hin as (_ & _ & -> & _).
    by exists 0.
  - unfold on_planning_complete. by rewrite Hp.
Qed.

Lemma retry_bounded_update_project_status project_id status error_message now w :
  retry_bounded max_retries w →
  retry_bounded max_retries
    (ProjectService.update_project_status project_id status error_message now w).1.
Proof.
  apply retry_bounded_same.
  by destruct (update_project_status_frame project_id status error_message now w) as (-> & _).
Qed.

Lemma retry_bounded_resume project_id now w :
  retry_bounded max_retries w →
  retry_bounded max_retries (ProjectService.resume_project project_id now w).1.
Proof.
  intros Hw. unfold ProjectService.resume_project.
  destruct (ProjectService.get_project project_id w); [|done].
  case_bool_decide; [done|]. by apply retry_bounded_update_project_status.
Qed.

Lemma retry_bounded_core_step w w' :
  0 ≤ max_retries →
  core_step max_retries w w' →
  retry_bounded max_retries w → retry_bounded max_retries w'.
Proof.
  intros Hmax Hstep Hw. destruct Hstep.
  - by apply retry_bounded_create_project.
  - by apply retry_bounded_schedule_planning.
  - by apply retry_bounded_on_planning_complete.
  - by apply retry_bounded_schedule_next_tasks.
  - by apply retry_bounded_on_task_complete.
  - by apply retry_bounded_on_task_failure.
  - by apply retry_bounded_run_fixer.
  - by apply retry_bounded_update_task.
  - by apply retry_bounded_update_task.
  - by apply retry_bounded_update_task.
  - by apply retry_bounded_add_event.
  - by apply retry_bounded_update_project_status.
  - by apply retry_bounded_resume.
Qed.

Lemma retry_bounded_step w w' :
  0 ≤ max_retries →
  step max_retries w w' →
  retry_bounded max_retries w → retry_bounded max_retries w'.
Proof.
  intros Hmax [w'' Hcore|project_id status now] Hw.
  - by eapply retry_bounded_core_step.
  - by apply retry_bounded_update_project_status.
Qed.

Lemma retry_bounded_reachable w0 w :
  0 ≤ max_retries →
  reachable max_retries w0 w →
  retry_bounded max_retries w0 → retry_bounded max_retries w.
Proof.
  intros Hmax Hreach Hw0. induction Hreach as [|w w' _ IH Hstep]; [done|].
  by eapply retry_bounded_step.
Qed.

End RetryBudget.

(** C5. A failure reported for an existing task whose retry counter reads [n]
    with [n >= max_retries] is handled normally: the task becomes FAILED with
    the error recorded, no fix is requested, the owning project's failed-task
    counter goes up by one and the project becomes FAILED with the error in
    its last-error text; nothing else in the two tables changes.  And with a
    non-negative budget the counter of no task ever exceeds it: the bound
    holds in the empty world, every move of the back end preserves it, and so
    it holds in every world an execution reaches. *)
Theorem C5_exhausted_and_bounded (max_retries : Z) :
  (∀ (w : World) (task_id error : string) (t : Task) (n : Z) (p : Project),
     tasks w !! task_id = Some t →
     int (Task.retry_count t) = Some n →
     max_retries ≤ n →
     projects w !! Task.project_id t = Some p →
     ∃ w',
       on_task_failure max_retries task_id error w = Ok w'
       ∧ tasks w' = <[task_id := Task.set_error_message (Some error)
                                   (Task.set_status TaskStatus.FAILED t)]> (tasks w)
       ∧ projects w'
         = <[Task.project_id t :=
               Project.set_last_error
                 (Some ("Task " ++ Task.name t ++ " failed: " ++ error))
                 (Project.set_status ProjectStatus.FAILED
                    (Project.set_failed_tasks (Project.failed_tasks p + 1) p))]>
             (projects w)
       ∧ enqueued w w' = [])
  ∧ (0 ≤ max_retries →
       retry_bounded max_retries empty_world
       ∧ (∀ w w', step max_retries w w' →
                  retry_bounded max_retries w → retry_bounded max_retries w')
       ∧ (∀ w, reachable max_retries empty_world w → retry_bounded max_retries w)).
Proof.
  split.
  - intros w task_id error t n p Ht Hn Hge Hp. unfold on_task_failure.
    rewrite Ht, Hn. rewrite (proj2 (Z.ltb_ge _ _) Hge).
    unfold update_task, update_project, set_tasks, set_projects. cbn. rewrite Hp.
    eexists. split; [done|]. cbn. unfold enqueued. cbn. rewrite drop_all.
    repeat split.
    + by rewrite (alter_Some _ _ _ t Ht).
    + by rewrite (alter_Some _ _ _ p Hp).
  - intros Hmax.
    assert (Hempty : retry_bounded max_retries empty_world).
    { intros id t. cbn. by rewrite lookup_empty. }
    split; [done|split].
    + intros w w'. by apply retry_bounded_step.
    + intros w Hreach. by eapply retry_bounded_reachable.
Qed.

Lemma C5_exhausted_and_bounded_witness :
  (∃ w', on_task_failure 2 "a" "boom" Demo.graph = Ok w'
         ∧ status_of w' "a" = Some TaskStatus.FAILED
         ∧ project_status w' "p1" = Some ProjectStatus.FAILED)
  ∧ retry_bounded 2
      (create_project "/app/projects" "build a todo app" "system" "20240101-120000"
         1%nat empty_world).1.
Proof.
  destruct (C5_exhausted_and_bounded 2) as [Hfail Hbound]. split.
  - destruct (Hfail Demo.graph "a" "boom"
                (Demo.task TaskType.CODEGEN TaskStatus.QUEUED None "2") 2
                (Demo.project ProjectStatus.CODING))
      as (w' & Hok & Ht & Hp & _); [reflexivity|reflexivity|lia|reflexivity|].
    exists w'. unfold status_of, project_status.
    rewrite Ht, Hp, !lookup_insert_eq. repeat split; assumption || reflexivity.
  - destruct Hbound as (_ & _ & Hreach); [lia|]. apply Hreach.
    eapply reachable_step; [apply reachable_refl|].
    apply step_core, cs_create_project.
Defined.


(** ** Who assigns READY *)

Lemma project_status_same w w' q :
  projects w' = projects w → project_status w' q = project_status w q.
Proof. unfold project_status. by intros ->. Qed.

Lemma schedule_next_tasks_projects project_id w :
  projects (schedule_next_tasks project_id w) = projects w.
Proof. by destruct (schedule_next_tasks_spec project_id w) as (-> & _). Qed.

Lemma on_task_complete_ready task_id output now w q :
  project_status (world_of (on_task_complete task_id output now w)) q
    = Some ProjectStatus.READY →
  project_status w q = Some ProjectStatus.READY
  ∨ all_tasks_completed q (world_of (on_task_complete task_id output now w)).
Proof.
  unfold on_task_complete.
  destruct (tasks w !! task_id) as [t|]; [|by left].
  destruct (projects w !! Task.project_id t) as [p|] eqn:Hp; [|by left].
  cbn [world_of].
  set (w1 := update_project _ _ (update_task _ _ w)).
  set (w2 := schedule_next_tasks (Task.project_id t) w1).
  unfold project_status at 1.
  destruct (projects (_check_project_completion _ now w2) !! q) as [p'|] eqn:Hq; [|done].
  cbn. intros [= Hs].
  destruct (_check_project_completion_counters _ _ _ _ _ Hq)
    as (p2 & Hp2 & _ & _ & _ & [Hsame|(_ & -> & Hall)]).
  - left. unfold project_status. subst w2. rewrite schedule_next_tasks_projects in Hp2.
    subst w1. cbn in Hp2. rewrite lookup_alter in Hp2.
    destruct (decide (Task.project_id t = q)) as [<-|].
    + rewrite Hp in *. cbn in *. simplify_eq. cbn in *. by rewrite <- Hs, Hsame.
    + rewrite Hp2. cbn. by rewrite <- Hs, Hsame.
  - right. unfold all_tasks_completed.
    destruct (_check_project_completion_spec (Task.project_id t) now w2) as (-> & _).
    done.
Qed.

Lemma on_task_failure_ready max_retries task_id error w q :
  project_status (world_of (on_task_failure max_retries task_id error w)) q
    = Some ProjectStatus.READY →
  project_status w q = Some ProjectStatus.READY.
Proof.
  unfold on_task_failure.
  destruct (tasks w !! task_id) as [t|]; [|done].
  destruct (int (Task.retry_count t)) as [n|]; [|done].
  destruct (n <? max_retries); [done|].
  unfold project_status, update_task, update_project, set_tasks, set_projects. cbn.
  destruct (projects w !! Task.project_id t) as [p|] eqn:Hp; [|done]. cbn.
  rewrite lookup_alter. destruct (decide (Task.project_id t = q)) as [<-|]; [|done].
  by rewrite Hp.
Qed.

Lemma on_planning_complete_ready project_id spec now w q :
  project_status (world_of (on_planning_complete project_id spec now w)) q
    = Some ProjectStatus.READY →
  project_status w q = Some ProjectStatus.READY.
Proof.
  destruct (projects w !! project_id) as [p|] eqn:Hp.
  - rewrite (on_planning_complete_unfold _ _ _ _ p Hp). cbn [world_of].
    unfold project_status. rewrite schedule_next_tasks_projects. cbn.
    rewrite lookup_insert. by destruct (decide (project_id = q)).
  - unfold on_planning_complete. by rewrite Hp.
Qed.

Lemma run_fixer_projects task_id error attempt now w :
  projects (Fixer._run_fixer_async task_id error attempt now w) = projects w.
Proof.
  unfold Fixer._run_fixer_async.
  destruct (tasks w !! task_id) as [t|]; [|done].
  destruct (projects w !! Task.project_id t); [|done].
  destruct attempt; [|done]. by rewrite schedule_next_tasks_projects.
Qed.

Lemma update_project_status_ready project_id status now w q :
  status ≠ ProjectStatus.READY →
  project_status (ProjectService.update_project_status project_id status None now w).1 q
    = Some ProjectStatus.READY →
  project_status w q = Some ProjectStatus.READY.
Proof.
  intros Hne.
  destruct (update_project_status_frame project_id status None now w)
    as (_ & _ & _ & Hother & Hself).
  destruct (decide (q = project_id)) as [->|Hq].
  - destruct (projects w !! project_id); [|by rewrite Hself].
    rewrite Hself. by intros [= ?].
  - unfold project_status. by rewrite Hother.
Qed.

Lemma create_project_ready projects_dir prompt user_id stamp now w q :
  project_status (create_project projects_dir prompt user_id stamp now w).1 q
    = Some ProjectStatus.READY →
  project_status w q = Some ProjectStatus.READY.
Proof.
  unfold create_project, ProjectService.create_project, uuid4, project_status.
  cbn. destruct (decide (uuid_name (uuid_counter w) = q)) as [<-|Hq].
  - by rewrite lookup_alter_eq, lookup_insert_eq.
  - by rewrite lookup_alter_ne, lookup_insert_ne.
Qed.

(** C7. The terminal check assigns READY exactly when every task of the
    project is COMPLETED: if so the project row gets status READY and the
    completion time, and if not the world is left as it is; it never touches
    a task.  And no move of the orchestration core (its handlers, the fixer,
    the agents' writes, project submission, pause and resume) turns a project
    READY unless every
    task of that project is COMPLETED in the world the move produces. *)
Theorem C7_ready_iff_all_completed (max_retries : Z) :
  (∀ (w : World) (project_id : string) (now : datetime) (p : Project),
     projects w !! project_id = Some p →
     let w' := _check_project_completion project_id now w in
     tasks w' = tasks w
     ∧ (all_tasks_completed project_id w →
          projects w' !! project_id
          = Some (Project.set_completed_at (Some now)
                    (Project.set_status ProjectStatus.READY p))
          ∧ project_status w' project_id = Some ProjectStatus.READY)
     ∧ (¬ all_tasks_completed project_id w → w' = w))
  ∧ (∀ (w w' : World) (project_id : string),
       core_step max_retries w w' →
       project_status w' project_id = Some ProjectStatus.READY →
       project_status w project_id = Some ProjectStatus.READY
       ∨ all_tasks_completed project_id w').
Proof.
  split.
  - intros w project_id now p Hp. cbn zeta.
    destruct (_check_project_completion_spec project_id now w) as (Ht & _ & _ & Hc).
    rewrite Hp in Hc. destruct Hc as [Hall Hnot]. split; [done|]. split; [|done].
    intros Ha. unfold project_status. rewrite (Hall Ha), lookup_insert_eq. done.
  - intros w w' project_id Hstep.
    destruct Hstep; try (intros H; left; exact H).
    + intros H. left. by eapply create_project_ready.
    + intros H. left. by eapply on_planning_complete_ready.
    + rewrite (project_status_same w); [by left|apply schedule_next_tasks_projects].
    + apply on_task_complete_ready.
    + intros H. left. by eapply on_task_failure_ready.
    + rewrite (project_status_same w); [by left|apply run_fixer_projects].
    + intros H. left.
      by apply (update_project_status_ready project_id0 ProjectStatus.PAUSED now w).
    + intros H. left. revert H. unfold ProjectService.resume_project.
      destruct (ProjectService.get_project _ w); [|done].
      case_bool_decide; [done|].
      by apply (update_project_status_ready project_id0 ProjectStatus.CODING now w).
Qed.

Lemma C7_ready_iff_all_completed_witness :
  let w := Demo.single ProjectStatus.CODING TaskStatus.COMPLETED in
  project_status (_check_project_completion "p1" 9%nat w) "p1" = Some ProjectStatus.READY
  ∧ _check_project_completion "p1" 9%nat Demo.graph = Demo.graph.
Proof.
  destruct (C7_ready_iff_all_completed 2) as [Hcheck _]. split.
  - destruct (Hcheck (Demo.single ProjectStatus.CODING TaskStatus.COMPLETED) "p1" 9%nat
                (Demo.project ProjectStatus.CODING)) as (_ & Hall & _); [reflexivity|].
    apply Hall. intros id t Hl _.
    destruct (decide (id = "a")) as [->|Hne].
    + cbn in Hl. by injection Hl as <-.
    + cbn in Hl. rewrite lookup_insert_ne in Hl by done. by rewrite lookup_empty in Hl.
  - destruct (Hcheck Demo.graph "p1" 9%nat (Demo.project ProjectStatus.CODING))
      as (_ & _ & Hnot); [reflexivity|].
    apply Hnot. intros Hall.
    specialize (Hall "a" (Demo.task TaskType.CODEGEN TaskStatus.QUEUED None "2")).
    discriminate Hall; reflexivity.
Defined.

(** * Further properties of the code *)

(** ** The dispatch loop leaves nothing ready behind *)

Lemma schedule_next_tasks_completed project_id w d :
  completed (schedule_next_tasks project_id w) d = completed w d.
Proof.
  destruct (schedule_next_tasks_spec project_id w) as (_ & _ & _ & _ & Hrows).
  specialize (Hrows d). unfold completed.
  destruct (tasks w !! d) as [t|] eqn:Ht; [|by rewrite Hrows].
  destruct (bool_decide _) eqn:Hsel; cbn [andb] in Hrows; [|by rewrite Hrows].
  destruct (_task_is_ready w t); [|by rewrite Hrows].
  destruct Hrows as (h & -> & _). apply bool_decide_eq_true in Hsel as [_ Hs].
  rewrite claim_status, Hs. done.
Qed.

Lemma dispatch_pending_none_ready rows w :
  (∀ row, row ∈ rows → _task_is_ready w row.2 = false) →
  dispatch_pending rows w = w.
Proof.
  induction rows as [|row rows IH]; intros Hrows; [done|].
  rewrite dispatch_pending_cons, (Hrows row) by left.
  apply IH. intros r Hr. apply Hrows. by right.
Qed.

(** X1. When [schedule_next_tasks] returns, no task of the project is ready
    any more: each of its tasks is either not PENDING or has a dependency that
    is missing or not COMPLETED.  A second run right after the first therefore
    changes nothing at all. *)
Theorem schedule_next_tasks_drains (w : World) (project_id : string) :
  let w' := schedule_next_tasks project_id w in
  (∀ id t, tasks w' !! id = Some t → Task.project_id t = project_id → ¬ ready w' t)
  ∧ schedule_next_tasks project_id w' = w'.
Proof.
  cbn zeta.
  assert (Hdrain : ∀ id t, tasks (schedule_next_tasks project_id w) !! id = Some t →
            Task.project_id t = project_id →
            ¬ ready (schedule_next_tasks project_id w) t).
  { intros id t Hl Hp Hready.
    destruct (schedule_next_tasks_spec project_id w) as (_ & _ & _ & _ & Hrows).
    specialize (Hrows id). destruct (tasks w !! id) as [t0|] eqn:Ht0; [|congruence].
    assert (Hext : ∀ x, _task_is_ready (schedule_next_tasks project_id w) x
                        = _task_is_ready w x).
    { intros x. apply _task_is_ready_ext. intros d.
      apply schedule_next_tasks_completed. }
    apply ready_iff_code in Hready as [Hs Hr]. rewrite Hext in Hr.
    destruct (bool_decide _) eqn:Hsel; cbn [andb] in Hrows.
    - destruct (_task_is_ready w t0) eqn:Hr0.
      + destruct Hrows as (h & Hl' & _). rewrite Hl in Hl'. injection Hl' as ->.
        by rewrite claim_status in Hs.
      + rewrite Hl in Hrows. injection Hrows as ->. congruence.
    - rewrite Hl in Hrows. injection Hrows as ->.
      apply bool_decide_eq_false in Hsel. by apply Hsel. }
  split; [done|].
  unfold schedule_next_tasks at 1. apply dispatch_pending_none_ready.
  intros [id t] (Hl & Hp & Hs)%select_pending_elem. cbn [fst snd] in *.
  destruct (_task_is_ready (schedule_next_tasks project_id w) t) eqn:Hr; [|done].
  exfalso. apply (Hdrain id t Hl Hp). by apply ready_iff_code.
Qed.

(** ** The last completion finishes the project *)

(** X2. [on_task_complete] for a task of an existing project ends with the
    project READY, stamped with the completion time, exactly when every other
    task of the project is COMPLETED by then, whatever the project's status was
    (FAILED and PAUSED included); when some other task is not COMPLETED the
    project keeps the status it had. *)
Theorem on_task_complete_finishes_project (w : World) (task_id : string)
    (output : json) (now : datetime) (t : Task) (p : Project) :
  tasks w !! task_id = Some t →
  projects w !! Task.project_id t = Some p →
  let others_completed :=
    ∀ id t', tasks w !! id = Some t' → Task.project_id t' = Task.project_id t →
             id ≠ task_id → Task.status t' = TaskStatus.COMPLETED in
  ∃ w' p',
    on_task_complete task_id output now w = Ok w'
    ∧ projects w' !! Task.project_id t = Some p'
    ∧ (others_completed →
         Project.status p' = ProjectStatus.READY
         ∧ Project.completed_at p' = Some now
         ∧ all_tasks_completed (Task.project_id t) w')
    ∧ (¬ others_completed →
         Project.status p' = Project.status p
         ∧ Project.completed_at p' = Project.completed_at p).
Proof.
  intros Ht Hp. cbn zeta. unfold on_task_complete. rewrite Ht, Hp.
  set (pid := Task.project_id t) in *.
  set (t1 := Task.set_output_data (Some output)
               (Task.set_completed_at (Some now)
                  (Task.set_status TaskStatus.COMPLETED t))).
  set (p1 := Project.set_completed_tasks (Project.completed_tasks p + 1) p).
  set (w1 := update_project _ _ (update_task _ _ w)).
  assert (Htasks1 : tasks w1 = <[task_id := t1]> (tasks w)).
  { subst w1. cbn. by rewrite (alter_Some _ _ _ t Ht). }
  assert (Hp1 : projects w1 !! pid = Some p1).
  { subst w1. cbn. by rewrite lookup_alter_eq, Hp. }
  set (w2 := schedule_next_tasks pid w1).
  assert (Hp2 : projects w2 !! pid = Some p1).
  { subst w2. by rewrite schedule_next_tasks_projects. }
  assert (Hall : all_tasks_completed pid w2 ↔
                 ∀ id t', tasks w !! id = Some t' → Task.project_id t' = pid →
                          id ≠ task_id → Task.status t' = TaskStatus.COMPLETED).
  { unfold all_tasks_completed. split.
    - intros H id t' Hl Hpid Hne.
      assert (Hl1 : tasks w1 !! id = Some t') by (by rewrite Htasks1, lookup_insert_ne).
      destruct (schedule_next_tasks_row pid w1 id t' Hl1) as [Hyes Hno].
      destruct (ready_decidable w1 t') as [Hr|Hr].
      + destruct Hyes as (h & Hl2 & _); [done|].
        specialize (H id _ Hl2). rewrite claim_status in H.
        discriminate H. by destruct h.
      + apply (H id); [|done]. apply Hno. by intros [_ ?].
    - intros H id t' Hl2 Hpid.
      destruct (tasks w1 !! id) as [t0|] eqn:Hl1.
      + assert (Hs0 : Task.project_id t0 = pid → Task.status t0 = TaskStatus.COMPLETED).
        { intros Hp0. rewrite Htasks1 in Hl1.
          destruct (decide (task_id = id)) as [<-|Hne].
          - rewrite lookup_insert_eq in Hl1. by injection Hl1 as <-.
          - rewrite lookup_insert_ne in Hl1 by done. by apply (H id). }
        destruct (schedule_next_tasks_row pid w1 id t0 Hl1) as [Hyes Hno].
        unfold w2 in Hl2. rewrite Hno in Hl2.
        * injection Hl2 as <-. by apply Hs0.
        * intros [Hp0 [Hs _]]. rewrite (Hs0 Hp0) in Hs. done.
      + destruct (schedule_next_tasks_spec pid w1) as (_ & _ & _ & _ & Hrows).
        specialize (Hrows id). rewrite Hl1 in Hrows. subst w2. congruence. }
  destruct (_check_project_completion_spec pid now w2) as (Htasks & _ & _ & Hcheck).
  rewrite Hp2 in Hcheck. destruct Hcheck as [Hyes Hno].
  destruct (decide (forallb (fun row : string * Task =>
                      bool_decide (Task.status row.2 = TaskStatus.COMPLETED))
                    (filter (fun row => Task.project_id row.2 = pid)
                            (map_to_list (tasks w2))) = true)) as [Hc|Hc];
    rewrite all_complete_spec in Hc.
  - eexists _, _. split; [done|]. rewrite (Hyes Hc), lookup_insert_eq.
    split; [done|]. split.
    + intros _. split; [done|]. split; [done|].
      unfold all_tasks_completed. by rewrite Htasks.
    + intros Hn. exfalso. by apply Hn, Hall.
  - eexists _, _. split; [done|]. rewrite (Hno Hc), Hp2. split; [done|]. split.
    + intros Ho. exfalso. by apply Hc, Hall.
    + done.
Qed.

Lemma on_task_complete_finishes_project_witness :
  let w := Demo.single ProjectStatus.PAUSED TaskStatus.RUNNING in
  let others_completed :=
    ∀ id t', tasks w !! id = Some t' → Task.project_id t' = "p1" →
             id ≠ "a" → Task.status t' = TaskStatus.COMPLETED in
  ∃ w' p',
    on_task_complete "a" JNull 9%nat w = Ok w'
    ∧ projects w' !! "p1" = Some p'
    ∧ (others_completed →
         Project.status p' = ProjectStatus.READY
         ∧ Project.completed_at p' = Some 9%nat
         ∧ all_tasks_completed "p1" w')
    ∧ (¬ others_completed →
         Project.status p' = ProjectStatus.PAUSED
         ∧ Project.completed_at p' = None).
Proof.
  apply (on_task_complete_finishes_project
           (Demo.single ProjectStatus.PAUSED TaskStatus.RUNNING) "a" JNull 9%nat
           (Demo.task TaskType.CODEGEN TaskStatus.RUNNING None "0")
           (Demo.project ProjectStatus.PAUSED)); reflexivity.
Defined.

(** ** Lookup guards of the planning callback *)



(** ** What planning completion starts *)

Lemma created_rows_not_completed project_id spec now w (m : gmap string Task)
    (v : World) id :
  tasks v = list_to_map (created_rows project_id spec now w) ∪ m →
  id ∈ (created_rows project_id spec now w).*1 →
  completed v id = false.
Proof.
  intros Hv Hin. apply list_elem_of_fmap in Hin as ([id0 t] & -> & Hin). cbn [fst].
  unfold completed.
  rewrite Hv, (created_lookup _ _ _ t (created_rows_NoDup _ _ _ _) Hin).
  destruct (created_rows_elem _ _ _ _ _ _ Hin) as (_ & -> & _). done.
Qed.

(** X4. The dispatch run that ends [on_planning_complete] starts all code
    generation at once: every CODEGEN task the handler created ends QUEUED
    with the handle of a [run_codegen] call for it on the broker.  The
    DEPLOYMENT task stays PENDING, and so does the TESTING task, unless the
    specification declares no component: then its dependency list is empty
    and it is dispatched to [run_tests] in the same run. *)
Theorem on_planning_complete_dispatch (w : World) (project_id : string)
    (spec : gmap string json) (now : datetime) (p : Project) :
  projects w !! project_id = Some p →
  let rows := created_rows project_id spec now w in
  let wf := world_of (on_planning_complete project_id spec now w) in
  ∀ id t, (id, t) ∈ rows →
    match Task.type t with
    | TaskType.CODEGEN =>
        ∃ h, tasks wf !! id = Some (claim (Some h) t)
             ∧ (h, run_codegen id) ∈ enqueued w wf
    | TaskType.TESTING =>
        if decide (declared spec = [])
        then ∃ h, tasks wf !! id = Some (claim (Some h) t)
                  ∧ (h, run_tests id) ∈ enqueued w wf
        else tasks wf !! id = Some t
    | _ => tasks wf !! id = Some t
    end.
Proof.
  intros Hp. cbn zeta. intros id t Hin.
  rewrite (on_planning_complete_unfold _ _ _ _ p Hp). cbn [world_of].
  set (rows := created_rows project_id spec now w) in *.
  match goal with |- context [schedule_next_tasks _ ?v] => set (w2 := v) end.
  assert (Hnd : NoDup rows.*1) by apply created_rows_NoDup.
  assert (Hl2 : tasks w2 !! id = Some t) by (by apply created_lookup).
  assert (Henq : enqueued w (schedule_next_tasks project_id w2)
                 = enqueued w2 (schedule_next_tasks project_id w2)) by done.
  rewrite Henq.
  destruct (created_rows_elem _ _ _ _ _ _ Hin)
    as (Hpid & Hst & _ & Hcode & Htest & Hdep & Hty).
  fold rows in Htest, Hdep.
  destruct (schedule_next_tasks_row project_id w2 id t Hl2) as [Hyes Hno].
  assert (Hcodes : component_of <$> (filter (fun row : string * Task =>
                      Task.type row.2 = TaskType.CODEGEN) rows).*2
                   = Some <$> declared spec).
  { destruct (spec_tasks_facts project_id spec now) as (_ & Hcomp & _).
    rewrite <- Hcomp. f_equal. unfold rows, created_rows.
    rewrite link_dependencies_codegen. apply created_rows_tasks. }
  assert (Hwait : ∀ d deps, Task.depends_on t = Some deps → d ∈ deps → d ∈ rows.*1 →
                            tasks (schedule_next_tasks project_id w2) !! id = Some t).
  { intros d deps Hdeps Hd Hdrows. apply Hno. intros [_ [_ Hr]].
    destruct (Hr d) as (dep & Hdl & Hds).
    { unfold deps_of. by rewrite Hdeps. }
    pose proof (created_rows_not_completed project_id spec now w (tasks w) w2 d
                  eq_refl Hdrows) as Hc.
    unfold completed in Hc. rewrite Hdl, Hds in Hc. done. }
  assert (Hids : ∀ ty d, d ∈ ids_of_type ty rows → d ∈ rows.*1).
  { intros ty d (t0 & Hd & _)%ids_of_type_elem.
    apply list_elem_of_fmap. by exists (d, t0). }
  destruct (Task.type t) eqn:Etype;
    try (destruct Hty as [?|[?|?]]; discriminate).
  - (* CODEGEN *)
    destruct Hyes as (h & Hl & Hcall).
    { split; [done|]. split; [done|]. intros d Hd.
      unfold deps_of in Hd. rewrite (Hcode eq_refl) in Hd. by apply elem_of_nil in Hd. }
    cbn in Hcall. destruct Hcall as (h' & -> & Hcall).
    by exists h'.
  - (* TESTING *)
    specialize (Htest eq_refl).
    destruct (decide (declared spec = [])) as [Hnone|Hsome].
    + assert (Hnil : ids_of_type TaskType.CODEGEN rows = []).
      { rewrite Hnone in Hcodes. apply fmap_nil_inv in Hcodes.
        apply fmap_nil_inv in Hcodes. unfold ids_of_type. by rewrite Hcodes. }
      destruct Hyes as (h & Hl & Hcall).
      { split; [done|]. split; [done|]. intros d Hd.
        unfold deps_of in Hd. rewrite Htest, Hnil in Hd. by apply elem_of_nil in Hd. }
      cbn in Hcall. destruct Hcall as (h' & -> & Hcall).
      by exists h'.
    + destruct (ids_of_type TaskType.CODEGEN rows) as [|d ds] eqn:Hcs.
      * exfalso. apply Hsome. unfold ids_of_type in Hcs.
        apply fmap_nil_inv in Hcs. rewrite Hcs in Hcodes. cbn in Hcodes.
        symmetry in Hcodes. by apply fmap_nil_inv in Hcodes.
      * apply (Hwait d _ Htest); [left|]. apply (Hids TaskType.CODEGEN).
        rewrite Hcs. left.
  - (* DEPLOYMENT *)
    specialize (Hdep eq_refl).
    pose proof (ids_of_type_length project_id spec now w TaskType.TESTING) as Hlen.
    destruct (spec_tasks_facts project_id spec now) as (_ & _ & Hone & _).
    rewrite Hone in Hlen. fold rows in Hlen.
    destruct (ids_of_type TaskType.TESTING rows) as [|d ds] eqn:Hts; [done|].
    apply (Hwait d _ Hdep); [left|]. apply (Hids TaskType.TESTING). rewrite Hts. left.
Qed.

Lemma on_planning_complete_dispatch_witness :
  let w := Demo.world ProjectStatus.NEW [] in
  let wf := world_of (on_planning_complete "p1" Demo_spec 3%nat w) in
  ∃ h, tasks wf !! uuid_name 0
       = Some (claim (Some h)
                 (Task.new "p1" "Generate Backend Code" "Generate backend application code"
                    TaskType.CODEGEN TaskStatus.PENDING
                    (Some (JDict [("component", JStr "backend");
                                  ("spec", JDict [("framework", JStr "fastapi")])]))
                    None 3%nat))
       ∧ (h, run_codegen (uuid_name 0)) ∈ enqueued w wf.
Proof.
  apply (on_planning_complete_dispatch (Demo.world ProjectStatus.NEW []) "p1"
           Demo_spec 3%nat (Demo.project ProjectStatus.NEW) eq_refl (uuid_name 0)
           (Task.new "p1" "Generate Backend Code" "Generate backend application code"
              TaskType.CODEGEN TaskStatus.PENDING
              (Some (JDict [("component", JStr "backend");
                            ("spec", JDict [("framework", JStr "fastapi")])]))
              None 3%nat)).
  vm_compute. left.
Defined.

(** ** The execution agents *)

Lemma on_task_failure_within max_retries w task_id error t n :
  tasks w !! task_id = Some t →
  int (Task.retry_count t) = Some n →
  n < max_retries →
  on_task_failure max_retries task_id error w
  = Ok (mkWorld
          (<[task_id := Task.set_celery_task_id (Some (uuid_name (uuid_counter w)))
                          (Task.set_error_message (Some error)
                             (Task.set_retry_count (str (n + 1))
                                (Task.set_status TaskStatus.RETRYING t)))]> (tasks w))
          (projects w) (events w)
          (broker w ++ [(uuid_name (uuid_counter w), run_fixer task_id error)])
          (S (uuid_counter w))).
Proof.
  intros Ht Hn Hlt. unfold on_task_failure. rewrite Ht, Hn.
  rewrite (proj2 (Z.ltb_lt _ _) Hlt). cbn zeta.
  unfold delay, uuid4, update_task, set_tasks. cbn.
  rewrite (alter_Some _ _ _ t Ht).
  rewrite (alter_Some _ _ _ _ (lookup_insert_eq _ _ _)).
  by rewrite insert_insert_eq.
Qed.

Lemma on_task_failure_exhausted max_retries w task_id error t n p :
  tasks w !! task_id = Some t →
  int (Task.retry_count t) = Some n →
  max_retries ≤ n →
  projects w !! Task.project_id t = Some p →
  on_task_failure max_retries task_id error w
  = Ok (mkWorld
          (<[task_id := Task.set_error_message (Some error)
                          (Task.set_status TaskStatus.FAILED t)]> (tasks w))
          (<[Task.project_id t :=
               Project.set_last_error
                 (Some ("Task " ++ Task.name t ++ " failed: " ++ error))
                 (Project.set_status ProjectStatus.FAILED
                    (Project.set_failed_tasks (Project.failed_tasks p + 1) p))]>
             (projects w))
          (events w) (broker w) (uuid_counter w)).
Proof.
  intros Ht Hn Hge Hp. unfold on_task_failure. rewrite Ht, Hn.
  rewrite (proj2 (Z.ltb_ge _ _) Hge).
  unfold update_task, update_project, set_tasks, set_projects. cbn. rewrite Hp.
  by rewrite (alter_Some _ _ _ t Ht), (alter_Some _ _ _ p Hp).
Qed.

Lemma on_task_complete_present task_id output now w t p :
  tasks w !! task_id = Some t →
  projects w !! Task.project_id t = Some p →
  ∃ w',
    on_task_complete task_id output now w = Ok w'
    ∧ tasks w' !! task_id
      = Some (Task.set_output_data (Some output)
                (Task.set_completed_at (Some now)
                   (Task.set_status TaskStatus.COMPLETED t)))
    ∧ (∃ p', projects w' !! Task.project_id t = Some p'
             ∧ Project.completed_tasks p' = Project.completed_tasks p + 1)
    ∧ events w' = events w.
Proof.
  intros Ht Hp. unfold on_task_complete. rewrite Ht, Hp.
  eexists. split; [done|].
  set (t1 := Task.set_output_data (Some output)
               (Task.set_completed_at (Some now)
                  (Task.set_status TaskStatus.COMPLETED t))).
  set (w1 := update_project _ _ (update_task _ _ w)).
  assert (Hl1 : tasks w1 !! task_id = Some t1).
  { subst w1. cbn. by rewrite lookup_alter_eq, Ht. }
  assert (Hp1 : projects w1 !! Task.project_id t
                = Some (Project.set_completed_tasks (Project.completed_tasks p + 1) p)).
  { subst w1. cbn. by rewrite lookup_alter_eq, Hp. }
  set (w2 := schedule_next_tasks (Task.project_id t) w1).
  destruct (schedule_next_tasks_spec (Task.project_id t) w1) as (Hps & Hes & _).
  fold w2 in Hps, Hes.
  destruct (schedule_next_tasks_row (Task.project_id t) w1 task_id t1 Hl1) as [_ Hno].
  fold w2 in Hno.
  destruct (_check_project_completion_spec (Task.project_id t) now w2)
    as (Htasks & Hevents & _ & _).
  split; [|split].
  - rewrite Htasks. apply Hno. by intros [_ [? _]].
  - destruct (projects (_check_project_completion (Task.project_id t) now w2)
                !! Task.project_id t) as [p'|] eqn:Hp'.
    + exists p'. split; [done|].
      destruct (_check_project_completion_counters _ _ _ _ _ Hp')
        as (p2 & Hp2 & Hc & _).
      rewrite Hps, Hp1 in Hp2. injection Hp2 as <-. by rewrite Hc.
    + exfalso.
      destruct (_check_project_completion_spec (Task.project_id t) now w2)
        as (_ & _ & _ & Hcheck).
      rewrite Hps, Hp1 in Hcheck. destruct Hcheck as [Hyes Hno'].
      destruct (decide (forallb (fun row : string * Task =>
                          bool_decide (Task.status row.2 = TaskStatus.COMPLETED))
                        (filter (fun row => Task.project_id row.2 = Task.project_id t)
                                (map_to_list (tasks w2))) = true)) as [Hc|Hc];
        rewrite all_complete_spec in Hc.
      * rewrite (Hyes Hc), lookup_insert_eq in Hp'. done.
      * rewrite (Hno' Hc), Hps, Hp1 in Hp'. done.
  - by rewrite Hevents, Hes.
Qed.

(** X5. A code generation run whose work went through, for a task whose
    project exists, cannot fall into its own [except] block: the completion
    callback does not raise, the run returns the success dictionary, the task
    ends COMPLETED with the start and completion times and the list of files as
    output, the project's completed-task counter is one higher, and exactly two
    events are appended, TASK_STARTED and CODE_GENERATED, the latter with at
    most the first ten paths. *)
Theorem codegen_generated (max_retries : Z) (str_exn : Exn → World → string)
    (w : World) (task_id : string) (files_created : list string)
    (now later : datetime) (t : Task) (p : Project) :
  tasks w !! task_id = Some t →
  projects w !! Task.project_id t = Some p →
  let output := JDict [("files_created", JList (JStr <$> files_created))] in
  let r := Codegen._run_codegen_async max_retries str_exn task_id
             (Codegen.Generated files_created) now later w in
  r.2 = inr (JDict [("success", JBool true);
                    ("files_created", JList (JStr <$> files_created))])
  ∧ tasks r.1 !! task_id
    = Some (Task.set_output_data (Some output)
              (Task.set_completed_at (Some later)
                 (Task.set_started_at (Some now)
                    (Task.set_status TaskStatus.COMPLETED t))))
  ∧ (∃ p', projects r.1 !! Task.project_id t = Some p'
           ∧ Project.completed_tasks p' = Project.completed_tasks p + 1)
  ∧ ∃ details,
      events r.1
      = (events w
         ++ [Event.mk (Task.project_id t) EventType.TASK_STARTED EventLevel.INFO
               ("Code generation started for " ++ Task.name t)
               None (Some "codegen") (Some task_id) now;
             Event.mk (Task.project_id t) EventType.CODE_GENERATED EventLevel.INFO
               ("Code generated: " ++ str (Z.of_nat (length files_created))
                  ++ " files created")
               (Some (JDict [("files", JList (JStr <$> details))]))
               (Some "codegen") (Some task_id) later])%list
      ∧ details `prefix_of` files_created ∧ (length details ≤ 10)%nat.
Proof.
  intros Ht Hp. cbn zeta. unfold Codegen._run_codegen_async. rewrite Ht, Hp.
  match goal with
  | |- context [on_task_complete task_id ?o later ?v] => set (w3 := v); set (output := o)
  end.
  set (t3 := Task.set_output_data (Some output)
               (Task.set_completed_at (Some later)
                  (Task.set_status TaskStatus.COMPLETED
                     (Task.set_started_at (Some now)
                        (Task.set_status TaskStatus.RUNNING t))))).
  assert (Hl3 : tasks w3 !! task_id = Some t3).
  { subst w3.
    unfold Agent.mark_completed, Agent.mark_running, update_task, set_tasks, add_event.
    cbn [tasks].
    rewrite (alter_Some _ _ _ t Ht), (alter_Some _ _ _ _ (lookup_insert_eq _ _ _)).
    by rewrite lookup_insert_eq. }
  assert (Hp3 : projects w3 !! Task.project_id t3 = Some p) by done.
  destruct (on_task_complete_present task_id output later w3 t3 p Hl3 Hp3)
    as (w' & -> & Hl' & Hp' & He'). cbn [fst snd].
  split; [done|]. split; [by rewrite Hl'|]. split; [done|].
  exists (take 10 files_created). rewrite He'. subst w3. cbn.
  rewrite <- !app_assoc. split; [done|]. split.
  - apply prefix_take.
  - rewrite length_take. lia.
Qed.

Lemma codegen_generated_witness :
  let w := Demo.single ProjectStatus.CODING TaskStatus.QUEUED in
  (Codegen._run_codegen_async 5 (λ _ _, "") "a"
     (Codegen.Generated ["/app/projects/p1/main.py"]) 3%nat 4%nat w).2
  = inr (JDict [("success", JBool true);
                ("files_created", JList [JStr "/app/projects/p1/main.py"])]).
Proof.
  apply (codegen_generated 5 (λ _ _, "")
           (Demo.single ProjectStatus.CODING TaskStatus.QUEUED) "a"
           ["/app/projects/p1/main.py"] 3%nat 4%nat
           (Demo.task TaskType.CODEGEN TaskStatus.QUEUED None "0")
           (Demo.project ProjectStatus.CODING)); reflexivity.
Defined.



(** X7. The verdict of the tester: a test run counts as passed only when it
    reports no failure and at least one pass, so a run that reports nothing at
    all counts as failed.  On a pass the task ends COMPLETED.  On a failure the
    agent does not mark the task FAILED and logs no TASK_FAILED event: it
    appends TEST_FAILED as a warning and reports the text
    ["Tests failed: P passed, F failed"] to [on_task_failure], so that with
    retries left the task goes from RUNNING to RETRYING with a fix requested
    for that text, and with none left the task and its project become
    FAILED. *)
Theorem tester_verdict (max_retries : Z) (str_exn : Exn → World → string)
    (w : World) (task_id : string) (res : Tester.TestResults)
    (now later : datetime) (t : Task) (p : Project) (n : Z) :
  tasks w !! task_id = Some t →
  projects w !! Task.project_id t = Some p →
  int (Task.retry_count t) = Some n →
  let r := Tester._run_tests_async max_retries str_exn task_id
             (Tester.Tested res) now later w in
  let error_msg := "Tests failed: " ++ str (Tester.passed res) ++ " passed, "
                     ++ str (Tester.failed res) ++ " failed" in
  if decide (Tester.failed res = 0 ∧ 0 < Tester.passed res)
  then status_of r.1 task_id = Some TaskStatus.COMPLETED
       ∧ r.2 = inr (JDict [("success", JBool true);
                           ("test_results", Tester.to_json res)])
  else r.2 = inr (JDict [("success", JBool false);
                         ("test_results", Tester.to_json res)])
       ∧ events r.1
         = (events w
            ++ [Event.mk (Task.project_id t) EventType.TASK_STARTED EventLevel.INFO
                  "Test generation and execution started"
                  None (Some "tester") (Some task_id) now;
                Event.mk (Task.project_id t) EventType.TEST_FAILED EventLevel.WARNING
                  error_msg (Some (Tester.to_json res))
                  (Some "tester") (Some task_id) later])%list
       ∧ (∃ t', tasks r.1 !! task_id = Some t'
                ∧ Task.error_message t' = Some error_msg
                ∧ Task.status t'
                  = if n <? max_retries then TaskStatus.RETRYING else TaskStatus.FAILED)
       ∧ if n <? max_retries
         then ∃ h, enqueued w r.1 = [(h, run_fixer task_id error_msg)]
         else enqueued w r.1 = []
              ∧ project_status r.1 (Task.project_id t) = Some ProjectStatus.FAILED.
Proof.
  intros Ht Hp Hn. cbn zeta. unfold Tester._run_tests_async. rewrite Ht, Hp.
  set (t2 := Task.set_started_at (Some now) (Task.set_status TaskStatus.RUNNING t)).
  destruct (decide (Tester.failed res = 0 ∧ 0 < Tester.passed res)) as [[Hf Hpass]|Hfail].
  - unfold Tester.success.
    rewrite (proj2 (Z.eqb_eq _ _) Hf), (proj2 (Z.ltb_lt _ _) Hpass). cbn [andb].
    match goal with
    | |- context [on_task_complete task_id ?o later ?v] => set (w3 := v); set (output := o)
    end.
    set (t3 := Task.set_output_data (Some output)
                 (Task.set_completed_at (Some later)
                    (Task.set_status TaskStatus.COMPLETED t2))).
    assert (Hl3 : tasks w3 !! task_id = Some t3).
    { subst w3.
      unfold Agent.mark_completed, Agent.mark_running, update_task, set_tasks, add_event.
      cbn [tasks].
      rewrite (alter_Some _ _ _ t Ht), (alter_Some _ _ _ _ (lookup_insert_eq _ _ _)).
      by rewrite lookup_insert_eq. }
    assert (Hp3 : projects w3 !! Task.project_id t3 = Some p) by done.
    destruct (on_task_complete_present task_id output later w3 t3 p Hl3 Hp3)
      as (w' & -> & Hl' & _). cbn [fst snd].
    split; [|done]. unfold status_of. by rewrite Hl'.
  - assert (Hs : Tester.success res = false).
    { unfold Tester.success. apply andb_false_iff.
      destruct (Z.eqb_spec (Tester.failed res) 0) as [Hf|Hf]; [right|by left].
      apply Z.ltb_ge. destruct (Z.ltb_spec 0 (Tester.passed res)); [|done].
      exfalso. by apply Hfail. }
    rewrite Hs.
    match goal with
    | |- context [on_task_failure _ _ ?m ?v] => set (w3 := v); set (msg := m)
    end.
    assert (Htasks3 : tasks w3 = <[task_id := t2]> (tasks w)).
    { subst w3. unfold Agent.mark_running, update_task, set_tasks, add_event.
      cbn [tasks]. by rewrite (alter_Some _ _ _ t Ht). }
    assert (Hl3 : tasks w3 !! task_id = Some t2) by (by rewrite Htasks3, lookup_insert_eq).
    assert (Hp3 : projects w3 !! Task.project_id t2 = Some p) by done.
    assert (Hb3 : broker w3 = broker w) by done.
    assert (He3 : events w3
                  = (events w
                     ++ [Event.mk (Task.project_id t) EventType.TASK_STARTED EventLevel.INFO
                           "Test generation and execution started"
                           None (Some "tester") (Some task_id) now;
                         Event.mk (Task.project_id t) EventType.TEST_FAILED
                           EventLevel.WARNING msg (Some (Tester.to_json res))
                           (Some "tester") (Some task_id) later])%list).
    { subst w3. cbn. by rewrite <- app_assoc. }
    destruct (n <? max_retries) eqn:Hlt.
    + apply Z.ltb_lt in Hlt.
      rewrite (on_task_failure_within _ _ _ _ t2 n Hl3 Hn Hlt).
      cbn [fst snd events tasks]. split; [done|]. split; [done|]. split.
      * eexists. by rewrite lookup_insert_eq.
      * eexists. unfold enqueued. cbn [broker]. rewrite Hb3. by rewrite drop_app_length.
    + apply Z.ltb_ge in Hlt.
      rewrite (on_task_failure_exhausted _ _ _ _ t2 n p Hl3 Hn Hlt Hp3).
      cbn [fst snd events tasks]. split; [done|]. split; [done|]. split.
      * eexists. by rewrite lookup_insert_eq.
      * unfold enqueued, project_status. cbn [broker projects].
        rewrite Hb3, drop_all. split; [done|].
        replace (Task.project_id t2) with (Task.project_id t) by done.
        by rewrite lookup_insert_eq.
Qed.

Lemma tester_verdict_witness :
  let w := Demo.world ProjectStatus.CODING
             [("t", Demo.task TaskType.TESTING TaskStatus.QUEUED (Some []) "0")] in
  let r := Tester._run_tests_async 5 (λ _ _, "") "t"
             (Tester.Tested (Tester.mkTestResults 0 0 "" [])) 3%nat 4%nat w in
  r.2 = inr (JDict [("success", JBool false);
                    ("test_results",
                     Tester.to_json (Tester.mkTestResults 0 0 "" []))])
  ∧ events r.1
    = [Event.mk "p1" EventType.TASK_STARTED EventLevel.INFO
         "Test generation and execution started"
         None (Some "tester") (Some "t") 3%nat;
       Event.mk "p1" EventType.TEST_FAILED EventLevel.WARNING
         "Tests failed: 0 passed, 0 failed"
         (Some (Tester.to_json (Tester.mkTestResults 0 0 "" [])))
         (Some "tester") (Some "t") 4%nat]
  ∧ (∃ t', tasks r.1 !! "t" = Some t'
           ∧ Task.error_message t' = Some "Tests failed: 0 passed, 0 failed"
           ∧ Task.status t' = TaskStatus.RETRYING)
  ∧ ∃ h, enqueued w r.1 = [(h, run_fixer "t" "Tests failed: 0 passed, 0 failed")].
Proof.
  apply (tester_verdict 5 (λ _ _, "")
           (Demo.world ProjectStatus.CODING
              [("t", Demo.task TaskType.TESTING TaskStatus.QUEUED (Some []) "0")])
           "t" (Tester.mkTestResults 0 0 "" []) 3%nat 4%nat
           (Demo.task TaskType.TESTING TaskStatus.QUEUED (Some []) "0")
           (Demo.project ProjectStatus.CODING) 0); reflexivity.
Defined.

(** ** Agent runs as execution paths *)

Lemma reachable_trans max_retries w0 w1 w2 :
  reachable max_retries w0 w1 → reachable max_retries w1 w2 →
  reachable max_retries w0 w2.
Proof.
  intros H1 H2. induction H2 as [|w w' _ IH Hstep]; [done|].
  by eapply reachable_step.
Qed.

Lemma reachable_core max_retries w0 w w' :
  reachable max_retries w0 w → core_step max_retries w w' →
  reachable max_retries w0 w'.
Proof. intros H Hs. eapply reachable_step; [done|]. by apply step_core. Qed.

Lemma codegen_on_exception_reachable max_retries task_id project_id str_e later w0 w :
  reachable max_retries w0 w →
  reachable max_retries w0
    (Codegen.on_exception max_retries task_id project_id str_e later w).1.
Proof.
  intros H. unfold Codegen.on_exception.
  match goal with
  | |- context [on_task_failure _ _ _ ?v] =>
      assert (Hv : reachable max_retries w0 v)
  end.
  { eapply reachable_core; [|apply cs_add_event].
    eapply reachable_core; [done|apply cs_mark_failed]. }
  match goal with
  | |- context [on_task_failure ?m ?i ?e ?v] =>
      pose proof (cs_on_task_failure m v i e) as Hf;
      destruct (on_task_failure m i e v) as [w'|e' w']
  end; cbn [fst world_of] in *; by eapply reachable_core.
Qed.

Lemma tester_on_exception_reachable max_retries task_id project_id str_e later w0 w :
  reachable max_retries w0 w →
  reachable max_retries w0
    (Tester.on_exception max_retries task_id project_id str_e later w).1.
Proof.
  intros H. unfold Tester.on_exception.
  match goal with
  | |- context [on_task_failure _ _ _ ?v] =>
      assert (Hv : reachable max_retries w0 v)
  end.
  { eapply reachable_core; [|apply cs_add_event].
    eapply reachable_core; [done|apply cs_mark_failed]. }
  match goal with
  | |- context [on_task_failure ?m ?i ?e ?v] =>
      pose proof (cs_on_task_failure m v i e) as Hf;
      destruct (on_task_failure m i e v) as [w'|e' w']
  end; cbn [fst world_of] in *; by eapply reachable_core.
Qed.

(** X8. A run of the code generation agent or of the tester, whatever its
    work did, is a path of core moves: its writes to the task row are those of
    [Agent.mark_running], [Agent.mark_completed] and [Agent.mark_failed], with
    audit events and the orchestrator's callbacks in between.  Every world an
    agent run ends in is therefore reachable from the world it started in, and
    with a retry budget that is not negative a run keeps every retry counter
    within the budget. *)
Theorem agent_runs_are_paths (max_retries : Z) (str_exn : Exn → World → string)
    (task_id : string) (now later : datetime) (w : World) :
  (∀ attempt,
     reachable max_retries w
       (Codegen._run_codegen_async max_retries str_exn task_id attempt now later w).1)
  ∧ (∀ attempt,
       reachable max_retries w
         (Tester._run_tests_async max_retries str_exn task_id attempt now later w).1)
  ∧ (0 ≤ max_retries → retry_bounded max_retries w →
     ∀ a b,
       retry_bounded max_retries
         (Codegen._run_codegen_async max_retries str_exn task_id a now later w).1
       ∧ retry_bounded max_retries
           (Tester._run_tests_async max_retries str_exn task_id b now later w).1).
Proof.
  assert (Hc : ∀ attempt,
     reachable max_retries w
       (Codegen._run_codegen_async max_retries str_exn task_id attempt now later w).1).
  { intros attempt. unfold Codegen._run_codegen_async.
    destruct (tasks w !! task_id) as [t|]; [|apply reachable_refl].
    destruct (projects w !! Task.project_id t) as [p|]; [|apply reachable_refl].
    cbn zeta.
    match goal with
    | |- context [add_event ?e (Agent.mark_running ?i ?n w)] =>
        assert (H2 : reachable max_retries w (add_event e (Agent.mark_running i n w)))
    end.
    { eapply reachable_core; [|apply cs_add_event].
      eapply reachable_core; [apply reachable_refl|apply cs_mark_running]. }
    destruct attempt as [files|str_e]; [|by apply codegen_on_exception_reachable].
    match goal with
    | |- context [on_task_complete ?i ?o ?n ?v] =>
        assert (H3 : reachable max_retries w v);
        [|pose proof (cs_on_task_complete max_retries v i o n) as Hf;
          destruct (on_task_complete i o n v) as [w'|e' w']]
    end.
    - eapply reachable_core; [|apply cs_add_event].
      eapply reachable_core; [done|apply cs_mark_completed].
    - cbn [fst world_of] in *. by eapply reachable_core.
    - apply codegen_on_exception_reachable. cbn [world_of] in Hf.
      by eapply reachable_core. }
  assert (Ht : ∀ attempt,
     reachable max_retries w
       (Tester._run_tests_async max_retries str_exn task_id attempt now later w).1).
  { intros attempt. unfold Tester._run_tests_async.
    destruct (tasks w !! task_id) as [t|]; [|apply reachable_refl].
    destruct (projects w !! Task.project_id t) as [p|]; [|apply reachable_refl].
    cbn zeta.
    match goal with
    | |- context [add_event ?e (Agent.mark_running ?i ?n w)] =>
        assert (H2 : reachable max_retries w (add_event e (Agent.mark_running i n w)))
    end.
    { eapply reachable_core; [|apply cs_add_event].
      eapply reachable_core; [apply reachable_refl|apply cs_mark_running]. }
    destruct attempt as [res|str_e]; [|by apply tester_on_exception_reachable].
    destruct (Tester.success res).
    - match goal with
      | |- context [on_task_complete ?i ?o ?n ?v] =>
          assert (H3 : reachable max_retries w v);
          [|pose proof (cs_on_task_complete max_retries v i o n) as Hf;
            destruct (on_task_complete i o n v) as [w'|e' w']]
      end.
      + eapply reachable_core; [|apply cs_add_event].
        eapply reachable_core; [done|apply cs_mark_completed].
      + cbn [fst world_of] in *. by eapply reachable_core.
      + apply tester_on_exception_reachable. cbn [world_of] in Hf.
        by eapply reachable_core.
    - match goal with
      | |- context [on_task_failure ?m ?i ?e ?v] =>
          assert (H3 : reachable max_retries w v);
          [|pose proof (cs_on_task_failure m v i e) as Hf;
            destruct (on_task_failure m i e v) as [w'|e' w']]
      end.
      + eapply reachable_core; [done|apply cs_add_event].
      + cbn [fst world_of] in *. by eapply reachable_core.
      + apply tester_on_exception_reachable. cbn [world_of] in Hf.
        by eapply reachable_core. }
  split; [done|]. split; [done|].
  intros Hmax Hw a b. split; eapply retry_bounded_reachable; eauto.
Qed.

(** ** The atomic writes keep the tables and the broker consistent *)

Lemma issued_mono w w' s :
  (uuid_counter w ≤ uuid_counter w')%nat → issued w s → issued w' s.
Proof. intros Hle (n & Hn & ->). exists n. split; [lia|done]. Qed.

Lemma issued_fresh w : ¬ issued w (uuid_name (uuid_counter w)).
Proof. intros (n & Hn & Heq). apply (inj uuid_name) in Heq. lia. Qed.

Lemma issued_next w w' :
  uuid_counter w' = S (uuid_counter w) → issued w' (uuid_name (uuid_counter w)).
Proof. intros H. exists (uuid_counter w). split; [lia|done]. Qed.

Lemma fixer_requests_snoc ts ps es n w h c id :
  fixer_requests (mkWorld ts ps es (broker w ++ [(h, c)]) n) id
  = (fixer_requests w id + if decide (fix_target c = Some id) then 1 else 0)%nat.
Proof.
  unfold fixer_requests. cbn [broker]. rewrite filter_app, length_app. f_equal.
  rewrite filter_cons, filter_nil. cbn [snd]. by destruct (decide _).
Qed.

Lemma fixer_requests_same w w' id :
  broker w' = broker w → fixer_requests w' id = fixer_requests w id.
Proof. unfold fixer_requests. by intros ->. Qed.

Lemma filter_none {A} (P : A → Prop) `{∀ x, Decision (P x)} (l : list A) :
  Forall (fun x => ¬ P x) l → filter P l = [].
Proof.
  induction 1 as [|x l Hx _ IH]; [done|].
  by rewrite filter_cons, decide_False.
Qed.

Lemma consistent_unused w :
  consistent w →
  tasks w !! uuid_name (uuid_counter w) = None
  ∧ fixer_requests w (uuid_name (uuid_counter w)) = 0%nat
  ∧ uuid_name (uuid_counter w) ∉ (broker w).*1.
Proof.
  intros (Hkeys & Hcalls & _).
  assert (Hnone : tasks w !! uuid_name (uuid_counter w) = None).
  { destruct (tasks w !! uuid_name (uuid_counter w)) eqn:E; [|done].
    exfalso. apply (issued_fresh w), Hkeys. by rewrite E. }
  split; [done|]. split.
  - unfold fixer_requests. apply length_zero_iff_nil, filter_none.
    apply Forall_forall. intros [h c] Hin Htarget. cbn [snd] in Htarget.
    destruct (Hcalls _ Hin) as [_ Hex]. cbn [snd] in Hex.
    destruct c; try discriminate. cbn in Htarget, Hex. injection Htarget as ->.
    rewrite Hnone in Hex. by destruct Hex.
  - intros (call & Heq & Hin)%list_elem_of_fmap.
    destruct (Hcalls _ Hin) as [His _]. rewrite <- Heq in His.
    by apply (issued_fresh w).
Qed.

Lemma consistent_atomic w w' : atomic w w' → consistent w → consistent w'.
Proof.
  intros Hstep Hw. pose proof (consistent_unused w Hw) as (Hnone & Hzero & Hnew).
  destruct Hw as (Hkeys & Hcalls & Hnd & Hhandle & Hretry).
  destruct Hstep as [ps es| |id f Hf|t Hr Hc _ _|c tc Htc Hfit|id error t n Ht Hn].
  - done.
  - split; [|split; [|split; [|split]]]; try done.
    + intros id Hid. apply (issued_mono w); [cbn; lia|]. by apply Hkeys.
    + intros call Hin. destruct (Hcalls _ Hin) as [His Hex]. split; [|done].
      apply (issued_mono w); [cbn; lia|done].
  - unfold update_task, set_tasks.
    split; [|split; [|split; [|split]]]; cbn [tasks broker uuid_counter].
    + intros j Hj. apply Hkeys. by rewrite lookup_alter_is_Some in Hj.
    + intros call Hin. destruct (Hcalls _ Hin) as [His Hex]. split; [done|].
      by rewrite lookup_alter_is_Some.
    + done.
    + intros j t' h Hj Hh. rewrite lookup_alter_Some in Hj.
      destruct Hj as [(-> & t0 & Ht0 & ->)|[_ Hj]].
      * destruct (Hf t0) as (_ & _ & Hcel & _). rewrite Hcel in Hh. by eapply Hhandle.
      * by eapply Hhandle.
    + intros j t' Hj. change (fixer_requests _ j) with (fixer_requests w j).
      rewrite lookup_alter_Some in Hj.
      destruct Hj as [(-> & t0 & Ht0 & ->)|[_ Hj]].
      * destruct (Hf t0) as (_ & Hrc & _ & _). rewrite Hrc. by apply Hretry.
      * by apply Hretry.
  - unfold set_tasks, uuid4.
    split; [|split; [|split; [|split]]]; cbn [tasks broker uuid_counter fst].
    + intros j Hj. destruct (decide (uuid_name (uuid_counter w) = j)) as [<-|Hne].
      * by apply issued_next.
      * rewrite lookup_insert_ne in Hj by done.
        apply (issued_mono w); [cbn; lia|]. by apply Hkeys.
    + intros call Hin. destruct (Hcalls _ Hin) as [His Hex]. split.
      * apply (issued_mono w); [cbn; lia|done].
      * destruct (decide (uuid_name (uuid_counter w) = call_task_id call.2)) as [Heq|Hne].
        -- rewrite <- Heq, lookup_insert_eq. by eexists.
        -- by rewrite lookup_insert_ne.
    + done.
    + intros j t' h Hj Hh.
      destruct (decide (uuid_name (uuid_counter w) = j)) as [<-|Hne].
      * rewrite lookup_insert_eq in Hj. injection Hj as <-. congruence.
      * rewrite lookup_insert_ne in Hj by done. by eapply Hhandle.
    + intros j t' Hj. change (fixer_requests _ j) with (fixer_requests w j).
      destruct (decide (uuid_name (uuid_counter w) = j)) as [<-|Hne].
      * rewrite lookup_insert_eq in Hj. injection Hj as <-. by rewrite Hr, Hzero.
      * rewrite lookup_insert_ne in Hj by done. by apply Hretry.
  - assert (Hex : is_Some (tasks w !! call_task_id c)) by (by eexists).
    assert (Hnf : fix_target c = None) by (by destruct c).
    unfold update_task, set_tasks, delay, uuid4.
    split; [|split; [|split; [|split]]]; cbn [tasks broker uuid_counter fst].
    + intros j Hj. rewrite lookup_alter_is_Some in Hj.
      apply (issued_mono w); [cbn; lia|]. by apply Hkeys.
    + intros call Hin. rewrite lookup_alter_is_Some.
      apply elem_of_app in Hin as [Hin|Hin%list_elem_of_singleton].
      * destruct (Hcalls _ Hin) as [His Hex']. split; [|done].
        apply (issued_mono w); [cbn; lia|done].
      * subst call. split; [by apply issued_next|done].
    + rewrite fmap_app. apply NoDup_app. split; [done|]. split.
      * intros x Hx Hx'. apply list_elem_of_singleton in Hx'. by subst x.
      * apply NoDup_singleton.
    + intros j t' h Hj Hh. rewrite lookup_alter_Some in Hj.
      destruct Hj as [(<- & t0 & Ht0 & ->)|[_ Hj]].
      * cbn in Hh. injection Hh as <-. exists c. split; [|done].
        apply elem_of_app. right. by apply list_elem_of_singleton.
      * destruct (Hhandle _ _ _ Hj Hh) as (c' & Hin & Hid). exists c'.
        split; [|done]. apply elem_of_app. by left.
    + intros j t' Hj.
      rewrite fixer_requests_snoc.
      rewrite Hnf. rewrite decide_False by done.
      rewrite Nat.add_0_r. rewrite lookup_alter_Some in Hj.
      destruct Hj as [(<- & t0 & Ht0 & ->)|[_ Hj]].
      * by apply (Hretry _ t0).
      * by apply Hretry.
  - unfold update_task, set_tasks, delay, uuid4.
    split; [|split; [|split; [|split]]]; cbn [tasks broker uuid_counter fst].
    + intros j Hj. rewrite lookup_alter_is_Some in Hj.
      apply (issued_mono w); [cbn; lia|]. by apply Hkeys.
    + intros call Hin. rewrite lookup_alter_is_Some.
      apply elem_of_app in Hin as [Hin|Hin%list_elem_of_singleton].
      * destruct (Hcalls _ Hin) as [His Hex']. split; [|done].
        apply (issued_mono w); [cbn; lia|done].
      * subst call. split; [by apply issued_next|]. cbn. by rewrite Ht.
    + rewrite fmap_app. apply NoDup_app. split; [done|]. split.
      * intros x Hx Hx'. apply list_elem_of_singleton in Hx'. by subst x.
      * apply NoDup_singleton.
    + intros j t' h Hj Hh. rewrite lookup_alter_Some in Hj.
      destruct Hj as [(<- & t0 & Ht0 & ->)|[_ Hj]].
      * cbn in Hh. injection Hh as <-. exists (run_fixer id error). split; [|done].
        apply elem_of_app. right. by apply list_elem_of_singleton.
      * destruct (Hhandle _ _ _ Hj Hh) as (c' & Hin & Hid). exists c'.
        split; [|done]. apply elem_of_app. by left.
    + intros j t' Hj.
      rewrite fixer_requests_snoc.
      cbn [fix_target]. rewrite lookup_alter_Some in Hj.
      destruct Hj as [(<- & t0 & Ht0 & ->)|[Hne Hj]].
      * rewrite decide_True by done. cbn. rewrite int_str.
        rewrite Ht in Ht0. injection Ht0 as <-.
        pose proof (Hretry _ _ Ht) as Hcount. rewrite Hn in Hcount.
        injection Hcount as ->. f_equal. lia.
      * rewrite decide_False by congruence. rewrite Nat.add_0_r. by apply Hretry.
Qed.

(** ** Every move of the back end is a sequence of atomic writes *)

Ltac progress_write_tac :=
  let H := fresh in
  intros ?; unfold same_identity; repeat split;
  first [reflexivity | intros H; cbn in H; discriminate H].

Lemma atomic_projects w ps : atomic w (set_projects ps w).
Proof.
  pose proof (at_silent w ps []) as H. rewrite app_nil_r in H. exact H.
Qed.

Lemma atomic_update_project w id f : atomic w (update_project id f w).
Proof. apply atomic_projects. Qed.

Lemma atomic_add_event w e : atomic w (add_event e w).
Proof. apply (at_silent w (projects w) [e]). Qed.

Lemma rtc_atomic_check project_id now w :
  rtc atomic w (_check_project_completion project_id now w).
Proof.
  unfold _check_project_completion.
  destruct (projects w !! project_id); [|done].
  destruct (forallb _ _); [|done]. apply rtc_once, atomic_update_project.
Qed.

Lemma rtc_atomic_schedule_task row w t :
  tasks w !! row.1 = Some t → Task.type t = Task.type row.2 →
  rtc atomic w (_schedule_task row w).
Proof.
  intros Ht Hty. unfold _schedule_task.
  eapply rtc_l; [apply (at_write w row.1 (Task.set_status TaskStatus.QUEUED));
                 progress_write_tac|].
  set (w1 := update_task row.1 (Task.set_status TaskStatus.QUEUED) w).
  assert (Ht1 : tasks w1 !! row.1 = Some (Task.set_status TaskStatus.QUEUED t)).
  { subst w1. unfold update_task, set_tasks. cbn [tasks].
    by rewrite lookup_alter_eq, Ht. }
  destruct (Task.type row.2) eqn:E; try done;
    apply rtc_once;
    match goal with
    | |- context [delay ?c w1] =>
        apply (at_dispatch w1 c (Task.set_status TaskStatus.QUEUED t)); [exact Ht1|exact Hty]
    end.
Qed.

Lemma schedule_task_type row w id t :
  tasks w !! id = Some t →
  ∃ t', tasks (_schedule_task row w) !! id = Some t' ∧ Task.type t' = Task.type t.
Proof.
  intros Ht. rewrite _schedule_task_unfold.
  destruct (agent_for _); cbn [tasks];
    (destruct (decide (row.1 = id)) as [->|Hne];
     [rewrite lookup_alter_eq, Ht; by eexists
     |rewrite lookup_alter_ne by done; by eexists]).
Qed.

Lemma schedule_task_dom row w id :
  is_Some (tasks (_schedule_task row w) !! id) ↔ is_Some (tasks w !! id).
Proof.
  rewrite _schedule_task_unfold.
  destruct (agent_for _); cbn [tasks]; apply lookup_alter_is_Some.
Qed.

Lemma rtc_atomic_dispatch_pending rows : ∀ w,
  (∀ row, row ∈ rows →
          ∃ t, tasks w !! row.1 = Some t ∧ Task.type t = Task.type row.2) →
  rtc atomic w (dispatch_pending rows w).
Proof.
  induction rows as [|row rows IH]; intros w Hrows; [done|].
  rewrite dispatch_pending_cons.
  destruct (_task_is_ready w row.2).
  - destruct (Hrows row) as (t & Ht & Hty); [left|].
    eapply rtc_trans; [by apply (rtc_atomic_schedule_task row w t)|].
    apply IH. intros r Hr. destruct (Hrows r) as (tr & Htr & Htyr); [by right|].
    destruct (schedule_task_type row w _ _ Htr) as (t' & Ht' & Hty').
    exists t'. split; [done|]. by rewrite Hty'.
  - apply IH. intros r Hr. apply Hrows. by right.
Qed.

Lemma rtc_atomic_schedule_next_tasks project_id w :
  rtc atomic w (schedule_next_tasks project_id w).
Proof.
  apply rtc_atomic_dispatch_pending. intros row Hrow.
  apply select_pending_elem in Hrow as [Hrow _]. by exists row.2.
Qed.

Lemma rtc_atomic_on_task_complete task_id output now w :
  rtc atomic w (world_of (on_task_complete task_id output now w)).
Proof.
  unfold on_task_complete.
  destruct (tasks w !! task_id) as [t|]; [|done].
  destruct (projects w !! Task.project_id t); [|done]. cbn [world_of].
  eapply rtc_l;
    [apply (at_write w task_id
              (Task.set_output_data (Some output) ∘ Task.set_completed_at (Some now)
               ∘ Task.set_status TaskStatus.COMPLETED)); progress_write_tac|].
  eapply rtc_l;
    [apply (atomic_update_project _ (Task.project_id t)
              (fun p => Project.set_completed_tasks (Project.completed_tasks p + 1) p))|].
  eapply rtc_trans; [apply rtc_atomic_schedule_next_tasks|apply rtc_atomic_check].
Qed.

Lemma rtc_atomic_on_task_failure max_retries task_id error w :
  rtc atomic w (world_of (on_task_failure max_retries task_id error w)).
Proof.
  unfold on_task_failure.
  destruct (tasks w !! task_id) as [t|] eqn:Ht; [|done].
  destruct (int (Task.retry_count t)) as [n|] eqn:Hn; [|done].
  destruct (n <? max_retries).
  - cbn [world_of].
    eapply rtc_l;
      [apply (at_write w task_id
                (Task.set_error_message (Some error)
                 ∘ Task.set_status TaskStatus.RETRYING)); progress_write_tac|].
    set (w1 := update_task task_id _ w).
    assert (Ht1 : tasks w1 !! task_id
                  = Some (Task.set_error_message (Some error)
                            (Task.set_status TaskStatus.RETRYING t))).
    { subst w1. unfold update_task, set_tasks. cbn [tasks].
      by rewrite lookup_alter_eq, Ht. }
    pose proof (at_retry w1 task_id error _ n Ht1 Hn) as Hstep.
    apply rtc_once.
    match goal with
    | H : atomic w1 ?a |- atomic w1 ?b => replace b with a; [exact H|]
    end.
    subst w1. unfold update_task, set_tasks, delay, uuid4. cbn. f_equal.
    rewrite !alter_alter_eq.
    rewrite !(alter_Some _ _ _ t Ht). done.
  - eapply rtc_l;
      [apply (at_write w task_id
                (Task.set_error_message (Some error)
                 ∘ Task.set_status TaskStatus.FAILED)); progress_write_tac|].
    destruct (projects _ !! _); cbn [world_of]; [|done].
    apply rtc_once, atomic_update_project.
Qed.

Lemma rtc_atomic_schedule_planning project_id now w :
  rtc atomic w (schedule_planning project_id now w).
Proof.
  unfold schedule_planning.
  set (task := Task.new _ _ _ _ _ _ _ _).
  eapply rtc_l; [apply (at_new w task); [done|done|done|by left]|].
  unfold uuid4. cbn [fst snd].
  set (w1 := set_tasks _ _).
  assert (Hex : tasks w1 !! uuid_name (uuid_counter w) = Some task).
  { subst w1. cbn. by rewrite lookup_insert_eq. }
  eapply rtc_l;
    [apply (at_dispatch w1 (run_planner project_id (uuid_name (uuid_counter w))) task);
     done|].
  apply rtc_once.
  pose proof (at_write
                (update_task (uuid_name (uuid_counter w))
                   (Task.set_celery_task_id (Some (uuid_name (uuid_counter w1))))
                   (delay (run_planner project_id (uuid_name (uuid_counter w))) w1).1)
                (uuid_name (uuid_counter w))
                (Task.set_status TaskStatus.QUEUED)) as Hstep.
  match goal with
  | H : _ → atomic ?x ?a |- atomic ?x ?b =>
      replace b with a; [apply H; progress_write_tac|]
  end.
  unfold update_task, set_tasks, delay, uuid4. cbn. f_equal.
  by rewrite alter_alter_eq.
Qed.

Lemma rtc_atomic_create_project projects_dir prompt user_id stamp now w :
  rtc atomic w (create_project projects_dir prompt user_id stamp now w).1.
Proof.
  unfold create_project, ProjectService.create_project, uuid4. cbn [fst snd].
  eapply rtc_l; [apply at_uuid4|].
  eapply rtc_l; [apply atomic_projects|].
  eapply rtc_l; [apply atomic_add_event|].
  eapply rtc_l; [apply atomic_update_project|].
  apply rtc_atomic_schedule_planning.
Qed.

Lemma rtc_atomic_insert_rows (rows : list (string * Task)) : ∀ w,
  rows.*1 = uuid_name <$> seq (uuid_counter w) (length rows) →
  Forall (fun row => Task.retry_count row.2 = "0"
                     ∧ Task.celery_task_id row.2 = None
                     ∧ Task.status row.2 = TaskStatus.PENDING
                     ∧ created_type (Task.type row.2)) rows →
  rtc atomic w
    (mkWorld (list_to_map rows ∪ tasks w) (projects w) (events w) (broker w)
       (length rows + uuid_counter w)).
Proof.
  induction rows as [|[id t] rows IH]; intros w Hids Hrows.
  - cbn. rewrite (left_id_L ∅ (∪)). by destruct w.
  - cbn in Hids. injection Hids as -> Hids.
    apply Forall_cons in Hrows as [(Hr & Hc & Hs & Hty) Hrows].
    cbn [snd] in Hr, Hc, Hs, Hty.
    eapply rtc_l; [apply (at_new w t Hr Hc Hs Hty)|].
    set (w1 := set_tasks _ _).
    specialize (IH w1 Hids Hrows).
    replace (mkWorld (list_to_map ((uuid_name (uuid_counter w), t) :: rows) ∪ tasks w)
               (projects w) (events w) (broker w)
               (length ((uuid_name (uuid_counter w), t) :: rows) + uuid_counter w))
      with (mkWorld (list_to_map rows ∪ tasks w1) (projects w1) (events w1) (broker w1)
              (length rows + uuid_counter w1)); [done|].
    subst w1. cbn. f_equal; [|lia].
    rewrite <- insert_union_l. symmetry. apply insert_union_r.
    apply not_elem_of_list_to_map_1. rewrite Hids.
    intros (n & Heq & Hn)%list_elem_of_fmap. apply (inj uuid_name) in Heq. subst n.
    apply elem_of_seq in Hn. lia.
Qed.

Lemma spec_tasks_unclaimed project_id spec now :
  Forall (fun t => Task.celery_task_id t = None) (spec_tasks project_id spec now).
Proof.
  unfold spec_tasks.
  destruct (truthy_opt (spec !! "backend")), (truthy_opt (spec !! "frontend")),
    (truthy_opt (spec !! "infrastructure")); cbn; repeat constructor.
Qed.

Lemma created_rows_unclaimed project_id spec now w :
  Forall (fun row : string * Task =>
            Task.retry_count row.2 = "0" ∧ Task.celery_task_id row.2 = None
            ∧ Task.status row.2 = TaskStatus.PENDING
            ∧ created_type (Task.type row.2))
         (created_rows project_id spec now w).
Proof.
  apply Forall_forall. intros [id t] Hin. cbn [snd].
  destruct (created_rows_elem _ _ _ _ _ _ Hin) as (_ & Hs & Hr & _ & _ & _ & Hty).
  split; [done|].
  cut (Task.celery_task_id t = None).
  { intros Hc. split; [done|]. split; [done|]. unfold created_type. tauto. }
  unfold created_rows in Hin. apply link_dependencies_elem in Hin as (t0 & Hin & ->).
  assert (Hc0 : Task.celery_task_id t0 = None).
  { rewrite flush_tasks_rows in Hin. apply elem_of_zip_r in Hin.
    pose proof (spec_tasks_unclaimed project_id spec now) as Hall.
    rewrite Forall_forall in Hall. by apply Hall. }
  by repeat case_decide.
Qed.

Lemma rtc_atomic_on_planning_complete project_id spec now w :
  rtc atomic w (world_of (on_planning_complete project_id spec now w)).
Proof.
  destruct (projects w !! project_id) as [p|] eqn:Hp.
  - rewrite (on_planning_complete_unfold _ _ _ _ p Hp). cbn [world_of].
    eapply rtc_trans; [|apply rtc_atomic_schedule_next_tasks].
    eapply rtc_r.
    + apply (rtc_atomic_insert_rows (created_rows project_id spec now w) w).
      * by rewrite created_rows_ids, created_rows_length.
      * apply created_rows_unclaimed.
    + exact (atomic_projects (mkWorld _ _ _ _ _) _).
  - unfold on_planning_complete. by rewrite Hp.
Qed.

Lemma rtc_atomic_run_fixer task_id error attempt now w :
  rtc atomic w (Fixer._run_fixer_async task_id error attempt now w).
Proof.
  unfold Fixer._run_fixer_async.
  destruct (tasks w !! task_id) as [t|]; [|done].
  destruct (projects w !! Task.project_id t); [|done].
  eapply rtc_l; [apply atomic_add_event|].
  destruct attempt as [files analysis|str_e].
  - eapply rtc_l; [apply atomic_add_event|].
    eapply rtc_l;
      [apply (at_write _ task_id
                (Task.set_error_message None ∘ Task.set_status TaskStatus.PENDING));
       progress_write_tac|].
    apply rtc_atomic_schedule_next_tasks.
  - eapply rtc_l; [apply atomic_add_event|].
    apply rtc_once, at_write. progress_write_tac.
Qed.

Lemma rtc_atomic_update_project_status project_id status error_message now w :
  rtc atomic w
    (ProjectService.update_project_status project_id status error_message now w).1.
Proof.
  unfold ProjectService.update_project_status, ProjectService.get_project.
  destruct (projects w !! project_id); [|done]. cbn [fst].
  apply rtc_once. unfold add_event, set_projects. cbn. apply at_silent.
Qed.

Lemma rtc_atomic_core_step max_retries w w' :
  core_step max_retries w w' → rtc atomic w w'.
Proof.
  intros []; try (apply rtc_once, at_write; progress_write_tac).
  - apply rtc_atomic_create_project.
  - apply rtc_atomic_schedule_planning.
  - apply rtc_atomic_on_planning_complete.
  - apply rtc_atomic_schedule_next_tasks.
  - apply rtc_atomic_on_task_complete.
  - apply rtc_atomic_on_task_failure.
  - apply rtc_atomic_run_fixer.
  - apply rtc_once, atomic_add_event.
  - apply rtc_atomic_update_project_status.
  - unfold ProjectService.resume_project, ProjectService.get_project.
    destruct (projects w !! project_id); [|done].
    destruct (bool_decide _); [done|]. apply rtc_atomic_update_project_status.
Qed.

Lemma rtc_atomic_reachable max_retries w0 w :
  reachable max_retries w0 w → rtc atomic w0 w.
Proof.
  induction 1 as [|w w' _ IH Hstep]; [done|].
  eapply rtc_trans; [done|].
  destruct Hstep as [w' Hcore|project_id status now].
  - by eapply rtc_atomic_core_step.
  - apply rtc_atomic_update_project_status.
Qed.

Lemma consistent_rtc w w' : rtc atomic w w' → consistent w → consistent w'.
Proof. induction 1; eauto using consistent_atomic. Qed.

Lemma consistent_empty : consistent empty_world.
Proof.
  split; [|split; [|split; [|split]]]; cbn.
  - intros id [t Ht]. by rewrite lookup_empty in Ht.
  - intros call Hin. by apply elem_of_nil in Hin.
  - apply NoDup_nil_2.
  - intros id t h Ht. by rewrite lookup_empty in Ht.
  - intros id t Ht. by rewrite lookup_empty in Ht.
Qed.

Lemma consistent_reachable max_retries w :
  reachable max_retries empty_world w → consistent w.
Proof.
  intros H. eapply consistent_rtc; [by eapply rtc_atomic_reachable|].
  apply consistent_empty.
Qed.

(** ** Nothing is taken back *)

Lemma same_identity_refl t : same_identity t t.
Proof. by repeat split. Qed.

Lemma same_identity_trans t1 t2 t3 :
  same_identity t1 t2 → same_identity t2 t3 → same_identity t1 t3.
Proof.
  unfold same_identity. intros (?&?&?&?&?&?&?) (?&?&?&?&?&?&?).
  repeat split; congruence.
Qed.

Lemma extends_refl w : extends w w.
Proof.
  repeat split; try done. intros id t Ht. exists t. split; [done|].
  apply same_identity_refl.
Qed.

Lemma extends_trans w1 w2 w3 : extends w1 w2 → extends w2 w3 → extends w1 w3.
Proof.
  intros (Hc1 & He1 & Hb1 & Ht1) (Hc2 & He2 & Hb2 & Ht2).
  split; [lia|]. split; [by etrans|]. split; [by etrans|].
  intros id t Ht. destruct (Ht1 _ _ Ht) as (t' & Ht' & Hid1).
  destruct (Ht2 _ _ Ht') as (t'' & Ht'' & Hid2). exists t''. split; [done|].
  by eapply same_identity_trans.
Qed.

Lemma extends_alter w w' id f :
  (∀ t, same_identity t (f t)) →
  tasks w' = alter f id (tasks w) →
  (uuid_counter w ≤ uuid_counter w')%nat →
  events w `prefix_of` events w' →
  broker w `prefix_of` broker w' →
  extends w w'.
Proof.
  intros Hf Htasks Hc He Hb. split; [done|]. split; [done|]. split; [done|].
  intros j t Hj. rewrite Htasks. destruct (decide (id = j)) as [<-|Hne].
  - exists (f t). rewrite lookup_alter_eq, Hj. done.
  - exists t. rewrite lookup_alter_ne by done. split; [done|].
    apply same_identity_refl.
Qed.

Lemma extends_atomic w w' : consistent w → atomic w w' → extends w w'.
Proof.
  intros Hw Hstep. pose proof (consistent_unused w Hw) as (Hnone & _ & _).
  destruct Hstep as [ps es| |id f Hf|t Hr Hc _ _|c tc Htc Hfit|id error t n Ht Hn].
  - split; [done|]. split; [by apply prefix_app_r|]. split; [done|].
    intros id t Ht. exists t. split; [done|]. apply same_identity_refl.
  - split; [cbn; lia|]. split; [done|]. split; [done|].
    intros id t Ht. exists t. split; [done|]. apply same_identity_refl.
  - apply (extends_alter w _ id f); try done. intros t. apply Hf.
  - split; [cbn; lia|]. split; [done|]. split; [done|].
    intros id t' Ht'. exists t'. split; [|apply same_identity_refl].
    cbn. rewrite lookup_insert_ne by (intros <-; congruence). done.
  - apply (extends_alter w _ (call_task_id c)
             (Task.set_celery_task_id (Some (uuid_name (uuid_counter w)))));
      [intros ?; by repeat split|done|cbn; lia|done|by apply prefix_app_r].
  - apply (extends_alter w _ id
             (Task.set_celery_task_id (Some (uuid_name (uuid_counter w)))
              ∘ Task.set_retry_count (str (n + 1))));
      [intros ?; by repeat split|done|cbn; lia|done|by apply prefix_app_r].
Qed.

Lemma extends_rtc w w' : rtc atomic w w' → consistent w → extends w w'.
Proof.
  induction 1 as [w|w w1 w2 Hstep _ IH]; intros Hw; [apply extends_refl|].
  eapply extends_trans; [by apply extends_atomic|].
  apply IH. by eapply consistent_atomic.
Qed.

Lemma fixer_requests_prefix w w' id :
  broker w `prefix_of` broker w' → (fixer_requests w id ≤ fixer_requests w' id)%nat.
Proof.
  intros [k Hk]. unfold fixer_requests. rewrite Hk, filter_app, length_app. lia.
Qed.

(** X9. In every world an execution of the back end reaches from the empty
    one (submissions, handlers, fixer runs, agent writes, status requests, in
    any order and with any arguments), the broker and the task table agree:
    no handle was given out twice, every call on the broker is for a task
    that exists, and the handle stored on a task is the handle of a call on
    the broker made for that very task. *)
Theorem broker_agrees_with_tasks (max_retries : Z) (w : World) :
  reachable max_retries empty_world w →
  NoDup (broker w).*1
  ∧ (∀ call, call ∈ broker w → is_Some (tasks w !! call_task_id call.2))
  ∧ (∀ id t h, tasks w !! id = Some t → Task.celery_task_id t = Some h →
               ∃ c, (h, c) ∈ broker w ∧ call_task_id c = id).
Proof.
  intros Hreach.
  destruct (consistent_reachable _ _ Hreach) as (_ & Hcalls & Hnd & Hhandle & _).
  split; [done|]. split; [|done]. intros call Hin. by apply Hcalls.
Qed.



(** X10. In every world an execution reaches from the empty one, the retry
    counter of a task reads exactly the number of fix runs requested for it
    so far ([run_fixer] calls for the task on the broker); with a budget that
    is not negative, at most [max_retries] fix runs are ever requested for
    one task. *)
Theorem retry_count_counts_fix_requests (max_retries : Z) (w : World)
    (id : string) (t : Task) :
  reachable max_retries empty_world w →
  tasks w !! id = Some t →
  int (Task.retry_count t) = Some (Z.of_nat (fixer_requests w id))
  ∧ (0 ≤ max_retries → Z.of_nat (fixer_requests w id) ≤ max_retries).
Proof.
  intros Hreach Ht.
  destruct (consistent_reachable _ _ Hreach) as (_ & _ & _ & _ & Hretry).
  split; [by apply Hretry|]. intros Hmax.
  assert (Hb : retry_bounded max_retries w).
  { eapply retry_bounded_reachable; [done..|].
    intros j t' Hj. cbn in Hj. by rewrite lookup_empty in Hj. }
  destruct (Hb _ _ Ht) as (n & Hn & Hle). rewrite (Hretry _ _ Ht) in Hn.
  by injection Hn as ->.
Qed.



(** X11. Along an execution nothing is taken back.  Between a world reached
    from the empty one and any world reached from it later, no name is drawn
    again, the audit log and the broker queue only grow, and every task row is
    still stored under its key with the project, name, description, type,
    input, dependency list and creation time it was created with; its retry
    counter has not gone down. *)
Theorem execution_only_extends (max_retries : Z) (w w' : World) :
  reachable max_retries empty_world w →
  reachable max_retries w w' →
  extends w w'
  ∧ ∀ id t, tasks w !! id = Some t →
            ∃ t' n n', tasks w' !! id = Some t'
                       ∧ int (Task.retry_count t) = Some n
                       ∧ int (Task.retry_count t') = Some n'
                       ∧ n ≤ n'.
Proof.
  intros Hw Hw'.
  pose proof (consistent_reachable _ _ Hw) as Hc.
  pose proof (rtc_atomic_reachable _ _ _ Hw') as Hpath.
  pose proof (consistent_rtc _ _ Hpath Hc) as Hc'.
  pose proof (extends_rtc _ _ Hpath Hc) as Hext.
  split; [done|]. intros id t Ht.
  destruct Hext as (_ & _ & Hb & Hrows).
  destruct (Hrows _ _ Ht) as (t' & Ht' & _).
  destruct Hc as (_ & _ & _ & _ & Hr). destruct Hc' as (_ & _ & _ & _ & Hr').
  exists t', (Z.of_nat (fixer_requests w id)), (Z.of_nat (fixer_requests w' id)).
  split; [done|]. split; [by apply Hr|]. split; [by apply Hr'|].
  apply inj_le. by apply fixer_requests_prefix.
Qed.

(** The sample execution is one: each of its worlds is reached by a move. *)
Lemma Demo_submitted_reachable : reachable 5 empty_world Demo_submitted.
Proof.
  unfold Demo_submitted.
  exact (reachable_core 5 empty_world empty_world _ (reachable_refl 5 empty_world)
           (cs_create_project 5 empty_world "/app/projects" "build a todo app" "system"
              "20240101-120000" 1%nat)).
Qed.

Lemma Demo_failed_once_reachable : reachable 5 Demo_submitted Demo_failed_once.
Proof.
  unfold Demo_failed_once, Demo_planned.
  exact (reachable_core 5 Demo_submitted _ _
           (reachable_core 5 Demo_submitted Demo_submitted _
              (reachable_refl 5 Demo_submitted)
              (cs_on_planning_complete 5 Demo_submitted "uuid-0" Demo_spec 2%nat))
           (cs_on_task_failure 5 _ "uuid-3" "SyntaxError: invalid syntax")).
Qed.

Lemma broker_agrees_with_tasks_witness :
  NoDup (broker Demo_failed_once).*1
  ∧ (∀ call, call ∈ broker Demo_failed_once →
             is_Some (tasks Demo_failed_once !! call_task_id call.2))
  ∧ (∀ id t h, tasks Demo_failed_once !! id = Some t →
               Task.celery_task_id t = Some h →
               ∃ c, (h, c) ∈ broker Demo_failed_once ∧ call_task_id c = id).
Proof.
  apply (broker_agrees_with_tasks 5 Demo_failed_once).
  exact (reachable_trans 5 _ _ _ Demo_submitted_reachable Demo_failed_once_reachable).
Defined.

Lemma execution_only_extends_witness :
  extends Demo_submitted Demo_failed_once
  ∧ ∀ id t, tasks Demo_submitted !! id = Some t →
            ∃ t' n n', tasks Demo_failed_once !! id = Some t'
                       ∧ int (Task.retry_count t) = Some n
                       ∧ int (Task.retry_count t') = Some n'
                       ∧ n ≤ n'.
Proof.
  exact (execution_only_extends 5 Demo_submitted Demo_failed_once
           Demo_submitted_reachable Demo_failed_once_reachable).
Defined.

Lemma retry_count_counts_fix_requests_witness :
  int "1" = Some (Z.of_nat (fixer_requests Demo_failed_once "uuid-3"))
  ∧ (0 ≤ 5 → Z.of_nat (fixer_requests Demo_failed_once "uuid-3") ≤ 5).
Proof.
  apply (retry_count_counts_fix_requests 5 Demo_failed_once "uuid-3"
           (Task.mk "uuid-0" "Generate Backend Code"
              (Some "Generate backend application code")
              TaskType.CODEGEN TaskStatus.RETRYING
              (Some (JDict [("component", JStr "backend");
                            ("spec", JDict [("framework", JStr "fastapi")])]))
              None (Some "SyntaxError: invalid syntax") None 2%nat None None
              "1" (Some "uuid-9"))).
  - exact (reachable_trans 5 _ _ _ Demo_submitted_reachable Demo_failed_once_reachable).
  - vm_compute. reflexivity.
Defined.

(** ** The LLM router *)

Section LLMRouterProperties.

Import LLMRouter.

Context {float kwargs api_exn : Type}.
Variable lower : string → string.
Variable settings : string → option json.
Variable str_api_exn : api_exn → string.
Variable api : string → Client → LLMProviderConfig (float := float) →
               list (string * string) → kwargs → nat → api_exn + string.
Variable config : LLMConfig (float := float).


Lemma dict_get_elem {V} (k : string) (d : list (string * V)) v :
  dict_get k d = Some v → (k, v) ∈ d.
Proof.
  induction d as [|[k' v'] d IH]; [done|]. cbn.
  destruct (String.eqb_spec k' k) as [->|Hne].
  - intros [= ->]. left.
  - intros H. right. by apply IH.
Qed.

Lemma dict_get_NoDup {V} (k : string) (d : list (string * V)) v :
  NoDup d.*1 → (k, v) ∈ d → dict_get k d = Some v.
Proof.
  induction d as [|[k' v'] d IH]; intros Hnd Hin; [by apply elem_of_nil in Hin|].
  cbn in *. apply NoDup_cons in Hnd as [Hk' Hnd].
  apply elem_of_cons in Hin as [[= -> ->]|Hin].
  - by rewrite String.eqb_refl.
  - destruct (String.eqb_spec k' k) as [->|Hne]; [|by apply IH].
    exfalso. apply Hk'. apply list_elem_of_fmap. by exists (k, v).
Qed.

Lemma enabled_providers_spec (ps : list string) :
  match enabled_providers (api_exn := api_exn) config ps with
  | inl e => e = AttributeError
             ∧ ∃ p, p ∈ ps ∧ dict_get p (providers config) = None
  | inr l => l = filter (fun p => is_enabled config p = true) ps
             ∧ Forall (fun p => is_Some (dict_get p (providers config))) ps
  end.
Proof.
  induction ps as [|p ps IH]; [done|]. cbn [enabled_providers].
  destruct (dict_get p (providers config)) as [provider|] eqn:Hp.
  - destruct (enabled_providers config ps) as [e|l].
    + destruct IH as [-> (q & Hq & Hnone)]. split; [done|].
      exists q. split; [by right|done].
    + destruct IH as [-> Hall]. split.
      * assert (He : is_enabled config p = enabled provider).
        { unfold is_enabled. by rewrite Hp. }
        rewrite filter_cons, He.
        destruct (enabled provider); [by rewrite decide_True|by rewrite decide_False].
      * constructor; [by eexists|done].
  - split; [done|]. exists p. split; [left|done].
Qed.

Lemma first_enabled_spec (items : list (string * LLMProviderConfig (float := float))) :
  match first_enabled items with
  | [] => Forall (fun item => enabled item.2 = false) items
  | [name] =>
      ∃ i provider,
        items !! i = Some (name, provider) ∧ enabled provider = true
        ∧ ∀ j item, (j < i)%nat → items !! j = Some item → enabled item.2 = false
  | _ => False
  end.
Proof.
  induction items as [|[name provider] items IH]; [by constructor|].
  cbn [first_enabled]. destruct (enabled provider) eqn:He.
  - exists 0%nat, provider. split; [reflexivity|]. split; [exact He|].
    intros j item Hj. lia.
  - destruct (first_enabled items) as [|n [|]]; [by constructor| |done].
    destruct IH as (i & pr & Hi & Hen & Hbefore).
    exists (S i), pr. split; [done|]. split; [done|].
    intros [|j] item Hj Hitem.
    + by injection Hitem as <-.
    + apply (Hbefore j); [lia|done].
Qed.

(** X13. [_get_providers_for_role] answers with exactly the enabled ones
    among its candidates, in their order: the role's routing entry, or, when
    the role has no entry or an empty one, the first enabled provider of the
    configuration.  It raises, with an [AttributeError], exactly when one of
    the candidates has no entry in the configuration, whatever its position
    and even if others are enabled. *)
Theorem providers_for_role_are_enabled_candidates (role : string) :
  match _get_providers_for_role (api_exn := api_exn) config role with
  | inl e =>
      e = AttributeError
      ∧ ∃ p, p ∈ candidates config role ∧ dict_get p (providers config) = None
  | inr l =>
      l = filter (fun p => is_enabled config p = true) (candidates config role)
      ∧ l `sublist_of` candidates config role
      ∧ Forall (fun p => is_Some (dict_get p (providers config)))
               (candidates config role)
  end.
Proof.
  change (_get_providers_for_role (api_exn := api_exn) config role)
    with (enabled_providers (api_exn := api_exn) config (candidates config role)).
  pose proof (enabled_providers_spec (candidates config role)) as H.
  destruct (enabled_providers config (candidates config role)) as [e|l]; [exact H|].
  destruct H as [-> Hall]. split; [done|]. split; [apply sublist_filter|done].
Qed.

(** X14. For a role without a routing entry, in a configuration whose
    provider names are distinct, [_get_providers_for_role] does not raise: it
    answers with the first enabled provider, in the order of the
    configuration, and with the empty list when none is enabled. *)
Theorem unrouted_role_gets_first_enabled (role : string) :
  NoDup (providers config).*1 →
  default [] (routing config !! role) = [] →
  _get_providers_for_role (api_exn := api_exn) config role
  = inr (first_enabled (providers config))
  ∧ match first_enabled (providers config) with
    | [] => ∀ p, is_enabled config p = false
    | [name] =>
        ∃ i provider,
          providers config !! i = Some (name, provider) ∧ enabled provider = true
          ∧ ∀ j item, (j < i)%nat → providers config !! j = Some item →
                      enabled item.2 = false
    | _ => False
    end.
Proof.
  intros Hnd Hrole. unfold _get_providers_for_role. rewrite Hrole.
  pose proof (first_enabled_spec (providers config)) as Hfirst.
  destruct (first_enabled (providers config)) as [|name [|]]; [| |done].
  - split; [done|]. intros p. unfold is_enabled.
    destruct (dict_get p (providers config)) as [provider|] eqn:Hp; [|done].
    apply dict_get_elem in Hp. rewrite Forall_forall in Hfirst.
    by apply (Hfirst (p, provider)).
  - split; [|done]. destruct Hfirst as (i & provider & Hi & Hen & _).
    cbn [enabled_providers].
    rewrite (dict_get_NoDup name (providers config) provider Hnd).
    + by rewrite Hen.
    + by eapply list_elem_of_lookup_2.
Qed.

Variable clients : gmap string Client.

Lemma try_providers_cons role messages kw p rest pos last_error :
  try_providers str_api_exn api config clients role messages kw (p :: rest) pos last_error
  = match attempt api config clients messages kw p pos with
    | None =>
        try_providers str_api_exn api config clients role messages kw rest (S pos)
          last_error
    | Some (contacted, outcome) =>
        let called := if contacted then [p] else [] in
        match outcome with
        | inr result => (called, inr result)
        | inl e =>
            if fallback_enabled config
            then let '(trace, r) :=
                   try_providers str_api_exn api config clients role messages kw rest
                     (S pos) (Some e) in
                 ((called ++ trace)%list, r)
            else (called, inl e)
        end
    end.
Proof. reflexivity. Qed.

Lemma attempt_spec messages kw p pos :
  match attempt api config clients messages kw p pos with
  | None => ¬ known p
  | Some (true, outcome) =>
      known p
      ∧ ∃ provider client,
          dict_get p (providers config) = Some provider
          ∧ clients !! p = Some client
          ∧ outcome = match api p client provider messages kw pos with
                      | inl e => inl (ApiError e)
                      | inr content => inr content
                      end
  | Some (false, outcome) =>
      (dict_get p (providers config) = None ∨ clients !! p = None)
      ∧ ∃ e, outcome = inl e
  end.
Proof.
  unfold attempt, _call_openai, _call_claude, _call_local, _call, known.
  destruct (dict_get p (providers config)) as [provider|] eqn:Hp; [|by eauto].
  destruct (String.eqb_spec p "openai") as [->|H1].
  { destruct (clients !! "openai") as [client|] eqn:Hc; [|by eauto].
    split; [by left|]. by exists provider, client. }
  destruct (String.eqb_spec p "claude") as [->|H2].
  { destruct (clients !! "claude") as [client|] eqn:Hc; [|by eauto].
    split; [by right; left|]. by exists provider, client. }
  destruct (String.eqb_spec p "local") as [->|H3].
  { destruct (clients !! "local") as [client|] eqn:Hc; [|by eauto].
    split; [by right; right|]. by exists provider, client. }
  intros [?|[?|?]]; done.
Qed.

Lemma try_providers_spec role messages kw (ps : list string) : ∀ pos last_error,
  let r := try_providers str_api_exn api config clients role messages kw ps pos
             last_error in
  r.1 `sublist_of` ps
  ∧ Forall (fun p => known p ∧ is_Some (clients !! p)) r.1
  ∧ (fallback_enabled config = false → (length r.1 ≤ 1)%nat)
  ∧ ∀ text, r.2 = inr text →
      ∃ i p provider client,
        ps !! i = Some p ∧ known p
        ∧ dict_get p (providers config) = Some provider
        ∧ clients !! p = Some client
        ∧ api p client provider messages kw (pos + i) = inr text
        ∧ last r.1 = Some p
        ∧ ∀ j q provider' client',
            (j < i)%nat → ps !! j = Some q → known q →
            dict_get q (providers config) = Some provider' →
            clients !! q = Some client' →
            ∃ e, api q client' provider' messages kw (pos + j) = inl e.
Proof.
  induction ps as [|p rest IH]; intros pos last_error; cbn zeta.
  { cbn. split; [done|]. split; [done|]. split; [lia|]. intros text H. done. }
  rewrite try_providers_cons.
  pose proof (attempt_spec messages kw p pos) as Hatt.
  destruct (attempt api config clients messages kw p pos) as [[contacted outcome]|].
  2:{ destruct (IH (S pos) last_error) as (Hsub & Hall & Hone & Hans).
      split; [by apply sublist_cons|]. split; [done|]. split; [done|].
      intros text Htext.
      destruct (Hans text Htext) as (i & q & pr & cl & Hi & Hk & Hq & Hc & Hapi & Hl & He).
      exists (S i), q, pr, cl. split; [done|]. split; [done|]. split; [done|].
      split; [done|]. split; [by rewrite Nat.add_succ_r|]. split; [done|].
      intros [|j] q' pr' cl' Hj Hq' Hk' Hd' Hc'.
      - injection Hq' as <-. done.
      - rewrite Nat.add_succ_r. apply (He j q'); [lia|done..]. }
  cbn zeta.
  assert (Hcalled : (if contacted then [p] else []) `sublist_of` [p]
                    ∧ Forall (fun p => known p ∧ is_Some (clients !! p))
                             (if contacted then [p] else [])
                    ∧ (length (if contacted then [p] else []) ≤ 1)%nat).
  { destruct contacted; cbn.
    - destruct Hatt as (Hk & pr & cl & _ & Hc & _). split; [done|]. split; [|lia].
      constructor; [|done]. split; [done|]. by eexists.
    - split; [apply sublist_nil_l|]. split; [done|lia]. }
  destruct Hcalled as (Hsub1 & Hall1 & Hlen1).
  destruct outcome as [e|result].
  - destruct (fallback_enabled config) eqn:Hfb.
    + specialize (IH (S pos) (Some e)).
      destruct (try_providers _ _ _ _ _ _ _ rest (S pos) (Some e)) as [trace r].
      cbn [fst snd] in *. destruct IH as (Hsub & Hall & _ & Hans).
      split; [by apply (sublist_app _ [p])|].
      split; [by apply Forall_app|]. split; [done|].
      intros text Htext.
      destruct (Hans text Htext) as (i & q & pr & cl & Hi & Hk & Hq & Hc & Hapi & Hl & He).
      exists (S i), q, pr, cl. split; [done|]. split; [done|]. split; [done|].
      split; [done|]. split; [by rewrite Nat.add_succ_r|]. split.
      * destruct trace as [|x trace]; [done|]. rewrite last_app. by rewrite Hl.
      * intros [|j] q' pr' cl' Hj Hq' Hk' Hd' Hc'.
        -- injection Hq' as <-. rewrite Nat.add_0_r. destruct contacted.
           ++ destruct Hatt as (_ & pr0 & cl0 & Hd0 & Hc0 & Hout).
              rewrite Hd' in Hd0. rewrite Hc' in Hc0.
              injection Hd0 as <-. injection Hc0 as <-.
              destruct (api p cl' pr' messages kw pos) as [e0|]; [by exists e0|done].
           ++ destruct Hatt as ([Hn|Hn] & _); congruence.
        -- rewrite Nat.add_succ_r. apply (He j q'); [lia|done..].
    + cbn [fst snd].
      split; [etrans; [exact Hsub1|apply (sublist_inserts_r rest [p] [p]); done]|].
      split; [done|]. split; [done|]. intros text H. done.
  - cbn [fst snd].
    split; [etrans; [exact Hsub1|apply (sublist_inserts_r rest [p] [p]); done]|].
    split; [done|]. split; [done|].
    intros text [= ->]. destruct contacted.
    + destruct Hatt as (Hk & pr & cl & Hd & Hc & Hout).
      exists 0%nat, p, pr, cl. split; [done|]. split; [done|]. split; [done|].
      split; [done|]. split.
      * rewrite Nat.add_0_r.
        destruct (api p cl pr messages kw pos) as [e0|c0]; [done|congruence].
      * split; [done|]. intros j q pr' cl' Hj. lia.
    + destruct Hatt as (_ & e & He). done.
Qed.


End LLMRouterProperties.

Lemma unrouted_role_gets_first_enabled_witness :
  LLMRouter._get_providers_for_role (api_exn := string) Demo_llm_config "testing"
  = inr (LLMRouter.first_enabled (LLMRouter.providers Demo_llm_config))
  ∧ match LLMRouter.first_enabled (LLMRouter.providers Demo_llm_config) with
    | [] => ∀ p, LLMRouter.is_enabled Demo_llm_config p = false
    | [name] =>
        ∃ i provider,
          LLMRouter.providers Demo_llm_config !! i = Some (name, provider)
          ∧ LLMRouter.enabled provider = true
          ∧ ∀ j item, (j < i)%nat →
                      LLMRouter.providers Demo_llm_config !! j = Some item →
                      LLMRouter.enabled item.2 = false
    | _ => False
    end.
Proof.
  apply (unrouted_role_gets_first_enabled (api_exn := string) Demo_llm_config "testing").
  - apply (bool_decide_unpack _). vm_compute. reflexivity.
  - vm_compute. reflexivity.
Defined.

(** ** Event queries *)

Lemma insert_desc_Permutation e rows :
  ProgressService.insert_desc e rows ≡ₚ e :: rows.
Proof.
  induction rows as [|x rows IH]; [done|]. cbn [ProgressService.insert_desc].
  destruct (Event.timestamp x <? Event.timestamp e)%nat; [reflexivity|].
  rewrite IH. apply Permutation_swap.
Qed.

Lemma order_by_timestamp_desc_Permutation rows :
  ProgressService.order_by_timestamp_desc rows ≡ₚ rows.
Proof.
  induction rows as [|e rows IH]; [reflexivity|].
  cbn [ProgressService.order_by_timestamp_desc foldr].
  rewrite insert_desc_Permutation. by constructor.
Qed.

Lemma insert_desc_falling e rows :
  ProgressService.falling rows →
  ProgressService.falling (ProgressService.insert_desc e rows).
Proof.
  induction rows as [|x rows IH]; intros Hf; [by repeat constructor|].
  cbn [ProgressService.insert_desc]. destruct Hf as [Hx Hf].
  destruct (Nat.ltb_spec (Event.timestamp x) (Event.timestamp e)) as [Hlt|Hge].
  - split; [|by split]. constructor; [lia|].
    eapply Forall_impl; [exact Hx|]. cbn. intros; lia.
  - split; [|by apply IH]. rewrite insert_desc_Permutation. by constructor.
Qed.

Lemma order_by_timestamp_desc_falling rows :
  ProgressService.falling (ProgressService.order_by_timestamp_desc rows).
Proof.
  induction rows as [|e rows IH]; [done|]. by apply insert_desc_falling.
Qed.

Lemma falling_drop n rows :
  ProgressService.falling rows → ProgressService.falling (drop n rows).
Proof.
  revert n. induction rows as [|e rows IH]; intros [|n] Hf; try done.
  cbn. apply IH. by destruct Hf.
Qed.

Lemma falling_take n rows :
  ProgressService.falling rows → ProgressService.falling (take n rows).
Proof.
  revert n. induction rows as [|e rows IH]; intros [|n] Hf; try done.
  cbn. destruct Hf as [He Hf]. split; [by apply Forall_take|by apply IH].
Qed.

Lemma falling_elem_of rows : ∀ i j a b,
  ProgressService.falling rows → (i ≤ j)%nat →
  rows !! i = Some a → rows !! j = Some b →
  (Event.timestamp b ≤ Event.timestamp a)%nat.
Proof.
  induction rows as [|e rows IH]; intros i j a b Hf Hij Ha Hb; [done|].
  destruct Hf as [He Hf]. destruct i as [|i], j as [|j]; cbn in *.
  - injection Ha as <-. injection Hb as <-. lia.
  - injection Ha as <-. rewrite Forall_forall in He. apply He.
    by eapply list_elem_of_lookup_2.
  - lia.
  - apply (IH i j); [done|lia|done..].
Qed.

Lemma get_project_events_query project_id level event_type (w : World) :
  ∃ query,
    (∀ limit offset,
       ProgressService.get_project_events project_id limit offset level event_type w
       = take limit (drop offset (ProgressService.order_by_timestamp_desc query)))
    ∧ query `sublist_of` events w
    ∧ ∀ e, e ∈ query
           ↔ e ∈ events w ∧ ProgressService.selected project_id level event_type e.
Proof.
  unfold ProgressService.get_project_events, ProgressService.selected.
  destruct level as [l|], event_type as [ty|]; eexists; (split; [done|]);
    (split; [repeat (etrans; [apply sublist_filter|]); done|]);
    intros e; rewrite ?list_elem_of_filter; split.
  - intros (? & ? & ? & ?). repeat split; try done; congruence.
  - intros (? & ? & Hl & Ht). by rewrite (Hl l), (Ht ty).
  - intros (? & ? & ?). repeat split; try done; congruence.
  - intros (? & ? & Hl & _). by rewrite (Hl l).
  - intros (? & ? & ?). repeat split; try done; congruence.
  - intros (? & ? & _ & Ht). by rewrite (Ht ty).
  - intros (? & ?). repeat split; try done; congruence.
  - intros (? & ? & _). done.
Qed.

(** X16. A page of [get_project_events] holds events of the project only,
    each of the level and type asked for when these are given; it has
    [min limit (n - offset)] entries, [n] being the number of events selected,
    and its timestamps never rise from one entry to the next.  With offset 0
    and a limit of at least [n], the page holds every selected event. *)
Theorem get_project_events_page (w : World) (project_id : string)
    (level : option EventLevel) (event_type : option EventType) :
  ∃ query,
    query `sublist_of` events w
    ∧ (∀ e, e ∈ query
            ↔ e ∈ events w ∧ ProgressService.selected project_id level event_type e)
    ∧ ∀ limit offset,
        let page := ProgressService.get_project_events project_id limit offset
                      level event_type w in
        length page = (limit `min` (length query - offset))%nat
        ∧ (∀ e, e ∈ page → e ∈ query)
        ∧ ProgressService.falling page
        ∧ (∀ i j a b, (i ≤ j)%nat → page !! i = Some a → page !! j = Some b →
                      (Event.timestamp b ≤ Event.timestamp a)%nat)
        ∧ (offset = 0%nat → (length query ≤ limit)%nat → page ≡ₚ query).
Proof.
  destruct (get_project_events_query project_id level event_type w)
    as (query & Heq & Hsub & Hin).
  exists query. split; [done|]. split; [done|]. intros limit offset. cbn zeta.
  rewrite Heq.
  pose proof (order_by_timestamp_desc_Permutation query) as Hperm.
  assert (Hfall : ProgressService.falling
                    (take limit (drop offset
                       (ProgressService.order_by_timestamp_desc query)))).
  { apply falling_take, falling_drop, order_by_timestamp_desc_falling. }
  split; [|split; [|split; [|split]]].
  - rewrite length_take, length_drop, Hperm. done.
  - intros e He. rewrite <- Hperm.
    apply (elem_of_sublist _ _ _ He).
    etrans; [apply sublist_take|apply sublist_drop].
  - done.
  - intros i j a b. by apply falling_elem_of.
  - intros -> Hlen. rewrite drop_0, take_ge; [done|]. by rewrite Hperm.
Qed.

(** ** Milestones *)

Lemma min_by_spec {A} (key : A → nat) (l : list A) : ∀ x,
  ProgressService.min_by key x l ∈ x :: l
  ∧ ∀ y, y ∈ x :: l → (key (ProgressService.min_by key x l) ≤ key y)%nat.
Proof.
  induction l as [|z l IH]; intros x; cbn [ProgressService.min_by].
  - split; [left|]. intros y Hy. apply list_elem_of_singleton in Hy. by subst.
  - destruct (Nat.ltb_spec (key z) (key x)) as [Hlt|Hge].
    + destruct (IH z) as [Hin Hmin]. split; [by right|].
      intros y Hy. apply elem_of_cons in Hy as [->|Hy]; [|by apply Hmin].
      specialize (Hmin z). etrans; [apply Hmin; left|lia].
    + destruct (IH x) as [Hin Hmin]. split.
      * apply elem_of_cons in Hin as [->|Hin]; [left|by right; right].
      * intros y Hy. apply elem_of_cons in Hy as [->|Hy]; [apply Hmin; left|].
        apply elem_of_cons in Hy as [->|Hy].
        -- etrans; [apply (Hmin x); left|done].
        -- apply Hmin. by right.
Qed.

Lemma max_by_spec {A} (key : A → nat) (l : list A) : ∀ x,
  ProgressService.max_by key x l ∈ x :: l
  ∧ ∀ y, y ∈ x :: l → (key y ≤ key (ProgressService.max_by key x l))%nat.
Proof.
  induction l as [|z l IH]; intros x; cbn [ProgressService.max_by].
  - split; [left|]. intros y Hy. apply list_elem_of_singleton in Hy. by subst.
  - destruct (Nat.ltb_spec (key x) (key z)) as [Hlt|Hge].
    + destruct (IH z) as [Hin Hmax]. split; [by right|].
      intros y Hy. apply elem_of_cons in Hy as [->|Hy]; [|by apply Hmax].
      specialize (Hmax z). etrans; [|apply Hmax; left]. lia.
    + destruct (IH x) as [Hin Hmax]. split.
      * apply elem_of_cons in Hin as [->|Hin]; [left|by right; right].
      * intros y Hy. apply elem_of_cons in Hy as [->|Hy]; [apply Hmax; left|].
        apply elem_of_cons in Hy as [->|Hy].
        -- etrans; [done|apply (Hmax x); left].
        -- apply Hmax. by right.
Qed.

Lemma first_event_spec (isoformat : datetime → string) (events : list Event)
    (ty : EventType) (nm label : string) :
  let r := match filter (fun e => Event.type e = ty) events with
           | [] => []
           | e :: es =>
               [ProgressService.mkMilestone nm
                  (Some (isoformat
                           (Event.timestamp
                              (ProgressService.min_by Event.timestamp e es))))
                  label]
           end in
  (r = [] ∧ ∀ e, e ∈ events → Event.type e ≠ ty)
  ∨ ∃ e, r = [ProgressService.mkMilestone nm
                (Some (isoformat (Event.timestamp e))) label]
         ∧ e ∈ events ∧ Event.type e = ty
         ∧ ∀ e', e' ∈ events → Event.type e' = ty →
                 (Event.timestamp e ≤ Event.timestamp e')%nat.
Proof.
  cbn zeta. destruct (filter _ events) as [|e es] eqn:Hf.
  - left. split; [done|]. intros e He Hty.
    assert (Hin : e ∈ filter (fun e => Event.type e = ty) events)
      by (by apply list_elem_of_filter).
    rewrite Hf in Hin. by apply elem_of_nil in Hin.
  - right. destruct (min_by_spec Event.timestamp es e) as [Hin Hmin].
    exists (ProgressService.min_by Event.timestamp e es). split; [done|].
    rewrite <- Hf in Hin, Hmin. apply list_elem_of_filter in Hin as [Hty Hin].
    split; [done|]. split; [done|]. intros e' He' Hty'. apply Hmin.
    by apply list_elem_of_filter.
Qed.

Lemma planning_milestone_spec (isoformat : datetime → string) (tasks : list Task) :
  let key t := default ProgressService.datetime_min (Task.completed_at t) in
  let r := match filter (fun t => Task.type t = TaskType.PLANNING) tasks with
           | [] => []
           | t :: ts =>
               if existsb (fun t => bool_decide (Task.status t = TaskStatus.COMPLETED))
                          (filter (fun t => Task.type t = TaskType.PLANNING) tasks)
               then [ProgressService.mkMilestone "Planning Completed"
                       (isoformat <$> Task.completed_at
                                        (ProgressService.max_by key t ts))
                       "planning"]
               else []
           end in
  (r = [] ∧ ∀ t, t ∈ tasks → Task.type t = TaskType.PLANNING →
                 Task.status t ≠ TaskStatus.COMPLETED)
  ∨ ∃ t, r = [ProgressService.mkMilestone "Planning Completed"
                (isoformat <$> Task.completed_at t) "planning"]
         ∧ t ∈ tasks ∧ Task.type t = TaskType.PLANNING
         ∧ (∃ t0, t0 ∈ tasks ∧ Task.type t0 = TaskType.PLANNING
                  ∧ Task.status t0 = TaskStatus.COMPLETED)
         ∧ ∀ t', t' ∈ tasks → Task.type t' = TaskType.PLANNING →
                 (key t' ≤ key t)%nat.
Proof.
  cbn zeta.
  set (planning := filter (fun t => Task.type t = TaskType.PLANNING) tasks).
  assert (Hpl : ∀ t, t ∈ planning ↔ Task.type t = TaskType.PLANNING ∧ t ∈ tasks).
  { intros t.
    exact (list_elem_of_filter (fun t => Task.type t = TaskType.PLANNING) tasks t). }
  destruct (existsb (fun t => bool_decide (Task.status t = TaskStatus.COMPLETED))
                    planning) eqn:Hex.
  - apply existsb_exists in Hex as (t0 & Hin0 & Hst0).
    apply list_elem_of_In in Hin0. apply bool_decide_eq_true in Hst0.
    destruct planning as [|t ts] eqn:Hp; [by apply elem_of_nil in Hin0|].
    right.
    destruct (max_by_spec
                (fun t => default ProgressService.datetime_min (Task.completed_at t))
                ts t) as [Hin Hmax].
    eexists. split; [reflexivity|].
    apply Hpl in Hin as [Hty Hin]. split; [done|]. split; [done|]. split.
    + apply Hpl in Hin0 as [? ?]. by exists t0.
    + intros t' Hin' Hty'. apply Hmax. by apply Hpl.
  - left. split; [by destruct planning|].
    intros t Hin Hty Hst.
    assert (Hex' : existsb (fun t => bool_decide (Task.status t = TaskStatus.COMPLETED))
                           planning = true).
    { apply existsb_exists. exists t. split.
      - apply list_elem_of_In, Hpl. done.
      - by apply bool_decide_eq_true. }
    congruence.
Qed.

(** X17. [_extract_milestones] lists at most four milestones, always in the
    order planning, code generation, tests, deployment, and each at most once.
    The milestone of code generation, of tests or of deployment is there
    exactly when an event of the matching type (CODE_GENERATED, TEST_PASSED,
    DEPLOYMENT_COMPLETED) is among the events, and it is stamped with the
    earliest timestamp of these events.  The planning milestone is there
    exactly when some PLANNING task is COMPLETED, and it is stamped with the
    latest completion time found on any PLANNING task, completed or not (with
    no timestamp if that task has none). *)
Theorem extract_milestones_spec (isoformat : datetime → string)
    (tasks : list Task) (events : list Event) :
  let ms := ProgressService._extract_milestones isoformat tasks events in
  let key t := default ProgressService.datetime_min (Task.completed_at t) in
  ProgressService.type <$> ms
    `sublist_of` ["planning"; "codegen"; "testing"; "deployment"]
  ∧ (∀ ty label, (ty, label) ∈ ProgressService.milestone_events →
       (label ∈ ProgressService.type <$> ms ↔ ∃ e, e ∈ events ∧ Event.type e = ty)
       ∧ ∀ m, m ∈ ms → ProgressService.type m = label →
           ∃ e, e ∈ events ∧ Event.type e = ty
                ∧ ProgressService.timestamp m = Some (isoformat (Event.timestamp e))
                ∧ ∀ e', e' ∈ events → Event.type e' = ty →
                        (Event.timestamp e ≤ Event.timestamp e')%nat)
  ∧ ("planning" ∈ ProgressService.type <$> ms
     ↔ ∃ t, t ∈ tasks ∧ Task.type t = TaskType.PLANNING
            ∧ Task.status t = TaskStatus.COMPLETED)
  ∧ ∀ m, m ∈ ms → ProgressService.type m = "planning" →
      ∃ t, t ∈ tasks ∧ Task.type t = TaskType.PLANNING
           ∧ ProgressService.timestamp m = isoformat <$> Task.completed_at t
           ∧ ∀ t', t' ∈ tasks → Task.type t' = TaskType.PLANNING →
                   (key t' ≤ key t)%nat.
Proof.
  cbn zeta. unfold ProgressService._extract_milestones. cbv beta zeta.
  pose proof (planning_milestone_spec isoformat tasks) as HP.
  pose proof (first_event_spec isoformat events EventType.CODE_GENERATED
                "First Code Generated" "codegen") as HC.
  pose proof (first_event_spec isoformat events EventType.TEST_PASSED
                "Tests Passing" "testing") as HT.
  pose proof (first_event_spec isoformat events EventType.DEPLOYMENT_COMPLETED
                "Deployment Completed" "deployment") as HD.
  cbv beta zeta in HP, HC, HT, HD.
  match type of HP with (?x = [] ∧ _) ∨ _ => set (P := x) in * end.
  match type of HC with (?x = [] ∧ _) ∨ _ => set (C := x) in * end.
  match type of HT with (?x = [] ∧ _) ∨ _ => set (T := x) in * end.
  match type of HD with (?x = [] ∧ _) ∨ _ => set (D := x) in * end.
  clearbody P C T D.
  split; [|split; [|split]].
  - rewrite !fmap_app.
    apply (sublist_app _ ["planning"] _ ["codegen"; "testing"; "deployment"]).
    { destruct HP as [[-> _]|(t & -> & _)]; [apply sublist_nil_l|done]. }
    apply (sublist_app _ ["codegen"] _ ["testing"; "deployment"]).
    { destruct HC as [[-> _]|(e & -> & _)]; [apply sublist_nil_l|done]. }
    apply (sublist_app _ ["testing"] _ ["deployment"]).
    { destruct HT as [[-> _]|(e & -> & _)]; [apply sublist_nil_l|done]. }
    destruct HD as [[-> _]|(e & -> & _)]; [apply sublist_nil_l|done].
  - intros ty label Hin. unfold ProgressService.milestone_events in Hin.
    repeat (apply elem_of_cons in Hin as [[= -> ->]|Hin]);
      [| | |by apply elem_of_nil in Hin].
    + split.
      * rewrite !fmap_app, !elem_of_app. split.
        -- intros [H|[H|[H|H]]].
           ++ destruct HP as [[-> _]|(t & -> & _)]; cbn in H;
                [by apply elem_of_nil in H|by apply list_elem_of_singleton in H].
           ++ destruct HC as [[-> _]|(e & -> & ? & ? & _)];
                [by apply elem_of_nil in H|eauto].
           ++ destruct HT as [[-> _]|(e & -> & _)]; cbn in H;
                [by apply elem_of_nil in H|by apply list_elem_of_singleton in H].
           ++ destruct HD as [[-> _]|(e & -> & _)]; cbn in H;
                [by apply elem_of_nil in H|by apply list_elem_of_singleton in H].
        -- intros (e & He & Hty). right; left.
           destruct HC as [[_ Hnone]|(e0 & -> & _)]; [by destruct (Hnone e He)|].
           cbn. left.
      * intros m Hm Hlabel. rewrite !elem_of_app in Hm.
        destruct Hm as [H|[H|[H|H]]].
        -- destruct HP as [[-> _]|(t & -> & _)];
             [by apply elem_of_nil in H|apply list_elem_of_singleton in H; by subst m].
        -- destruct HC as [[-> _]|(e & -> & ? & ? & ?)];
             [by apply elem_of_nil in H|].
           apply list_elem_of_singleton in H. subst m. by exists e.
        -- destruct HT as [[-> _]|(e & -> & _)];
             [by apply elem_of_nil in H|apply list_elem_of_singleton in H; by subst m].
        -- destruct HD as [[-> _]|(e & -> & _)];
             [by apply elem_of_nil in H|apply list_elem_of_singleton in H; by subst m].
    + split.
      * rewrite !fmap_app, !elem_of_app. split.
        -- intros [H|[H|[H|H]]].
           ++ destruct HP as [[-> _]|(t & -> & _)]; cbn in H;
                [by apply elem_of_nil in H|by apply list_elem_of_singleton in H].
           ++ destruct HC as [[-> _]|(e & -> & _)]; cbn in H;
                [by apply elem_of_nil in H|by apply list_elem_of_singleton in H].
           ++ destruct HT as [[-> _]|(e & -> & ? & ? & _)];
                [by apply elem_of_nil in H|eauto].
           ++ destruct HD as [[-> _]|(e & -> & _)]; cbn in H;
                [by apply elem_of_nil in H|by apply list_elem_of_singleton in H].
        -- intros (e & He & Hty). right; right; left.
           destruct HT as [[_ Hnone]|(e0 & -> & _)]; [by destruct (Hnone e He)|].
           cbn. left.
      * intros m Hm Hlabel. rewrite !elem_of_app in Hm.
        destruct Hm as [H|[H|[H|H]]].
        -- destruct HP as [[-> _]|(t & -> & _)];
             [by apply elem_of_nil in H|apply list_elem_of_singleton in H; by subst m].
        -- destruct HC as [[-> _]|(e & -> & _)];
             [by apply elem_of_nil in H|apply list_elem_of_singleton in H; by subst m].
        -- destruct HT as [[-> _]|(e & -> & ? & ? & ?)];
             [by apply elem_of_nil in H|].
           apply list_elem_of_singleton in H. subst m. by exists e.
        -- destruct HD as [[-> _]|(e & -> & _)];
             [by apply elem_of_nil in H|apply list_elem_of_singleton in H; by subst m].
    + split.
      * rewrite !fmap_app, !elem_of_app. split.
        -- intros [H|[H|[H|H]]].
           ++ destruct HP as [[-> _]|(t & -> & _)]; cbn in H;
                [by apply elem_of_nil in H|by apply list_elem_of_singleton in H].
           ++ destruct HC as [[-> _]|(e & -> & _)]; cbn in H;
                [by apply elem_of_nil in H|by apply list_elem_of_singleton in H].
           ++ destruct HT as [[-> _]|(e & -> & _)]; cbn in H;
                [by apply elem_of_nil in H|by apply list_elem_of_singleton in H].
           ++ destruct HD as [[-> _]|(e & -> & ? & ? & _)];
                [by apply elem_of_nil in H|eauto].
        -- intros (e & He & Hty). right; right; right.
           destruct HD as [[_ Hnone]|(e0 & -> & _)]; [by destruct (Hnone e He)|].
           cbn. left.
      * intros m Hm Hlabel. rewrite !elem_of_app in Hm.
        destruct Hm as [H|[H|[H|H]]].
        -- destruct HP as [[-> _]|(t & -> & _)];
             [by apply elem_of_nil in H|apply list_elem_of_singleton in H; by subst m].
        -- destruct HC as [[-> _]|(e & -> & _)];
             [by apply elem_of_nil in H|apply list_elem_of_singleton in H; by subst m].
        -- destruct HT as [[-> _]|(e & -> & _)];
             [by apply elem_of_nil in H|apply list_elem_of_singleton in H; by subst m].
        -- destruct HD as [[-> _]|(e & -> & ? & ? & ?)];
             [by apply elem_of_nil in H|].
           apply list_elem_of_singleton in H. subst m. by exists e.
  - rewrite !fmap_app, !elem_of_app. split.
    + intros [H|[H|[H|H]]].
      * destruct HP as [[-> _]|(t & -> & _ & _ & Hex & _)];
          [by apply elem_of_nil in H|done].
      * destruct HC as [[-> _]|(e & -> & _)]; cbn in H;
          [by apply elem_of_nil in H|by apply list_elem_of_singleton in H].
      * destruct HT as [[-> _]|(e & -> & _)]; cbn in H;
          [by apply elem_of_nil in H|by apply list_elem_of_singleton in H].
      * destruct HD as [[-> _]|(e & -> & _)]; cbn in H;
          [by apply elem_of_nil in H|by apply list_elem_of_singleton in H].
    + intros (t0 & Hin0 & Hty0 & Hst0). left.
      destruct HP as [[_ Hnone]|(t & -> & _)]; [by destruct (Hnone t0 Hin0 Hty0)|].
      cbn. left.
  - intros m Hm Hlabel. rewrite !elem_of_app in Hm.
    destruct Hm as [H|[H|[H|H]]].
    + destruct HP as [[-> _]|(t & -> & ? & ? & _ & ?)]; [by apply elem_of_nil in H|].
      apply list_elem_of_singleton in H. subst m. by exists t.
    + destruct HC as [[-> _]|(e & -> & _)];
        [by apply elem_of_nil in H|apply list_elem_of_singleton in H; by subst m].
    + destruct HT as [[-> _]|(e & -> & _)];
        [by apply elem_of_nil in H|apply list_elem_of_singleton in H; by subst m].
    + destruct HD as [[-> _]|(e & -> & _)];
        [by apply elem_of_nil in H|apply list_elem_of_singleton in H; by subst m].
Qed.

(** ** Project statistics *)

Lemma filter_length_all {A} (P : A → Prop) `{∀ x, Decision (P x)} (l : list A) :
  length (filter P l) = length l ↔ Forall P l.
Proof.
  induction l as [|x l IH]; [by split; [constructor|]|].
  rewrite filter_cons. pose proof (length_filter P l) as Hle.
  destruct (decide (P x)) as [Hx|Hx]; cbn [length].
  - rewrite Forall_cons. split.
    + intros [= Hl]. split; [done|]. by apply IH.
    + intros [_ Hl]. f_equal. by apply IH.
  - split; [lia|]. intros [? _]%Forall_cons. done.
Qed.

Lemma status_counts (l : list Task) :
  let count st := length (filter (fun t => Task.status t = st) l) in
  (count TaskStatus.PENDING + count TaskStatus.RUNNING + count TaskStatus.COMPLETED
   + count TaskStatus.FAILED ≤ length l)%nat
  ∧ ((count TaskStatus.PENDING + count TaskStatus.RUNNING + count TaskStatus.COMPLETED
      + count TaskStatus.FAILED = length l)%nat
     ↔ Forall (fun t => Task.status t = TaskStatus.PENDING
                        ∨ Task.status t = TaskStatus.RUNNING
                        ∨ Task.status t = TaskStatus.COMPLETED
                        ∨ Task.status t = TaskStatus.FAILED) l).
Proof.
  cbn zeta. induction l as [|t l [IHle IHeq]]; [by split; [|split; [constructor|]]|].
  rewrite !filter_cons, Forall_cons. cbn [length].
  destruct (Task.status t) eqn:Hst;
    repeat first [rewrite decide_True by done | rewrite decide_False by done];
    cbn [length]; (split; [lia|]); split.
  all: try (intros Heq; split; [by eauto|]; apply IHeq; lia).
  all: try (intros [_ Hl]; apply IHeq in Hl; lia).
  all: try (intros Heq; exfalso; lia).
  all: intros [[?|[?|[?|?]]] _]; done.
Qed.

Section StatsProperties.

Context {float : Type}.
Variable percentage : nat → nat → float.

(** X18. [get_project_stats] answers [None] exactly for a project that does
    not exist.  Otherwise it counts the project's tasks afresh from the task
    table: the four counts it reports never add up to more than the total,
    and they add up to the total exactly when no task of the project is
    QUEUED, RETRYING or CANCELLED, the states it leaves out; the completed
    count equals the total exactly when every task of the project is
    COMPLETED, the condition of [_check_project_completion]; and the
    percentage is the integer 0 exactly for a project without tasks. *)
Theorem get_project_stats_counts (project_id : string) (w : World) :
  match ProjectStats.get_project_stats percentage project_id w with
  | None => projects w !! project_id = None
  | Some s =>
      is_Some (projects w !! project_id)
      ∧ (ProjectStats.pending_tasks s + ProjectStats.running_tasks s
         + ProjectStats.completed_tasks s + ProjectStats.failed_tasks s
         ≤ ProjectStats.total_tasks s)%nat
      ∧ ((ProjectStats.pending_tasks s + ProjectStats.running_tasks s
          + ProjectStats.completed_tasks s + ProjectStats.failed_tasks s
          = ProjectStats.total_tasks s)%nat
         ↔ ∀ id t, tasks w !! id = Some t → Task.project_id t = project_id →
                   Task.status t ≠ TaskStatus.QUEUED
                   ∧ Task.status t ≠ TaskStatus.RETRYING
                   ∧ Task.status t ≠ TaskStatus.CANCELLED)
      ∧ (ProjectStats.completed_tasks s = ProjectStats.total_tasks s
         ↔ all_tasks_completed project_id w)
      ∧ (ProjectStats.progress_percentage s = inl 0
         ↔ ProjectStats.total_tasks s = 0%nat)
  end.
Proof.
  unfold ProjectStats.get_project_stats, ProjectService.get_project.
  destruct (projects w !! project_id) as [p|] eqn:Hp; [|done].
  cbn zeta.
  set (rows := filter (fun row : string * Task => Task.project_id row.2 = project_id)
                      (map_to_list (tasks w))).
  assert (Hrows : ∀ P : Task → Prop,
            Forall P rows.*2
            ↔ ∀ id t, tasks w !! id = Some t → Task.project_id t = project_id → P t).
  { intros P. rewrite Forall_fmap, Forall_forall. split.
    - intros H id t Ht Hpid. apply (H (id, t)).
      apply list_elem_of_filter. split; [done|]. by apply elem_of_map_to_list.
    - intros H [id t] [Hpid Hin]%list_elem_of_filter. cbn.
      apply elem_of_map_to_list in Hin. by eapply H. }
  cbn [ProjectStats.pending_tasks ProjectStats.running_tasks
       ProjectStats.completed_tasks ProjectStats.failed_tasks
       ProjectStats.total_tasks ProjectStats.progress_percentage].
  destruct (status_counts rows.*2) as [Hle Heq]. cbn zeta in Hle, Heq.
  split; [by eexists|]. split; [exact Hle|]. split; [|split].
  - rewrite Heq, Hrows. split.
    + intros H id t Ht Hpid. destruct (H id t Ht Hpid) as [E|[E|[E|E]]];
        rewrite E; done.
    + intros H id t Ht Hpid. destruct (H id t Ht Hpid) as (? & ? & ?).
      destruct (Task.status t); tauto.
  - rewrite filter_length_all, Hrows. done.
  - destruct rows.*2 as [|t l]; [done|]. split; [done|]. cbn. lia.
Qed.

End StatsProperties.

(** ** The deployer and the web agent *)

(** What the [except] block of an agent leaves behind, for a task that is
    RUNNING with its project in place: the task's own FAILED write, one
    event, and the verdict of [on_task_failure]. *)
Lemma failure_path max_retries (w : World) (task_id str_e : string)
    (t : Task) (p : Project) (n : Z) (ev : Event) :
  tasks w !! task_id = Some t →
  projects w !! Task.project_id t = Some p →
  int (Task.retry_count t) = Some n →
  ∃ w',
    on_task_failure max_retries task_id str_e
      (add_event ev (Agent.mark_failed task_id str_e w)) = Ok w'
    ∧ events w' = (events w ++ [ev])%list
    ∧ (∃ t', tasks w' !! task_id = Some t'
             ∧ Task.status t'
               = (if n <? max_retries then TaskStatus.RETRYING else TaskStatus.FAILED)
             ∧ Task.error_message t' = Some str_e
             ∧ Task.output_data t' = Task.output_data t
             ∧ Task.completed_at t' = Task.completed_at t)
    ∧ (if n <? max_retries
       then ∃ h, enqueued w w' = [(h, run_fixer task_id str_e)]
       else enqueued w w' = []
            ∧ project_status w' (Task.project_id t) = Some ProjectStatus.FAILED).
Proof.
  intros Ht Hp Hn.
  set (w3 := add_event ev (Agent.mark_failed task_id str_e w)).
  set (t3 := Task.set_error_message (Some str_e) (Task.set_status TaskStatus.FAILED t)).
  assert (Hl3 : tasks w3 !! task_id = Some t3).
  { subst w3. unfold Agent.mark_failed, update_task, set_tasks, add_event. cbn [tasks].
    by rewrite lookup_alter_eq, Ht. }
  assert (Hp3 : projects w3 !! Task.project_id t3 = Some p) by done.
  assert (Hb3 : broker w3 = broker w) by done.
  destruct (n <? max_retries) eqn:Hlt.
  - apply Z.ltb_lt in Hlt.
    rewrite (on_task_failure_within _ _ _ _ t3 n Hl3 Hn Hlt).
    eexists. split; [done|]. cbn [events tasks]. split; [done|]. split.
    + eexists. by rewrite lookup_insert_eq.
    + eexists. unfold enqueued. cbn [broker]. rewrite Hb3. by rewrite drop_app_length.
  - apply Z.ltb_ge in Hlt.
    rewrite (on_task_failure_exhausted _ _ _ _ t3 n p Hl3 Hn Hlt Hp3).
    eexists. split; [done|]. cbn [events tasks]. split; [done|]. split.
    + eexists. by rewrite lookup_insert_eq.
    + unfold enqueued, project_status. cbn [broker projects].
      rewrite Hb3, drop_all. split; [done|].
      replace (Task.project_id t3) with (Task.project_id t) by done.
      by rewrite lookup_insert_eq.
Qed.

Lemma running_lookup task_id now (e : Event) (w : World) (t : Task) :
  tasks w !! task_id = Some t →
  tasks (add_event e (Agent.mark_running task_id now w)) !! task_id
  = Some (Task.set_started_at (Some now) (Task.set_status TaskStatus.RUNNING t)).
Proof.
  intros Ht. unfold Agent.mark_running, update_task, set_tasks, add_event. cbn [tasks].
  by rewrite lookup_alter_eq, Ht.
Qed.

Lemma completed_lookup task_id output later (e : Event) (w : World) (t : Task) :
  tasks w !! task_id = Some t →
  tasks (add_event e (Agent.mark_completed task_id output later w)) !! task_id
  = Some (Task.set_output_data (Some output)
            (Task.set_completed_at (Some later)
               (Task.set_status TaskStatus.COMPLETED t))).
Proof.
  intros Ht. unfold Agent.mark_completed, update_task, set_tasks, add_event. cbn [tasks].
  by rewrite lookup_alter_eq, Ht.
Qed.

Section DeployerProperties.

Variable run : list string → string + Deployer.CompletedProcess.
Variable exists_ : nat → string → bool.
Variable workspace_name : string.
Variable strip : string → string.

(** X19. The deployment helpers never raise: each returns a dictionary whose
    first entry is ["success"] with a boolean.  The two Docker helpers report
    success exactly when both of their commands ran and exited with code 0.
    [_deploy_python] and [_deploy_nodejs] report success whenever their
    commands could be run at all: the exit codes are not looked at. *)
Theorem deploy_helpers_success :
  (∀ result,
     result ∈ [Deployer._deploy_docker_compose run;
               Deployer._deploy_docker run workspace_name strip;
               Deployer._deploy_python run;
               Deployer._deploy_nodejs run exists_] →
     ∃ b, Deployer.success_of result = Some (JBool b))
  ∧ (Deployer.success_of (Deployer._deploy_docker_compose run) = Some (JBool true)
     ↔ ∃ build up,
         run ["docker-compose"; "build"] = inr build ∧ Deployer.returncode build = 0
         ∧ run ["docker-compose"; "up"; "-d"] = inr up ∧ Deployer.returncode up = 0)
  ∧ (Deployer.success_of (Deployer._deploy_docker run workspace_name strip)
     = Some (JBool true)
     ↔ ∃ build up,
         run ["docker"; "build"; "-t"; "app-" ++ workspace_name; "."] = inr build
         ∧ Deployer.returncode build = 0
         ∧ run ["docker"; "run"; "-d"; "-p"; "8080:8080"; "app-" ++ workspace_name]
           = inr up
         ∧ Deployer.returncode up = 0)
  ∧ (Deployer.success_of (Deployer._deploy_python run) = Some (JBool true)
     ↔ ∃ install, run ["pip"; "install"; "-r"; "requirements.txt"] = inr install)
  ∧ (Deployer.success_of (Deployer._deploy_nodejs run exists_) = Some (JBool true)
     ↔ (∃ install, run ["npm"; "install"] = inr install)
       ∧ (exists_ 1%nat "package.json" = true →
          ∃ build, run ["npm"; "run"; "build"] = inr build)).
Proof.
  unfold Deployer._deploy_docker_compose, Deployer._deploy_docker,
    Deployer._deploy_python, Deployer._deploy_nodejs, Deployer.failure.
  split; [|split; [|split; [|split]]].
  - intros result Hin.
    repeat (apply elem_of_cons in Hin as [->|Hin]); [| | | |by apply elem_of_nil in Hin].
    + destruct (run ["docker-compose"; "build"]) as [e|r1]; [by eexists|].
      destruct (Deployer.returncode r1 =? 0); cbn [negb]; [|by eexists].
      destruct (run ["docker-compose"; "up"; "-d"]) as [e|r2]; by eexists.
    + destruct (run ["docker"; "build"; "-t"; "app-" ++ workspace_name; "."])
        as [e|r1]; [by eexists|].
      destruct (Deployer.returncode r1 =? 0); cbn [negb]; [|by eexists].
      destruct (run ["docker"; "run"; "-d"; "-p"; "8080:8080"; "app-" ++ workspace_name])
        as [e|r2]; by eexists.
    + destruct (run ["pip"; "install"; "-r"; "requirements.txt"]); by eexists.
    + destruct (run ["npm"; "install"]) as [e|r1]; [by eexists|].
      destruct (exists_ 1%nat "package.json"); [|by eexists].
      destruct (run ["npm"; "run"; "build"]); by eexists.
  - destruct (run ["docker-compose"; "build"]) as [e|r1].
    { split; [done|]. by intros (? & ? & ? & _). }
    destruct (Z.eqb_spec (Deployer.returncode r1) 0) as [H1|H1]; cbn [negb].
    2:{ split; [done|]. intros (b & ? & [= <-] & ? & _). done. }
    destruct (run ["docker-compose"; "up"; "-d"]) as [e|r2].
    { split; [done|]. by intros (? & ? & _ & _ & ? & _). }
    cbn. destruct (Z.eqb_spec (Deployer.returncode r2) 0) as [H2|H2].
    + split; [|done]. intros _. by exists r1, r2.
    + split; [done|]. intros (? & u & _ & _ & [= <-] & ?). done.
  - destruct (run ["docker"; "build"; "-t"; "app-" ++ workspace_name; "."]) as [e|r1].
    { split; [done|]. by intros (? & ? & ? & _). }
    destruct (Z.eqb_spec (Deployer.returncode r1) 0) as [H1|H1]; cbn [negb].
    2:{ split; [done|]. intros (b & ? & [= <-] & ? & _). done. }
    destruct (run ["docker"; "run"; "-d"; "-p"; "8080:8080"; "app-" ++ workspace_name])
      as [e|r2].
    { split; [done|]. by intros (? & ? & _ & _ & ? & _). }
    cbn. destruct (Z.eqb_spec (Deployer.returncode r2) 0) as [H2|H2].
    + split; [|done]. intros _. by exists r1, r2.
    + split; [done|]. intros (? & u & _ & _ & [= <-] & ?). done.
  - destruct (run ["pip"; "install"; "-r"; "requirements.txt"]) as [e|r1].
    + split; [done|]. by intros (? & ?).
    + split; [|done]. intros _. by exists r1.
  - destruct (run ["npm"; "install"]) as [e|r1].
    { split; [done|]. by intros [(? & ?) _]. }
    destruct (exists_ 1%nat "package.json").
    + destruct (run ["npm"; "run"; "build"]) as [e|r2].
      * split; [done|]. intros [_ H]. by destruct (H eq_refl).
      * split; [|done]. intros _. split; [by exists r1|]. intros _. by exists r2.
    + split; [|done]. intros _. split; [by exists r1|]. done.
Qed.

(** X20. A deployment run, for a task whose project has a workspace path,
    completes the task whatever the deployment came to: also when the helper
    reported [success: False], or when no deployment configuration was found,
    the task ends COMPLETED with [deployment_info] as output, the event
    DEPLOYMENT_COMPLETED says "Deployment completed successfully", the
    project's completed counter rises, and the run returns its success
    dictionary; the failure handler is not called. *)
Theorem deployment_completes_whatever_the_result (max_retries : Z)
    (str_exn : Exn → World → string) (str_path_error : string)
    (w : World) (task_id workspace : string) (now later : datetime)
    (t : Task) (p : Project) :
  tasks w !! task_id = Some t →
  projects w !! Task.project_id t = Some p →
  Project.workspace_path p = Some workspace →
  let info := Deployer.deployment_info run exists_ workspace_name strip in
  let r := Deployer._run_deployment_async run exists_ workspace_name strip
             max_retries str_exn str_path_error task_id now later w in
  r.2 = inr (JDict [("success", JBool true); ("deployment_info", info)])
  ∧ tasks r.1 !! task_id
    = Some (Task.set_output_data (Some info)
              (Task.set_completed_at (Some later)
                 (Task.set_started_at (Some now)
                    (Task.set_status TaskStatus.COMPLETED t))))
  ∧ (∃ p', projects r.1 !! Task.project_id t = Some p'
           ∧ Project.completed_tasks p' = Project.completed_tasks p + 1)
  ∧ events r.1
    = (events w
       ++ [Event.mk (Task.project_id t) EventType.DEPLOYMENT_STARTED EventLevel.INFO
             "Deployment started" None (Some "deployer") (Some task_id) now;
           Event.mk (Task.project_id t) EventType.DEPLOYMENT_COMPLETED EventLevel.INFO
             "Deployment completed successfully" (Some info)
             (Some "deployer") (Some task_id) later])%list.
Proof.
  intros Ht Hp Hws. cbn zeta. unfold Deployer._run_deployment_async.
  rewrite Ht, Hp, Hws.
  set (info := Deployer.deployment_info run exists_ workspace_name strip).
  match goal with
  | |- context [on_task_complete task_id info later ?v] => set (w3 := v)
  end.
  set (t2 := Task.set_started_at (Some now) (Task.set_status TaskStatus.RUNNING t)).
  set (t3 := Task.set_output_data (Some info)
               (Task.set_completed_at (Some later)
                  (Task.set_status TaskStatus.COMPLETED t2))).
  assert (Hl3 : tasks w3 !! task_id = Some t3).
  { subst w3. apply completed_lookup. by apply running_lookup. }
  assert (Hp3 : projects w3 !! Task.project_id t3 = Some p) by done.
  destruct (on_task_complete_present task_id info later w3 t3 p Hl3 Hp3)
    as (w' & -> & Hl' & Hp' & He'). cbn [fst snd].
  split; [done|]. split; [by rewrite Hl'|]. split; [done|].
  rewrite He'. subst w3. cbn. by rewrite <- !app_assoc.
Qed.

End DeployerProperties.

Lemma deployment_completes_whatever_the_result_witness :
  let run := fun _ : list string =>
               inr (Deployer.mkCompletedProcess 1 "" "build failed") in
  let exists_ := fun (_ : nat) name => String.eqb name "docker-compose.yml" in
  let w := Demo.world ProjectStatus.CODING
             [("d", Demo.task TaskType.DEPLOYMENT TaskStatus.QUEUED (Some []) "0")] in
  (Deployer._run_deployment_async run exists_ "p1" (fun s => s) 5 (fun _ _ => "")
     "expected str, bytes or os.PathLike object, not NoneType" "d" 3%nat 4%nat w).2
  = inr (JDict [("success", JBool true);
                ("deployment_info",
                 JDict [("type", JStr "docker-compose");
                        ("result", JDict [("success", JBool false);
                                          ("error", JStr "build failed")])])]).
Proof.
  exact (proj1 (deployment_completes_whatever_the_result
                  (fun _ => inr (Deployer.mkCompletedProcess 1 "" "build failed"))
                  (fun _ name => String.eqb name "docker-compose.yml")
                  "p1" (fun s => s) 5 (fun _ _ => "")
                  "expected str, bytes or os.PathLike object, not NoneType"
                  (Demo.world ProjectStatus.CODING
                     [("d", Demo.task TaskType.DEPLOYMENT TaskStatus.QUEUED (Some []) "0")])
                  "d" "/app/projects/p1" 3%nat 4%nat
                  (Demo.task TaskType.DEPLOYMENT TaskStatus.QUEUED (Some []) "0")
                  (Demo.project ProjectStatus.CODING) eq_refl eq_refl eq_refl)).
Defined.

Section WebAgentProperties.

Variable format : json → string.
Variable str_no_get : json → string.

(** X21. The web agent reports a task as completed in two cases only: the
    service answered with status 200 and a JSON object, whatever that object
    says about passed and failed tests, and the service could not be reached.
    In the second case the task is left with the output [{"skipped": true}]:
    the reason the agent had written with it is overwritten by the completion
    callback.  In every other case (another status code, an answer that is
    not an object, any other exception) the agent reports the error text to
    [on_task_failure] after marking the task FAILED, so that the task ends
    RETRYING with retries left and FAILED otherwise; for an answer that is
    not an object this happens after the task had been written as COMPLETED,
    and it keeps the output and completion time of that write. *)
Theorem web_tests_outcomes (max_retries : Z) (str_exn : Exn → World → string)
    (w : World) (task_id : string) (attempt : WebAgent.Attempt)
    (now later : datetime) (t : Task) (p : Project) (n : Z) :
  tasks w !! task_id = Some t →
  projects w !! Task.project_id t = Some p →
  int (Task.retry_count t) = Some n →
  let r := WebAgent._run_web_tests_async format str_no_get max_retries str_exn
             task_id attempt now later w in
  if WebAgent.completes attempt
  then (∃ rest, r.2 = inr (JDict (("success", JBool true) :: rest)))
       ∧ ∃ t', tasks r.1 !! task_id = Some t'
               ∧ Task.status t' = TaskStatus.COMPLETED
               ∧ Task.output_data t' = Some (WebAgent.final_output attempt)
  else r.2 = inr (JDict [("error", JStr (WebAgent.failure_text str_no_get attempt))])
       ∧ ∃ t', tasks r.1 !! task_id = Some t'
               ∧ Task.status t'
                 = (if n <? max_retries then TaskStatus.RETRYING else TaskStatus.FAILED)
               ∧ Task.error_message t'
                 = Some (WebAgent.failure_text str_no_get attempt)
               ∧ if WebAgent.answered_200 attempt
                 then Task.output_data t' = Some (WebAgent.final_output attempt)
                      ∧ Task.completed_at t' = Some later
                 else Task.output_data t' = Task.output_data t
                      ∧ Task.completed_at t' = Task.completed_at t.
Proof.
  intros Ht Hp Hn. cbn zeta. unfold WebAgent._run_web_tests_async. rewrite Ht, Hp.
  set (t2 := Task.set_started_at (Some now) (Task.set_status TaskStatus.RUNNING t)).
  match goal with
  | |- context [add_event ?e (Agent.mark_running task_id now w)] =>
      set (w2 := add_event e (Agent.mark_running task_id now w))
  end.
  assert (Hl2 : tasks w2 !! task_id = Some t2) by (by apply running_lookup).
  assert (Hp2 : projects w2 !! Task.project_id t2 = Some p) by done.
  assert (Hfail : ∀ (w0 : World) (t0 : Task) str_e,
            tasks w0 !! task_id = Some t0 →
            projects w0 !! Task.project_id t0 = Some p →
            int (Task.retry_count t0) = Some n →
            Task.project_id t0 = Task.project_id t →
            let r := WebAgent.on_exception max_retries task_id (Task.project_id t)
                       str_e later w0 in
            r.2 = inr (JDict [("error", JStr str_e)])
            ∧ ∃ t', tasks r.1 !! task_id = Some t'
                    ∧ Task.status t'
                      = (if n <? max_retries then TaskStatus.RETRYING
                         else TaskStatus.FAILED)
                    ∧ Task.error_message t' = Some str_e
                    ∧ Task.output_data t' = Task.output_data t0
                    ∧ Task.completed_at t' = Task.completed_at t0).
  { intros w0 t0 str_e Ht0 Hp0 Hn0 Hpid. cbn zeta. unfold WebAgent.on_exception.
    match goal with
    | |- context [add_event ?e (Agent.mark_failed task_id str_e w0)] =>
        destruct (failure_path max_retries w0 task_id str_e t0 p n e Ht0 Hp0 Hn0)
          as (w' & -> & _ & Ht' & _)
    end.
    cbn [fst snd]. done. }
  destruct attempt as [status_code test_results| |str_e];
    cbn [WebAgent.completes WebAgent.answered_200 WebAgent.failure_text
         WebAgent.final_output].
  - destruct (Z.eqb_spec status_code 200) as [->|Hstatus].
    + set (w2c := Agent.mark_completed task_id test_results later w2).
      set (t2c := Task.set_output_data (Some test_results)
                    (Task.set_completed_at (Some later)
                       (Task.set_status TaskStatus.COMPLETED t2))).
      assert (Hl2c : tasks w2c !! task_id = Some t2c).
      { subst w2c. unfold Agent.mark_completed, update_task, set_tasks. cbn [tasks].
        by rewrite lookup_alter_eq, Hl2. }
      assert (Hnot : ∀ b : bool,
                b = false →
                let r := WebAgent.on_exception max_retries task_id (Task.project_id t)
                           (str_no_get test_results) later w2c in
                if b
                then (∃ rest, r.2 = inr (JDict (("success", JBool true) :: rest)))
                     ∧ ∃ t', tasks r.1 !! task_id = Some t'
                             ∧ Task.status t' = TaskStatus.COMPLETED
                             ∧ Task.output_data t' = Some test_results
                else r.2 = inr (JDict [("error", JStr (str_no_get test_results))])
                     ∧ ∃ t', tasks r.1 !! task_id = Some t'
                             ∧ Task.status t'
                               = (if n <? max_retries then TaskStatus.RETRYING
                                  else TaskStatus.FAILED)
                             ∧ Task.error_message t' = Some (str_no_get test_results)
                             ∧ Task.output_data t' = Some test_results
                               ∧ Task.completed_at t' = Some later).
      { intros b ->.
        destruct (Hfail w2c t2c (str_no_get test_results) Hl2c Hp Hn eq_refl)
          as (Hr & t' & Hl' & Hs' & He' & Ho' & Hc').
        split; [exact Hr|]. exists t'. done. }
      destruct test_results as [| | | | |items]; try exact (Hnot false eq_refl).
      clear Hnot.
      match goal with
      | |- context [on_task_complete task_id ?o later ?v] => set (w3 := v)
      end.
      assert (Hl3 : tasks w3 !! task_id = Some t2c) by (by subst w3).
      assert (Hp3 : projects w3 !! Task.project_id t2c = Some p) by done.
      destruct (on_task_complete_present task_id (JDict items) later w3 t2c p Hl3 Hp3)
        as (w' & -> & Hl' & _). cbn [fst snd].
      split; [by eexists|]. eexists. split; [exact Hl'|]. done.
    + destruct (Hfail w2 t2 ("Web agent returned status " ++ str status_code)
                  Hl2 Hp2 Hn eq_refl) as (Hr & t' & Hl' & Hs' & He' & Ho' & Hc').
      destruct test_results; (split; [exact Hr|]; exists t'; done).
  - match goal with
    | |- context [on_task_complete task_id ?o later ?v] => set (w3 := v)
    end.
    set (t3 := Task.set_output_data
                 (Some (JDict [("skipped", JBool true);
                               ("reason", JStr "Web agent service not available")]))
                 (Task.set_completed_at (Some later)
                    (Task.set_status TaskStatus.COMPLETED t2))).
    assert (Hl3 : tasks w3 !! task_id = Some t3).
    { subst w3. by apply completed_lookup. }
    assert (Hp3 : projects w3 !! Task.project_id t3 = Some p) by done.
    destruct (on_task_complete_present task_id (JDict [("skipped", JBool true)])
                later w3 t3 p Hl3 Hp3) as (w' & -> & Hl' & _). cbn [fst snd].
    split; [by eexists|]. eexists. split; [exact Hl'|]. done.
  - destruct (Hfail w2 t2 str_e Hl2 Hp2 Hn eq_refl)
      as (Hr & t' & Hl' & Hs' & He' & Ho' & Hc').
    split; [exact Hr|]. exists t'. done.
Qed.

End WebAgentProperties.

Lemma web_tests_outcomes_witness :
  let w := Demo.world ProjectStatus.CODING
             [("wt", Demo.task TaskType.WEB_TEST TaskStatus.QUEUED None "0")] in
  let r := WebAgent._run_web_tests_async (fun _ => "") (fun _ => "") 5 (fun _ _ => "")
             "wt" WebAgent.Unreachable 3%nat 4%nat w in
  (∃ rest, r.2 = inr (JDict (("success", JBool true) :: rest)))
  ∧ ∃ t', tasks r.1 !! "wt" = Some t'
          ∧ Task.status t' = TaskStatus.COMPLETED
          ∧ Task.output_data t' = Some (JDict [("skipped", JBool true)]).
Proof.
  exact (web_tests_outcomes (fun _ => "") (fun _ => "") 5 (fun _ _ => "")
           (Demo.world ProjectStatus.CODING
              [("wt", Demo.task TaskType.WEB_TEST TaskStatus.QUEUED None "0")])
           "wt" WebAgent.Unreachable 3%nat 4%nat
           (Demo.task TaskType.WEB_TEST TaskStatus.QUEUED None "0")
           (Demo.project ProjectStatus.CODING) 0 eq_refl eq_refl eq_refl).
Defined.

(** ** What an execution never does *)

Lemma well_typed_alter w w' id f :
  (∀ t, Task.type (f t) = Task.type t
        ∧ (Task.status (f t) = TaskStatus.CANCELLED →
           Task.status t = TaskStatus.CANCELLED)) →
  tasks w' = alter f id (tasks w) →
  (∀ call, call ∈ broker w' →
           call ∈ broker w
           ∨ ∃ t, tasks w !! call_task_id call.2 = Some t
                  ∧ (fits (Task.type t) call.2 ∨ is_Some (fix_target call.2))) →
  well_typed w → well_typed w'.
Proof.
  intros Hf Htasks Hbroker [Hrows Hcalls].
  assert (Hkeep : ∀ j t, tasks w !! j = Some t →
                         ∃ t', tasks w' !! j = Some t' ∧ Task.type t' = Task.type t).
  { intros j t Hj. rewrite Htasks. destruct (decide (id = j)) as [<-|Hne].
    - exists (f t). rewrite lookup_alter_eq, Hj. split; [done|]. apply Hf.
    - exists t. by rewrite lookup_alter_ne. }
  split.
  - intros j t' Hj. rewrite Htasks, lookup_alter_Some in Hj.
    destruct Hj as [(-> & t & Ht & ->)|[_ Hj]]; [|by apply (Hrows j)].
    destruct (Hrows _ _ Ht) as [Hst Hty]. destruct (Hf t) as [Etype Hcancel].
    split; [intros Hc; by apply Hst, Hcancel|by rewrite Etype].
  - intros call Hin.
    assert (Hold : ∃ t, tasks w !! call_task_id call.2 = Some t
                        ∧ (fits (Task.type t) call.2 ∨ is_Some (fix_target call.2))).
    { destruct (Hbroker _ Hin) as [Hin'|Hnew]; [by apply Hcalls|done]. }
    destruct Hold as (t & Ht & Hfit).
    destruct (Hkeep _ _ Ht) as (t' & Ht' & Etype).
    exists t'. split; [done|]. by rewrite Etype.
Qed.

Lemma well_typed_atomic w w' :
  atomic w w' → consistent w → well_typed w → well_typed w'.
Proof.
  intros Hstep Hw Hwt. pose proof (consistent_unused w Hw) as (Hnone & _ & _).
  destruct Hstep as [ps es| |id f Hf|t Hr Hc Hs Hty|c tc Htc Hfit|id error t n Ht Hn].
  - done.
  - done.
  - apply (well_typed_alter w _ id f); [|done| |done].
    + intros t. destruct (Hf t) as ((_ & _ & _ & Etype & _) & _ & _ & Hcancel).
      by split.
    + intros call Hin. by left.
  - destruct Hwt as [Hrows Hcalls]. split.
    + intros j t' Hj. cbn in Hj.
      destruct (decide (uuid_name (uuid_counter w) = j)) as [<-|Hne].
      * rewrite lookup_insert_eq in Hj. injection Hj as <-.
        split; [by rewrite Hs|done].
      * rewrite lookup_insert_ne in Hj by done. by apply (Hrows j).
    + intros call Hin. destruct (Hcalls _ Hin) as (t' & Ht' & Hfit).
      exists t'. split; [|done]. cbn.
      rewrite lookup_insert_ne by (intros Heq; rewrite <- Heq in Ht'; congruence).
      done.
  - apply (well_typed_alter w _ (call_task_id c)
             (Task.set_celery_task_id (Some (uuid_name (uuid_counter w)))));
      [intros ?; by split|done| |done].
    intros call Hin. cbn in Hin.
    apply elem_of_app in Hin as [Hin|Hin%list_elem_of_singleton]; [by left|].
    right. subst call. exists tc. split; [done|]. by left.
  - apply (well_typed_alter w _ id
             (Task.set_celery_task_id (Some (uuid_name (uuid_counter w)))
              ∘ Task.set_retry_count (str (n + 1))));
      [intros ?; by split|done| |done].
    intros call Hin. cbn in Hin.
    apply elem_of_app in Hin as [Hin|Hin%list_elem_of_singleton]; [by left|].
    right. subst call. exists t. split; [done|]. right. by eexists.
Qed.

Lemma well_typed_rtc w w' :
  rtc atomic w w' → consistent w → well_typed w → well_typed w'.
Proof.
  induction 1 as [w|w w1 w2 Hstep _ IH]; intros Hw Hwt; [done|].
  apply IH; [by eapply consistent_atomic|by eapply well_typed_atomic].
Qed.

Lemma well_typed_empty : well_typed empty_world.
Proof.
  split.
  - intros id t Ht. cbn in Ht. by rewrite lookup_empty in Ht.
  - intros call Hin. cbn in Hin. by apply elem_of_nil in Hin.
Qed.

(** X22. What an execution never does.  In every world reached from the
    empty one no task is CANCELLED, every task is a PLANNING, CODEGEN, TESTING
    or DEPLOYMENT task, every call on the broker other than a fix request is a
    call to the agent of its task's type, and no call to the web test agent
    was ever put on the broker: the WEB_TEST branch of [_schedule_task] is
    never taken. *)
Theorem execution_never (max_retries : Z) (w : World) :
  reachable max_retries empty_world w →
  well_typed w ∧ ∀ h task_id, (h, run_web_tests task_id) ∉ broker w.
Proof.
  intros Hreach.
  assert (Hwt : well_typed w).
  { eapply well_typed_rtc; [by eapply rtc_atomic_reachable|..].
    - apply consistent_empty.
    - apply well_typed_empty. }
  split; [done|]. intros h task_id Hin.
  destruct Hwt as [Hrows Hcalls].
  destruct (Hcalls _ Hin) as (t & Ht & [Hfit|[x Hx]]); [|done].
  cbn in Hfit, Ht. destruct (Hrows _ _ Ht) as [_ Hty].
  unfold created_type in Hty. rewrite Hfit in Hty.
  by destruct Hty as [?|[?|[?|?]]].
Qed.

Lemma execution_never_witness :
  well_typed Demo_failed_once
  ∧ ∀ h task_id, (h, run_web_tests task_id) ∉ broker Demo_failed_once.
Proof.
  apply (execution_never 5 Demo_failed_once).
  exact (reachable_trans 5 _ _ _ Demo_submitted_reachable Demo_failed_once_reachable).
Defined.
